(** * The vault-key sealing subsystem of pkg/pillar/evetpm (tpm.go)

    A shallow embedding of the vault-key life cycle, the seal/unseal
    protocol, the PCR snapshot diagnoser and the measurement-log archivist,
    as functions over an explicit state of the device (the security module,
    the file system, the package globals), followed by the properties of
    that code. *)

From Stdlib Require Import ZArith Lia.
From Stdlib.Strings Require Import Byte Ascii.
From stdpp Require Import base option list gmap strings pretty sorting.

Local Open Scope Z_scope.
Set Warnings "-register-all".

(** ** Bytes *)

Abbreviation bytes := (list byte).

#[global] Instance byte_eq_dec : EqDecision byte := Byte.byte_eq_dec.

#[global] Program Instance byte_countable : Countable byte :=
  inj_countable Byte.to_N Byte.of_N _.
Next Obligation. intros b. apply Byte.of_to_N. Qed.

(** ** Go values that end up in an error or a formatted string

    [fmt.Errorf] and [fmt.Sprintf] are kept as trees: the format string and
    its arguments, so that what an error carries stays visible. *)

Inductive val : Type :=
| VErr (code : string)               (* an error of a library primitive *)
| VStr (s : string)                  (* a string literal *)
| VInt (n : Z)                       (* %d, %v of an int or a handle *)
| VInts (l : list Z)                 (* %v of a []int *)
| VFmt (fmt : string) (args : list val).   (* fmt.Errorf / fmt.Sprintf *)

Abbreviation error := val.

Inductive result (A : Type) : Type :=
| Ok (a : A)
| Err (e : error).
Arguments Ok {A} a.
Arguments Err {A} e.

Definition is_ok {A} (r : result A) : bool :=
  match r with Ok _ => true | Err _ => false end.

(** ** The device *)

(** tpm2.PCRSelection *)
Record PCRSelection : Type := mkPCRSelection { Hash : Z; PCRs : list Z }.

(** An NV index: its size, fixed when it is defined, and its contents once
    it has been written. *)
Record nv_entry : Type := NvEntry { nv_size : Z; nv_data : option bytes }.

(** A sealed object loaded into the module: the policy digest that
    authorises its use, and the payload. *)
Record sealed_obj : Type := SealedObj { obj_policy : bytes; obj_data : bytes }.

Inductive fnode : Type :=
| File (content : bytes)
| Dir.

(** PCRBank256Status stores info about support for SHA256 PCR bank *)
Inductive PCRBank256Status : Type :=
| PCRBank256StatusUnknown
| PCRBank256StatusSupported
| PCRBank256StatusNotSupported.

#[global] Instance PCRBank256Status_eq_dec : EqDecision PCRBank256Status.
Proof. solve_decision. Defined.

Record World : Type := mkWorld {
  dev_present : bool;                (* /dev/tpmrm0 can be opened *)
  persistent : gset Z;               (* persistent key handles (SRK, ...) *)
  nv : gmap Z nv_entry;              (* NV storage, by index *)
  pcr_bank : gmap (Z * Z) bytes;     (* (algorithm, register) -> digest *)
  objects : gmap Z sealed_obj;       (* loaded transient objects *)
  sessions : gmap Z bytes;           (* policy sessions: handle -> digest *)
  next_handle : Z;                   (* next transient or session handle *)
  rng_pool : bytes;                  (* what the hardware RNG yields next *)
  fs : gmap string fnode;            (* the file system, by path *)
  sysfs_tpms : list string;          (* what the glob of syfsTpmDir yields *)
  pcrBank256Status : PCRBank256Status   (* package variable *)
}.

Definition set_nv (f : gmap Z nv_entry → gmap Z nv_entry) (w : World) : World :=
  mkWorld (dev_present w) (persistent w) (f (nv w)) (pcr_bank w) (objects w)
          (sessions w) (next_handle w) (rng_pool w) (fs w) (sysfs_tpms w)
          (pcrBank256Status w).

Definition set_objects (f : gmap Z sealed_obj → gmap Z sealed_obj) (w : World) : World :=
  mkWorld (dev_present w) (persistent w) (nv w) (pcr_bank w) (f (objects w))
          (sessions w) (next_handle w) (rng_pool w) (fs w) (sysfs_tpms w)
          (pcrBank256Status w).

Definition set_sessions (f : gmap Z bytes → gmap Z bytes) (w : World) : World :=
  mkWorld (dev_present w) (persistent w) (nv w) (pcr_bank w) (objects w)
          (f (sessions w)) (next_handle w) (rng_pool w) (fs w) (sysfs_tpms w)
          (pcrBank256Status w).

Definition set_next_handle (h : Z) (w : World) : World :=
  mkWorld (dev_present w) (persistent w) (nv w) (pcr_bank w) (objects w)
          (sessions w) h (rng_pool w) (fs w) (sysfs_tpms w)
          (pcrBank256Status w).

Definition set_rng_pool (p : bytes) (w : World) : World :=
  mkWorld (dev_present w) (persistent w) (nv w) (pcr_bank w) (objects w)
          (sessions w) (next_handle w) p (fs w) (sysfs_tpms w)
          (pcrBank256Status w).

Definition set_fs (f : gmap string fnode → gmap string fnode) (w : World) : World :=
  mkWorld (dev_present w) (persistent w) (nv w) (pcr_bank w) (objects w)
          (sessions w) (next_handle w) (rng_pool w) (f (fs w)) (sysfs_tpms w)
          (pcrBank256Status w).

Definition set_pcrBank256Status (s : PCRBank256Status) (w : World) : World :=
  mkWorld (dev_present w) (persistent w) (nv w) (pcr_bank w) (objects w)
          (sessions w) (next_handle w) (rng_pool w) (fs w) (sysfs_tpms w) s.

(** ** Computations over the device: state passing with errors *)

Definition M (A : Type) : Type := World → result A * World.

Definition ret {A} (a : A) : M A := λ w, (Ok a, w).

Definition fail {A} (e : error) : M A := λ w, (Err e, w).

Definition bind {A B} (c : M A) (k : A → M B) : M B :=
  λ w, match c w with
       | (Ok a, w') => k a w'
       | (Err e, w') => (Err e, w')
       end.

(** [if err != nil { return ..., f(err) }] *)
Definition on_err {A} (c : M A) (f : error → error) : M A :=
  λ w, match c w with
       | (Ok a, w') => (Ok a, w')
       | (Err e, w') => (Err (f e), w')
       end.

Definition gets {A} (f : World → A) : M A := λ w, (Ok (f w), w).

Definition modify (f : World → World) : M unit := λ w, (Ok tt, f w).

(** A call whose error is dropped: [_ = f()], or a bare call statement. *)
Definition ignore {A} (c : M A) : M unit :=
  λ w, (Ok tt, (c w).2).

(** A call whose outcome is inspected instead of returned. *)
Definition attempt {A} (c : M A) : M (result A) :=
  λ w, (Ok (c w).1, (c w).2).

(** [defer cleanup]: the clean-up runs when the body returns, whatever the
    body returns. *)
Definition defer {A} (cleanup : M unit) (body : M A) : M A :=
  λ w, let '(r, w') := body w in (r, (cleanup w').2).

(** [defer func() { ... err ... }()]: a clean-up that looks at the error
    the body ends with. *)
Definition defer_err {A} (cleanup : option error → M unit) (body : M A) : M A :=
  λ w, let '(r, w') := body w in
       (r, (cleanup (match r with Ok _ => None | Err e => Some e end) w').2).

Declare Scope go_scope.
Delimit Scope go_scope with go.
Notation "x <- c ;; k" := (bind c (λ x, k))
  (at level 100, c at next level, right associativity) : go_scope.
Notation "c ;; k" := (bind c (λ _, k))
  (at level 100, right associativity) : go_scope.
Notation "c 'or_return' f" := (on_err c f) (at level 60) : go_scope.
Local Open Scope go_scope.

(** ** Package tpm2 (github.com/google/go-tpm): the commands the code sends

    Each command is a function of the device state. The module is modelled
    after what the commands do to NV storage, registers, sessions and loaded
    objects; a failure is always determined by the state. *)
Module tpm2.

Definition AlgSHA256 : Z := 0x000B.
Definition HandleOwner : Z := 0x40000001.
Definition HandleNull : Z := 0x40000007.

Definition OpenTPM (path : string) : M unit :=
  λ w, if dev_present w then (Ok tt, w)
       else (Err (VFmt "open %s: no such device" [VStr path]), w).

(** rw.Close() *)
Definition Close : M unit := ret tt.

Definition NVUndefineSpace (index : Z) : M unit :=
  λ w, match nv w !! index with
       | Some _ => (Ok tt, set_nv (delete index) w)
       | None => (Err (VErr "TPM_RC_HANDLE"), w)
       end.

(** Defines an index that does not exist yet. The limit that a module puts
    on the size of an index (TPM_PT_NV_INDEX_MAX, some 2 KiB) is left out:
    an index of any size is defined. *)
Definition NVDefineSpace (index : Z) (size : Z) : M unit :=
  λ w, match nv w !! index with
       | Some _ => (Err (VErr "TPM_RC_NV_DEFINED"), w)
       | None => (Ok tt, set_nv (<[index := NvEntry size None]>) w)
       end.

(** Writes [data] at offset 0: the index has to exist and the data has to
    fit; bytes past the data keep their value. *)
Definition NVWrite (index : Z) (data : bytes) : M unit :=
  λ w, match nv w !! index with
       | None => (Err (VErr "TPM_RC_HANDLE"), w)
       | Some e =>
           if decide (Z.of_nat (length data) ≤ nv_size e) then
             let old := default (replicate (Z.to_nat (nv_size e)) x00) (nv_data e) in
             (Ok tt,
              set_nv (<[index := NvEntry (nv_size e)
                                   (Some (data ++ drop (length data) old))]>) w)
           else (Err (VErr "TPM_RC_NV_RANGE"), w)
       end.

(** Reads the whole index. *)
Definition NVReadEx (index : Z) : M bytes :=
  λ w, match nv w !! index with
       | None => (Err (VErr "TPM_RC_HANDLE"), w)
       | Some (NvEntry _ None) => (Err (VErr "TPM_RC_NV_UNINITIALIZED"), w)
       | Some (NvEntry _ (Some d)) => (Ok d, w)
       end.

Definition ReadPCR (pcr : Z) (hashAlg : Z) : M bytes :=
  λ w, match pcr_bank w !! (hashAlg, pcr) with
       | Some d => (Ok d, w)
       | None => (Err (VErr "TPM_RC_VALUE"), w)
       end.

Definition GetRandom (numBytes : Z) : M bytes :=
  λ w, let n := Z.to_nat numBytes in
       if decide (n ≤ length (rng_pool w))%nat then
         (Ok (take n (rng_pool w)), set_rng_pool (drop n (rng_pool w)) w)
       else (Err (VErr "TPM_RC_NO_RESULT"), w).

(** A fresh policy session; its digest starts empty. *)
Definition StartAuthSession : M Z :=
  λ w, let h := next_handle w in
       (Ok h, set_next_handle (h + 1) (set_sessions (<[h := []]>) w)).

(** The registers of a selection, in the order of the selection. *)
Definition read_selection (sel : PCRSelection) (w : World) : option (list bytes) :=
  mapM (λ i, pcr_bank w !! (Hash sel, i)) (PCRs sel).

(** Extends the digest of the session by the current values of the
    selected registers. The digest is modelled by what is hashed. *)
Definition PolicyPCR (session : Z) (sel : PCRSelection) : M unit :=
  λ w, match sessions w !! session with
       | None => (Err (VErr "TPM_RC_HANDLE"), w)
       | Some d =>
           match read_selection sel w with
           | None => (Err (VErr "TPM_RC_VALUE"), w)
           | Some vs => (Ok tt, set_sessions (<[session := d ++ concat vs]>) w)
           end
       end.

Definition PolicyGetDigest (session : Z) : M bytes :=
  λ w, match sessions w !! session with
       | None => (Err (VErr "TPM_RC_HANDLE"), w)
       | Some d => (Ok d, w)
       end.

Definition FlushContext (handle : Z) : M unit :=
  λ w, match sessions w !! handle, objects w !! handle with
       | Some _, _ => (Ok tt, set_sessions (delete handle) w)
       | None, Some _ => (Ok tt, set_objects (delete handle) w)
       | None, None => (Err (VErr "TPM_RC_HANDLE"), w)
       end.

(** The largest payload of a sealed object (MAX_SYM_DATA). *)
Definition MaxSymData : Z := 128.

(** Seals [sensitive] under [parent] with the authorisation policy
    [policy]: the private blob carries the payload, the public blob the
    policy. *)
Definition Seal (parent : Z) (policy sensitive : bytes) : M (bytes * bytes) :=
  λ w, if decide (parent ∈ persistent w) then
         if decide (Z.of_nat (length sensitive) ≤ MaxSymData) then
           (Ok (sensitive, policy), w)
         else (Err (VErr "TPM_RC_SIZE"), w)
       else (Err (VErr "TPM_RC_HANDLE"), w).

Definition Load (parent : Z) (pub priv : bytes) : M Z :=
  λ w, if decide (parent ∈ persistent w) then
         let h := next_handle w in
         (Ok h, set_next_handle (h + 1)
                  (set_objects (<[h := SealedObj pub priv]>) w))
       else (Err (VErr "TPM_RC_HANDLE"), w).

(** Releases the payload when the digest of the session is the policy of
    the object. *)
Definition UnsealWithSession (session item : Z) : M bytes :=
  λ w, match sessions w !! session, objects w !! item with
       | Some d, Some o =>
           if decide (d = obj_policy o) then (Ok (obj_data o), w)
           else (Err (VErr "TPM_RC_POLICY_FAIL"), w)
       | _, _ => (Err (VErr "TPM_RC_HANDLE"), w)
       end.

End tpm2.

(** ** Package os, and filepath *)
Module os.

Definition ReadFile (name : string) : M bytes :=
  λ w, match fs w !! name with
       | Some (File b) => (Ok b, w)
       | Some Dir => (Err (VFmt "read %s: is a directory" [VStr name]), w)
       | None => (Err (VFmt "open %s: no such file or directory" [VStr name]), w)
       end.

(** Moves [oldpath] to [newpath], replacing what is there; a file does
    not replace a directory, nor a directory a file. *)
Definition Rename (oldpath newpath : string) : M unit :=
  λ w, match fs w !! oldpath, fs w !! newpath with
       | None, _ =>
           (Err (VFmt "rename %s %s: no such file or directory"
                   [VStr oldpath; VStr newpath]), w)
       | Some (File _), Some Dir =>
           (Err (VFmt "rename %s %s: file exists" [VStr oldpath; VStr newpath]), w)
       | Some Dir, Some (File _) =>
           (Err (VFmt "rename %s %s: not a directory" [VStr oldpath; VStr newpath]), w)
       | Some n, _ => (Ok tt, set_fs (λ m, <[newpath := n]> (delete oldpath m)) w)
       end.

(** Whether the directory [name] holds something: some path of the file
    system lies under it. *)
Definition holds_entries (name : string) (m : gmap string fnode) : bool :=
  existsb (λ entry, String.prefix (name +:+ "/") entry.1) (map_to_list m).

(** Removes a file, or a directory that holds nothing; a directory that
    holds something is left where it is. *)
Definition Remove (name : string) : M unit :=
  λ w, match fs w !! name with
       | Some (File _) => (Ok tt, set_fs (delete name) w)
       | Some Dir =>
           if holds_entries name (fs w)
           then (Err (VFmt "remove %s: directory not empty" [VStr name]), w)
           else (Ok tt, set_fs (delete name) w)
       | None => (Err (VFmt "remove %s: no such file or directory" [VStr name]), w)
       end.

End os.

Module filepath.

(** filepath.Glob(syfsTpmDir): the pattern is well formed, so no error. *)
Definition Glob_syfsTpmDir : M (list string) := λ w, (Ok (sysfs_tpms w), w).

(** filepath.Join of a clean directory and a name. *)
Definition Join (dir name : string) : string := dir +:+ "/" +:+ name.

End filepath.

(** ** What the file takes from the rest of the repository and from Go *)

(** Constants of package types (pkg/pillar/types), which is not part of
    this file: taken as parameters. *)
Class Locations : Type := {
  IdentityDirname : string;
  PersistStatusDir : string;
  DeviceCertName : string;
  DeviceKeyName : string
}.

(** encoding/gob on a [map[int][]byte]: some stable binary encoding that
    decodes to the map that was encoded. *)
Class Gob : Type := {
  gob_encode : gmap Z bytes → bytes;
  gob_decode : bytes → option (gmap Z bytes);
  gob_decode_encode : ∀ m, gob_decode (gob_encode m) = Some m
}.

(** [for k, v := range m]: Go yields the entries of a map in an order of
    its choice, each entry once. *)
Class MapRange : Type := {
  map_range : gmap Z bytes → list (Z * bytes);
  map_range_perm : ∀ m, map_range m ≡ₚ map_to_list m
}.

(** sort.Ints *)
Definition sort_Ints (l : list Z) : list Z := merge_sort Z.le l.

(** bytes.Equal *)
Definition bytes_Equal (a b : bytes) : bool := bool_decide (a = b).

(** Conversion to uint16. *)
Definition uint16 (n : Z) : Z := n mod 65536.

(** Package fileutils (pkg/pillar/utils/file) *)
Module fileutils.

(** Modelled from the spec: the existence of a path (the helper is in
    another package of the repository). *)
Definition FileExists (filename : string) : M bool :=
  gets (λ w, bool_decide (is_Some (fs w !! filename))).

(** Modelled from the spec: writes the bytes to the destination, through
    a temporary file that is renamed onto it; a directory in the place of
    the destination makes it fail. *)
Definition WriteRename (fileName : string) (b : bytes) : M unit :=
  λ w, match fs w !! fileName with
       | Some Dir =>
           (Err (VFmt "rename %s: file exists" [VStr fileName]), w)
       | _ => (Ok tt, set_fs (<[fileName := File b]>) w)
       end.

End fileutils.

(** ** tpm.go *)

(** SealedKeyType holds different types of sealed key *)
Inductive SealedKeyType : Type :=
| SealedKeyTypeUnknown       (* Invalid *)
| SealedKeyTypeReused        (* Sealed key is cloned from legacy key *)
| SealedKeyTypeNew           (* Sealed key is not cloned from legacy key *)
| SealedKeyTypeUnprotected.  (* Sealed key is not available, using legacy key *)

Definition TpmDevicePath : string := "/dev/tpmrm0".
Definition TpmPasswdHdl : Z := 0x1600000.
Definition TpmSRKHdl : Z := 0x81000002.
Definition MaxPasswdLength : Z := 7.
Definition TpmDiskKeyHdl : Z := 0x1700000.
Definition TpmSealedDiskPrivHdl : Z := 0x1800000.
Definition TpmSealedDiskPubHdl : Z := 0x1900000.
Definition vaultKeyLength : Z := 32.
Definition measurementLogFile : string := "binary_bios_measurements".

(** DiskKeySealingPCRs represents PCRs that we use for sealing *)
Definition DiskKeySealingPCRs : PCRSelection :=
  mkPCRSelection tpm2.AlgSHA256 [0; 1; 2; 3; 4; 6; 7; 8; 9; 13; 14].

(** fmt.Sprintf(TpmEvtLogSavePattern, s, d), the pattern being "%s-tpm%d" *)
Definition TpmEvtLogSavePattern (s : string) (d : Z) : string :=
  s +:+ "-tpm" +:+ pretty d.

(** fmt.Sprintf(TpmEvtLogCollectPattern, s), the pattern being "%s-backup" *)
Definition TpmEvtLogCollectPattern (s : string) : string := s +:+ "-backup".

(** Conversions to uint8 and uint32. *)
Definition uint8 (n : Z) : Z := n mod 256.
Definition uint32 (n : Z) : Z := n mod 4294967296.

(** The byte that a uint8 is in a []byte. *)
Definition byte_of_uint8 (c : Z) : byte := default x00 (Byte.of_N (Z.to_N c)).

(** [get8] of GetModelName; the shift count is a uint32, and a shift of a
    uint32 by 32 or more gives 0, as [Z.shiftr] does on a value below 2^32. *)
Definition get8 (val offset : Z) : Z :=
  uint8 (Z.land (Z.shiftr val (uint32 (uint32 (3 - offset) * 8))) 0xff).

(** [for i = 0; i < uint32(unsafe.Sizeof(value)); i++] of uintToByteArr,
    with [n] iterations left *)
Fixpoint uintToByteArr_loop (value : Z) (n : nat) (i : Z) (bytes : list Z) : list Z :=
  match n with
  | O => bytes
  | S n =>
      let c := get8 value i in
      uintToByteArr_loop value n (uint32 (i + 1)) (bytes ++ [c])
  end.

(** [uintToByteArr] of GetModelName; unsafe.Sizeof of a uint32 is 4. *)
Definition uintToByteArr (value : Z) : list Z :=
  uintToByteArr_loop value (Z.to_nat (4 - 0)) 0 [].

(** GetModelName combines vendor1 and vendor2 values into a string *)
Definition GetModelName (vendorValue1 vendorValue2 : Z) : string :=
  let model := [] in
  let model := model ++ uintToByteArr vendorValue1 in
  let model := model ++ uintToByteArr vendorValue2 in
  String.string_of_list_byte (byte_of_uint8 <$> model).

(** [get16] of GetFirmwareVersion *)
Definition get16 (val offset : Z) : Z :=
  uint16 (Z.land (Z.shiftr val (uint32 (uint32 (1 - offset) * 16))) 0xFFFF).

(** GetFirmwareVersion converts v1, v2 values from TPM properties to
    string; the pattern is "%d.%d.%d.%d". *)
Definition GetFirmwareVersion (v1 v2 : Z) : string :=
  pretty (get16 v1 0) +:+ "." +:+ pretty (get16 v1 1) +:+ "." +:+
  pretty (get16 v2 0) +:+ "." +:+ pretty (get16 v2 1).

Section Code.
Context `{Hloc : !Locations, Hgob : !Gob, Hrange : !MapRange}.

Definition TpmCredentialsFileName : string := IdentityDirname +:+ "/tpm_credential".
Definition TpmSavedDiskSealingPcrs : string := PersistStatusDir +:+ "/sealingpcrs".
Definition MeasurementLogSealSuccess : string :=
  PersistStatusDir +:+ "/tpm_measurement_seal_success".
Definition MeasurementLogUnsealFail : string :=
  PersistStatusDir +:+ "/tpm_measurement_unseal_fail".

(** ReadOwnerCrdl returns credential specific to this device *)
Definition ReadOwnerCrdl : M bytes :=
  tpmOwnerPasswdBytes <- os.ReadFile TpmCredentialsFileName ;;
  let tpmOwnerPasswd := tpmOwnerPasswdBytes in
  let tpmOwnerPasswd :=
    if decide (Z.of_nat (length tpmOwnerPasswd) > MaxPasswdLength)
    then take (Z.to_nat MaxPasswdLength) tpmOwnerPasswd
    else tpmOwnerPasswd in
  ret tpmOwnerPasswd.

(** IsTpmEnabled checks if TPM is being used by software for creating
    device cert *)
Definition IsTpmEnabled : M bool :=
  c <- fileutils.FileExists DeviceCertName ;;
  k <- fileutils.FileExists DeviceKeyName ;;
  ret (c && negb k).

(** GetRandom returns a random []byte of requested length *)
Definition GetRandom (numBytes : Z) : M bytes :=
  tpm2.OpenTPM TpmDevicePath ;;
  defer tpm2.Close (tpm2.GetRandom numBytes).

Definition writeDiskKey (key : bytes) : M unit :=
  tpm2.OpenTPM TpmDevicePath ;;
  defer tpm2.Close (
    (* not an error if it fails *)
    ignore (tpm2.NVUndefineSpace TpmDiskKeyHdl) ;;
    tpm2.NVDefineSpace TpmDiskKeyHdl (uint16 (Z.of_nat (length key)))
      or_return (λ err, VFmt "NVDefineSpace failed: %v" [err]) ;;
    tpm2.NVWrite TpmDiskKeyHdl key
      or_return (λ err, VFmt "NVWrite failed: %v" [err]) ;;
    ret tt).

Definition readDiskKey : M bytes :=
  tpm2.OpenTPM TpmDevicePath ;;
  defer tpm2.Close (
    keyBytes <- tpm2.NVReadEx TpmDiskKeyHdl
      or_return (λ err, VFmt "NVReadEx failed: %v" [err]) ;;
    ret keyBytes).

(** FetchVaultKey retrieves TPM part of the vault key *)
Definition FetchVaultKey : M bytes :=
  r <- attempt readDiskKey ;;
  match r with
  | Err _ =>
      key <- GetRandom vaultKeyLength
        or_return (λ err, VFmt "GetRandom failed: %w" [err]) ;;
      writeDiskKey key
        or_return (λ err, VFmt "writing legacy Key to TPM failed: %w" [err]) ;;
      ret key
  | Ok key => ret key
  end.

(** PolicyPCRSession prepares TPM2 Auth Policy session, with PCR as the
    policy *)
Definition PolicyPCRSession (pcrSel : PCRSelection) : M (Z * bytes) :=
  session <- tpm2.StartAuthSession
    or_return (λ err, VFmt "StartAuthSession failed: %v" [err]) ;;
  defer_err (λ err,
      if decide (session ≠ tpm2.HandleNull ∧ err ≠ None)
      then ignore (tpm2.FlushContext session) else ret tt) (
    tpm2.PolicyPCR session pcrSel
      or_return (λ err, VFmt "PolicyPCR failed: %v" [err]) ;;
    policy <- tpm2.PolicyGetDigest session
      or_return (λ err, VFmt "PolicyGetDigest failed: %w" [err]) ;;
    ret (session, policy)).

Definition getMappedTpmsPath : M (list string) :=
  paths <- filepath.Glob_syfsTpmDir
    or_return (λ err, VFmt "failed to enumerate TPM(s) in sysfs: %w" [err]) ;;
  if decide (length paths = 0%nat)
  then fail (VFmt "found no TPM in sysfs" [])
  else ret paths.

Definition countMappedTpms : M Z :=
  paths <- getMappedTpmsPath
    or_return (λ err, VFmt "getMappedTpmsPath failed: %w" [err]) ;;
  ret (Z.of_nat (length paths)).

(** [for _, path := range paths] of getMeasurementLogFiles *)
Fixpoint getMeasurementLogFiles_loop (paths enumerated : list string)
  : M (list string) :=
  match paths with
  | [] => ret enumerated
  | path :: paths =>
      let fullPath := filepath.Join path measurementLogFile in
      ex <- fileutils.FileExists fullPath ;;
      if ex : bool then getMeasurementLogFiles_loop paths (enumerated ++ [fullPath])
      else getMeasurementLogFiles_loop paths enumerated
  end.

Definition getMeasurementLogFiles : M (list string) :=
  paths <- getMappedTpmsPath
    or_return (λ err, VFmt "getMappedTpmsPath failed: %w" [err]) ;;
  getMeasurementLogFiles_loop paths [].

(** [for i := ...; i < counted; i++] of backupCopiedMeasurementLogs, with
    [n] iterations left; a [continue] is the recursive call that leaves
    leftToBackup as it is. *)
Fixpoint backupCopiedMeasurementLogs_loop (n : nat) (i leftToBackup : Z) : M Z :=
  match n with
  | O => ret leftToBackup
  | S n =>
      let sealSuccessPath := TpmEvtLogSavePattern MeasurementLogSealSuccess i in
      let unsealFailPath := TpmEvtLogSavePattern MeasurementLogUnsealFail i in
      e1 <- fileutils.FileExists sealSuccessPath ;;
      e2 <- fileutils.FileExists unsealFailPath ;;
      if e1 && e2 then
        let sealSuccessBackupPath := TpmEvtLogCollectPattern sealSuccessPath in
        let unsealFailBackupPath := TpmEvtLogCollectPattern unsealFailPath in
        r1 <- attempt (os.Rename sealSuccessPath sealSuccessBackupPath) ;;
        match r1 with
        | Err _ => backupCopiedMeasurementLogs_loop n (i + 1) leftToBackup
        | Ok _ =>
            r2 <- attempt (os.Rename unsealFailPath unsealFailBackupPath) ;;
            match r2 with
            | Err _ =>
                ignore (os.Rename sealSuccessBackupPath sealSuccessPath) ;;
                backupCopiedMeasurementLogs_loop n (i + 1) leftToBackup
            | Ok _ => backupCopiedMeasurementLogs_loop n (i + 1) (leftToBackup - 1)
            end
        end
      else backupCopiedMeasurementLogs_loop n (i + 1) (leftToBackup - 1)
  end.

Definition backupCopiedMeasurementLogs : M unit :=
  counted <- countMappedTpms
    or_return (λ err, VFmt "countMappedTPMs failed: %w" [err]) ;;
  let leftToBackup := counted in
  leftToBackup <- backupCopiedMeasurementLogs_loop (Z.to_nat counted) 0 leftToBackup ;;
  if decide (leftToBackup ≠ 0) then
    fail (VFmt "failed to backup %d number of previously copied TPM measurement logs"
            [VInt leftToBackup])
  else ret tt.

Fixpoint removeCopiedMeasurementLogs_loop (n : nat) (i : Z) : M unit :=
  match n with
  | O => ret tt
  | S n =>
      let sealSuccessPath := TpmEvtLogSavePattern MeasurementLogSealSuccess i in
      let unsealFailPath := TpmEvtLogSavePattern MeasurementLogUnsealFail i in
      ignore (os.Remove sealSuccessPath) ;;
      ignore (os.Remove unsealFailPath) ;;
      removeCopiedMeasurementLogs_loop n (i + 1)
  end.

Definition removeCopiedMeasurementLogs : M unit :=
  counted <- countMappedTpms
    or_return (λ err, VFmt "countMappedTPMs failed: %w" [err]) ;;
  removeCopiedMeasurementLogs_loop (Z.to_nat counted) 0 ;;
  ret tt.

(** [for i, path := range paths] of copyMeasurementLog *)
Fixpoint copyMeasurementLog_loop (dstPath : string) (paths : list string)
    (i leftToCopy : Z) : M Z :=
  match paths with
  | [] => ret leftToCopy
  | path :: paths =>
      r <- attempt (os.ReadFile path) ;;
      match r with
      | Err _ => copyMeasurementLog_loop dstPath paths (i + 1) leftToCopy
      | Ok measurementLogContent =>
          let copyPath := TpmEvtLogSavePattern dstPath i in
          r <- attempt (fileutils.WriteRename copyPath measurementLogContent) ;;
          match r with
          | Err _ => copyMeasurementLog_loop dstPath paths (i + 1) leftToCopy
          | Ok _ => copyMeasurementLog_loop dstPath paths (i + 1) (leftToCopy - 1)
          end
      end
  end.

Definition copyMeasurementLog (dstPath : string) : M unit :=
  paths <- getMeasurementLogFiles
    or_return (λ err, VFmt "enumSourceEventLogFiles failed: %w" [err]) ;;
  let leftToCopy := Z.of_nat (length paths) in
  leftToCopy <- copyMeasurementLog_loop dstPath paths 0 leftToCopy ;;
  if decide (leftToCopy ≠ 0) then
    fail (VFmt "failed to copy %d number of stored measurement log files"
            [VInt leftToCopy])
  else ret tt.

(** [for _, v := range DiskKeySealingPCRs.PCRs] of readDiskKeySealingPCRs *)
Fixpoint readDiskKeySealingPCRs_loop (l : list Z) (readPCRs : gmap Z bytes)
  : M (gmap Z bytes) :=
  match l with
  | [] => ret readPCRs
  | v :: l =>
      p <- tpm2.ReadPCR v (Hash DiskKeySealingPCRs) ;;
      readDiskKeySealingPCRs_loop l (<[v := p]> readPCRs)
  end.

Definition readDiskKeySealingPCRs : M (gmap Z bytes) :=
  tpm2.OpenTPM TpmDevicePath ;;
  defer tpm2.Close (
    (* tpm2.ReadPCRs returns at most 8 PCRs, so loop over and read one by one *)
    readDiskKeySealingPCRs_loop (PCRs DiskKeySealingPCRs) ∅).

Definition saveDiskKeySealingPCRs (pcrsFile : string) : M unit :=
  tpm2.OpenTPM TpmDevicePath ;;
  defer tpm2.Close (
    readPCRs <- readDiskKeySealingPCRs ;;
    let buff := gob_encode readPCRs in
    fileutils.WriteRename pcrsFile buff).

(** [for i, savedPCR := range savedPCRs] of findMismatchingPCRs, over the
    entries in the order in which the map yields them *)
Fixpoint findMismatchingPCRs_loop (entries : list (Z * bytes))
    (readPCRs : gmap Z bytes) (mismatch : list Z) : M (list Z) :=
  match entries with
  | [] => ret mismatch
  | (i, savedPCR) :: entries =>
      match readPCRs !! i with
      | None =>
          fail (VFmt "saved PCR index %d doesn't exist at run-time PCRs list %v"
                  [VInt i; VInts (PCRs DiskKeySealingPCRs)])
      | Some readPCR =>
          if negb (bytes_Equal readPCR savedPCR)
          then findMismatchingPCRs_loop entries readPCRs (mismatch ++ [i])
          else findMismatchingPCRs_loop entries readPCRs mismatch
      end
  end.

(** The file is opened and decoded from: read, then decoded. *)
Definition findMismatchingPCRs (savedPCRsFile : string) : M (list Z) :=
  frw <- os.ReadFile savedPCRsFile ;;
  match gob_decode frw with
  | None => fail (VErr "gob: decoding failed")
  | Some savedPCRs =>
      readPCRs <- readDiskKeySealingPCRs ;;
      mismatch <- findMismatchingPCRs_loop (map_range savedPCRs) readPCRs [] ;;
      ret (sort_Ints mismatch)
  end.

(** SealDiskKey seals key into TPM2.0, with provided PCRs *)
Definition SealDiskKey (key : bytes) (pcrSel : PCRSelection) : M unit :=
  tpm2.OpenTPM TpmDevicePath ;;
  defer tpm2.Close (
    ignore (tpm2.NVUndefineSpace TpmSealedDiskPubHdl) ;;
    ignore (tpm2.NVUndefineSpace TpmSealedDiskPrivHdl) ;;
    sp <- PolicyPCRSession pcrSel
      or_return (λ err, VFmt "PolicyPCRSession failed: %v" [err]) ;;
    let session := sp.1 in
    let policy := sp.2 in
    (* Don't need the handle, we need only the policy for sealing *)
    tpm2.FlushContext session
      or_return (λ err, VFmt "flushing session handle %v failed: %v" [VInt session; err]) ;;
    pp <- tpm2.Seal TpmSRKHdl policy key
      or_return (λ err, VFmt "sealing the disk key into TPM failed: %w" [err]) ;;
    let priv := pp.1 in
    let public := pp.2 in
    tpm2.NVDefineSpace TpmSealedDiskPrivHdl (uint16 (Z.of_nat (length priv)))
      or_return (λ err, VFmt "NVDefineSpace %v failed: %v" [VInt TpmSealedDiskPrivHdl; err]) ;;
    (* Write the private data *)
    tpm2.NVWrite TpmSealedDiskPrivHdl priv
      or_return (λ err, VFmt "NVWrite %v failed: %v" [VInt TpmSealedDiskPrivHdl; err]) ;;
    tpm2.NVDefineSpace TpmSealedDiskPubHdl (uint16 (Z.of_nat (length public)))
      or_return (λ err, VFmt "NVDefineSpace %v failed: %v" [VInt TpmSealedDiskPubHdl; err]) ;;
    (* Write the public data *)
    tpm2.NVWrite TpmSealedDiskPubHdl public
      or_return (λ err, VFmt "NVWrite %v failed: %v" [VInt TpmSealedDiskPubHdl; err]) ;;
    (* save a snapshot of current PCR values *)
    saveDiskKeySealingPCRs TpmSavedDiskSealingPcrs
      or_return (λ err, VFmt "saving snapshot of sealing PCRs failed: %w" [err]) ;;
    (* Backup the previous pair of logs if any *)
    backupCopiedMeasurementLogs
      or_return (λ err, VFmt "collecting previous snapshot of TPM event log failed: %w" [err]) ;;
    (* fresh start, remove old copies of measurement logs. *)
    removeCopiedMeasurementLogs
      or_return (λ err, VFmt "removing old copies of TPM measurement log failed: %w" [err]) ;;
    (* save a copy of the current measurement log *)
    copyMeasurementLog MeasurementLogSealSuccess
      or_return (λ err, VFmt "copying current TPM measurement log failed: %w" [err]) ;;
    ret tt).

Definition isSealedKeyPresent : M bool :=
  r <- attempt (tpm2.OpenTPM TpmDevicePath) ;;
  match r with
  | Err _ => ret false
  | Ok _ =>
      defer tpm2.Close (
        r <- attempt (tpm2.NVReadEx TpmSealedDiskPrivHdl) ;;
        ret (is_ok r))
  end.

Definition isLegacyKeyPresent : M bool :=
  r <- attempt readDiskKey ;;
  ret (is_ok r).

(** UnsealDiskKey unseals key from TPM2.0 *)
Definition UnsealDiskKey (pcrSel : PCRSelection) : M bytes :=
  tpm2.OpenTPM TpmDevicePath ;;
  defer tpm2.Close (
    priv <- tpm2.NVReadEx TpmSealedDiskPrivHdl
      or_return (λ err, VFmt "NVReadEx %v failed: %v" [VInt TpmSealedDiskPrivHdl; err]) ;;
    pub <- tpm2.NVReadEx TpmSealedDiskPubHdl
      or_return (λ err, VFmt "NVReadEx %v failed: %v" [VInt TpmSealedDiskPubHdl; err]) ;;
    sealedObjHandle <- tpm2.Load TpmSRKHdl pub priv
      or_return (λ err, VFmt "loading the disk key into TPM failed: %w" [err]) ;;
    defer (ignore (tpm2.FlushContext sealedObjHandle)) (
      sp <- PolicyPCRSession pcrSel
        or_return (λ err, VFmt "PolicyPCRSession failed: %v" [err]) ;;
      let session := sp.1 in
      defer (ignore (tpm2.FlushContext session)) (
        r <- attempt (tpm2.UnsealWithSession session sealedObjHandle) ;;
        match r with
        | Err err =>
            (* first try to save a copy of TPM measurement log *)
            r <- attempt (copyMeasurementLog MeasurementLogUnsealFail) ;;
            let evtLogStat :=
              match r with
              | Ok _ => VStr "copied (failed unseal) TPM measurement log"
              | Err errEvtLog =>
                  VFmt "copying (failed unseal) TPM measurement log failed: %v" [errEvtLog]
              end in
            (* try to find out the mismatching PCR index *)
            r <- attempt (findMismatchingPCRs TpmSavedDiskSealingPcrs) ;;
            match r with
            | Err errPcrMiss =>
                fail (VFmt "UnsealWithSession failed: %w, %s, finding mismatching PCR failed: %v"
                        [err; evtLogStat; errPcrMiss])
            | Ok mismatch =>
                fail (VFmt "UnsealWithSession failed: %w, %s, possibly mismatching PCR indexes: %v"
                        [err; evtLogStat; VInts mismatch])
            end
        | Ok key => ret key
        end))).

(** CompareLegacyandSealedKey compares legacy and sealed keys to record
    if we are using a new key for sealed vault *)
Definition CompareLegacyandSealedKey : M SealedKeyType :=
  present <- isSealedKeyPresent ;;
  if negb present then ret SealedKeyTypeUnprotected else
  r <- attempt readDiskKey ;;
  match r with
  | Err _ => ret SealedKeyTypeNew   (* no cloning case *)
  | Ok legacyKey =>
      r <- attempt (UnsealDiskKey DiskKeySealingPCRs) ;;
      match r with
      | Err _ => ret SealedKeyTypeUnknown   (* key is present but can't unseal it *)
      | Ok unsealedKey =>
          if bytes_Equal legacyKey unsealedKey
          then ret SealedKeyTypeReused
          else ret SealedKeyTypeNew
      end
  end.

(** WipeOutStaleSealedKeyIfAny checks and deletes sealed vault key *)
Definition WipeOutStaleSealedKeyIfAny : M unit :=
  tpm2.OpenTPM TpmDevicePath ;;
  defer tpm2.Close (
    ignore (tpm2.NVUndefineSpace TpmSealedDiskPubHdl) ;;
    ignore (tpm2.NVUndefineSpace TpmSealedDiskPrivHdl) ;;
    ret tt).

Definition pcrBankSHA256EnabledHelper : M bool :=
  enabled <- IsTpmEnabled ;;
  if negb enabled then ret false else
  r <- attempt (tpm2.OpenTPM TpmDevicePath) ;;
  match r with
  | Err _ => ret false
  | Ok _ =>
      defer tpm2.Close (
        (* test is by reading PCR index 0 from SHA256 bank *)
        r <- attempt (tpm2.ReadPCR 0 tpm2.AlgSHA256) ;;
        ret (is_ok r))
  end.

(** PCRBankSHA256Enabled checks if SHA256 PCR Bank is enabled *)
Definition PCRBankSHA256Enabled : M bool :=
  st <- gets pcrBank256Status ;;
  (if decide (st = PCRBank256StatusUnknown) then
     h <- pcrBankSHA256EnabledHelper ;;
     if h : bool then modify (set_pcrBank256Status PCRBank256StatusSupported)
     else modify (set_pcrBank256Status PCRBank256StatusNotSupported)
   else ret tt) ;;
  st <- gets pcrBank256Status ;;
  ret (bool_decide (st = PCRBank256StatusSupported)).

(** FetchSealedVaultKey fetches Vault key sealed into TPM2.0 *)
Definition FetchSealedVaultKey : M bytes :=
  enabled <- PCRBankSHA256Enabled ;;
  if negb enabled then FetchVaultKey else
  (* gain some knowledge about existing environment *)
  sealedKeyPresent <- isSealedKeyPresent ;;
  legacyKeyPresent <- isLegacyKeyPresent ;;
  (if negb sealedKeyPresent && negb legacyKeyPresent then
     (* Fresh install, generate a new key *)
     key <- GetRandom vaultKeyLength
       or_return (λ err, VFmt "GetRandom failed: %w" [err]) ;;
     SealDiskKey key DiskKeySealingPCRs
       or_return (λ err, VFmt "sealing the fresh disk key failed: %w" [err])
   else ret tt) ;;
  (if negb sealedKeyPresent && legacyKeyPresent then
     key <- readDiskKey
       or_return (λ err, VFmt "retrieving the legacy disk key from TPM failed: %w" [err]) ;;
     SealDiskKey key DiskKeySealingPCRs
       or_return (λ err, VFmt "sealing the legacy disk key into TPM failed: %w" [err])
   else ret tt) ;;
  (* By this, we have a key sealed into TPM *)
  UnsealDiskKey DiskKeySealingPCRs.

End Code.

(** * The notions in which the properties are stated *)

(** [respects R c]: the state after [c] is related by [R] to the state
    before it, whatever [c] returns. *)
Definition respects {A} (R : relation World) (c : M A) : Prop :=
  ∀ w, R w (c w).2.

(** [same proj]: the part [proj] of the state is unchanged. *)
Definition same {X} (proj : World → X) : relation World :=
  λ w w', proj w' = proj w.

(** The state with the file system left out. *)
Definition no_fs (w : World) : World := set_fs (λ _, ∅) w.

(** [only_files touch]: nothing changed but files whose path is in
    [touch]. *)
Definition only_files (touch : string → Prop) : relation World :=
  λ w w', no_fs w' = no_fs w ∧ ∀ p, ¬ touch p → fs w' !! p = fs w !! p.

Section Notions.
Context `{!Locations, !Gob, !MapRange}.

(** The state after a policy session was opened over a selection whose
    registers all exist. *)
Definition with_session (digest : bytes) (w : World) : World :=
  set_next_handle (next_handle w + 1)
    (set_sessions (<[next_handle w := digest]>) w).

(** [sealing_registers w m]: [m] maps the registers of DiskKeySealingPCRs,
    and no other index, to their values in [w]. *)
Definition sealing_registers (w : World) (m : gmap Z bytes) : Prop :=
  (∀ i, m !! i = if decide (i ∈ PCRs DiskKeySealingPCRs)
                 then pcr_bank w !! (tpm2.AlgSHA256, i) else None)
  ∧ (∀ i, i ∈ PCRs DiskKeySealingPCRs →
          is_Some (pcr_bank w !! (tpm2.AlgSHA256, i))).

(** The paths of the measurement-log copies and of their backups. *)
Definition log_copy (p : string) : Prop :=
  ∃ i, p = TpmEvtLogSavePattern MeasurementLogSealSuccess i
       ∨ p = TpmEvtLogSavePattern MeasurementLogUnsealFail i
       ∨ p = TpmEvtLogCollectPattern (TpmEvtLogSavePattern MeasurementLogSealSuccess i)
       ∨ p = TpmEvtLogCollectPattern (TpmEvtLogSavePattern MeasurementLogUnsealFail i).

(** The snapshot that is saved in [w], if one is. *)
Definition saved_snapshot (w : World) : option (gmap Z bytes) :=
  match fs w !! TpmSavedDiskSealingPcrs with
  | Some (File content) => gob_decode content
  | _ => None
  end.

(** The first part of SealDiskKey, up to the snapshot: the policy of the
    selection, the seal, the two blobs written to NV and the snapshot of
    the registers saved. *)
Definition seal_and_store (key : bytes) (pcrSel : PCRSelection) : M unit :=
  tpm2.OpenTPM TpmDevicePath ;;
  ignore (tpm2.NVUndefineSpace TpmSealedDiskPubHdl) ;;
  ignore (tpm2.NVUndefineSpace TpmSealedDiskPrivHdl) ;;
  sp <- PolicyPCRSession pcrSel
    or_return (λ err, VFmt "PolicyPCRSession failed: %v" [err]) ;;
  let session := sp.1 in
  let policy := sp.2 in
  tpm2.FlushContext session
    or_return (λ err, VFmt "flushing session handle %v failed: %v" [VInt session; err]) ;;
  pp <- tpm2.Seal TpmSRKHdl policy key
    or_return (λ err, VFmt "sealing the disk key into TPM failed: %w" [err]) ;;
  let priv := pp.1 in
  let public := pp.2 in
  tpm2.NVDefineSpace TpmSealedDiskPrivHdl (uint16 (Z.of_nat (length priv)))
    or_return (λ err, VFmt "NVDefineSpace %v failed: %v" [VInt TpmSealedDiskPrivHdl; err]) ;;
  tpm2.NVWrite TpmSealedDiskPrivHdl priv
    or_return (λ err, VFmt "NVWrite %v failed: %v" [VInt TpmSealedDiskPrivHdl; err]) ;;
  tpm2.NVDefineSpace TpmSealedDiskPubHdl (uint16 (Z.of_nat (length public)))
    or_return (λ err, VFmt "NVDefineSpace %v failed: %v" [VInt TpmSealedDiskPubHdl; err]) ;;
  tpm2.NVWrite TpmSealedDiskPubHdl public
    or_return (λ err, VFmt "NVWrite %v failed: %v" [VInt TpmSealedDiskPubHdl; err]) ;;
  saveDiskKeySealingPCRs TpmSavedDiskSealingPcrs
    or_return (λ err, VFmt "saving snapshot of sealing PCRs failed: %w" [err]).

(** The last part of SealDiskKey: the rotation, the removal and the fresh
    copy of the measurement logs. *)
Definition archive_seal_success : M unit :=
  backupCopiedMeasurementLogs
    or_return (λ err, VFmt "collecting previous snapshot of TPM event log failed: %w" [err]) ;;
  removeCopiedMeasurementLogs
    or_return (λ err, VFmt "removing old copies of TPM measurement log failed: %w" [err]) ;;
  copyMeasurementLog MeasurementLogSealSuccess
    or_return (λ err, VFmt "copying current TPM measurement log failed: %w" [err]) ;;
  ret tt.

(** The errors with which SealDiskKey reports a failure of that part. *)
Definition archival_error (e : error) : Prop :=
  ∃ e0, e = VFmt "collecting previous snapshot of TPM event log failed: %w" [e0]
        ∨ e = VFmt "removing old copies of TPM measurement log failed: %w" [e0]
        ∨ e = VFmt "copying current TPM measurement log failed: %w" [e0].

(** [stored key pcrSel w ws]: from [w], the key was sealed under the
    selection, the two blobs were written to their NV indices and the
    snapshot was saved, which gave [ws]. *)
Record stored (key : bytes) (pcrSel : PCRSelection) (w ws : World) : Prop := {
  stored_dev : dev_present w = true;
  stored_srk : TpmSRKHdl ∈ persistent w;
  stored_len : Z.of_nat (length key) ≤ tpm2.MaxSymData;
  stored_nv : ∃ vs,
    tpm2.read_selection pcrSel w = Some vs
    ∧ nv ws = <[TpmSealedDiskPubHdl :=
                  NvEntry (Z.of_nat (length (concat vs))) (Some (concat vs))]>
               (<[TpmSealedDiskPrivHdl :=
                    NvEntry (Z.of_nat (length key)) (Some key)]>
                  (delete TpmSealedDiskPrivHdl
                     (delete TpmSealedDiskPubHdl (nv w))));
  stored_snapshot : ∃ m,
    sealing_registers w m
    ∧ fs ws = <[TpmSavedDiskSealingPcrs := File (gob_encode m)]> (fs w);
  stored_dev' : dev_present ws = dev_present w;
  stored_persistent : persistent ws = persistent w;
  stored_pcr_bank : pcr_bank ws = pcr_bank w;
  stored_objects : objects ws = objects w;
  stored_rng_pool : rng_pool ws = rng_pool w;
  stored_sysfs_tpms : sysfs_tpms ws = sysfs_tpms w;
  stored_status : pcrBank256Status ws = pcrBank256Status w
}.

(** The part of the device that holds what was sealed. *)
Definition core (w : World) : bool * gset Z * gmap Z nv_entry * gmap (Z * Z) bytes :=
  (dev_present w, persistent w, nv w, pcr_bank w).

(** [holds_sealed key pcrSel w]: the NV indices of [w] hold the blobs of
    [key] sealed under the current values of the selection, and the module
    can be asked to load them. *)
Definition holds_sealed (key : bytes) (pcrSel : PCRSelection) (w : World) : Prop :=
  dev_present w = true
  ∧ TpmSRKHdl ∈ persistent w
  ∧ ∃ vs sp sq,
      tpm2.read_selection pcrSel w = Some vs
      ∧ nv w !! TpmSealedDiskPrivHdl = Some (NvEntry sp (Some key))
      ∧ nv w !! TpmSealedDiskPubHdl = Some (NvEntry sq (Some (concat vs))).

(** Whether the private blob of the sealed key can be read from NV. *)
Definition sealed_present (w : World) : bool :=
  dev_present w && is_ok (tpm2.NVReadEx TpmSealedDiskPrivHdl w).1.

(** The state without the package variable pcrBank256Status. *)
Definition no_status (w : World) : World :=
  set_pcrBank256Status PCRBank256StatusUnknown w.

(** What sealing and unsealing would touch. *)
Definition sealed_side (w : World) :=
  (nv w !! TpmSealedDiskPrivHdl, nv w !! TpmSealedDiskPubHdl, objects w,
   sessions w, next_handle w, fs w, pcr_bank w).

(** The snapshot entries whose live digest is not the saved one, in the
    order of the entries. *)
Definition differing (entries : list (Z * bytes)) (readPCRs : gmap Z bytes) : list Z :=
  (filter (λ e, readPCRs !! e.1 ≠ Some e.2) entries).*1.

(** What the rotation is to do for the device index [i]: nothing when one
    of the two copies is missing; otherwise both are renamed to their
    backup names, and when the second rename fails after the first went
    through, the first one is undone and the index has failed. The result
    tells whether the index was handled. *)
Definition rotate_index (i : Z) (w : World) : bool * World :=
  let sealSuccessPath := TpmEvtLogSavePattern MeasurementLogSealSuccess i in
  let unsealFailPath := TpmEvtLogSavePattern MeasurementLogUnsealFail i in
  if bool_decide (is_Some (fs w !! sealSuccessPath) ∧ is_Some (fs w !! unsealFailPath))
  then
    match os.Rename sealSuccessPath (TpmEvtLogCollectPattern sealSuccessPath) w with
    | (Err _, w1) => (false, w1)
    | (Ok _, w1) =>
        match os.Rename unsealFailPath (TpmEvtLogCollectPattern unsealFailPath) w1 with
        | (Err _, w2) =>
            (false, (os.Rename (TpmEvtLogCollectPattern sealSuccessPath) sealSuccessPath w2).2)
        | (Ok _, w2) => (true, w2)
        end
    end
  else (true, w).

(** The indices [i], [i + 1], ... ([n] of them) that fail, in turn, and
    the state they leave. *)
Fixpoint rotate_all (n : nat) (i : Z) (w : World) : list Z * World :=
  match n with
  | O => ([], w)
  | S n =>
      let r := rotate_index i w in
      let rest := rotate_all n (i + 1) r.2 in
      (if r.1 then rest.1 else i :: rest.1, rest.2)
  end.

(** What SealDiskKey has no business with: the legacy key, the registers,
    the persistent keys, the RNG and the package variable. *)
Definition beside_seal (w : World) :=
  (nv w !! TpmDiskKeyHdl, pcr_bank w, persistent w, dev_present w, rng_pool w,
   sysfs_tpms w, pcrBank256Status w).

(** What UnsealDiskKey has no business with: all of NV, the registers, the
    persistent keys, the RNG and the package variable. *)
Definition beside_unseal (w : World) :=
  (nv w, pcr_bank w, persistent w, dev_present w, rng_pool w, sysfs_tpms w,
   pcrBank256Status w).

(** The state after the session [h + 1] and then the object [h] were
    flushed. *)
Definition released (h : Z) (w : World) : World :=
  (tpm2.FlushContext h (tpm2.FlushContext (h + 1) w).2).2.

(** The state after an object was loaded at the next handle. *)
Definition with_object (pub priv : bytes) (w : World) : World :=
  set_next_handle (next_handle w + 1)
    (set_objects (<[next_handle w := SealedObj pub priv]>) w).

(** Whether the log at [path] can be copied to the copy number [i] of
    [dstPath]: it is a file, and no directory is in the place of the
    copy. *)
Definition copyable (dstPath : string) (w : World) (i : Z) (path : string) : bool :=
  match fs w !! path, fs w !! TpmEvtLogSavePattern dstPath i with
  | Some (File _), Some Dir => false
  | Some (File _), _ => true
  | _, _ => false
  end.

(** How many of the logs [paths], numbered from [i], cannot be copied. *)
Fixpoint not_copyable (dstPath : string) (w : World) (i : Z) (paths : list string) : Z :=
  match paths with
  | [] => 0
  | path :: paths =>
      (if copyable dstPath w i path then 0 else 1)
      + not_copyable dstPath w (i + 1) paths
  end.

(** The number that bytes spell, the most significant byte first. *)
Definition big_endian (l : bytes) : Z :=
  foldl (λ acc b, acc * 256 + Z.of_N (Byte.to_N b)) 0 l.

(** A string without a dot. *)
Fixpoint dotless (s : string) : bool :=
  match s with
  | EmptyString => true
  | String c s => negb (bool_decide (c = "."%char)) && dotless s
  end.

End Notions.

(** * A concrete device, to run the code on *)

(** A binary encoding of the snapshot map, one byte per bit of the
    standard encoding of its list of entries. *)
Fixpoint pos_to_bytes (p : positive) : bytes :=
  match p with
  | xH => []
  | xO q => x00 :: pos_to_bytes q
  | xI q => x01 :: pos_to_bytes q
  end.

Fixpoint bytes_to_pos (l : bytes) : option positive :=
  match l with
  | [] => Some xH
  | x00 :: l => xO <$> bytes_to_pos l
  | x01 :: l => xI <$> bytes_to_pos l
  | _ => None
  end.

#[local] Program Instance bit_gob : Gob := {|
  gob_encode m := pos_to_bytes (encode (map_to_list m));
  gob_decode b := p ← bytes_to_pos b; l ← decode p; Some (list_to_map l)
|}.
Next Obligation.
  intros m. simpl.
  assert (Hbits : ∀ p, bytes_to_pos (pos_to_bytes p) = Some p)
    by (intros p; induction p as [p IH|p IH|]; simpl; by rewrite ?IH).
  rewrite Hbits. simpl. rewrite decode_encode. simpl.
  by rewrite list_to_map_to_list.
Qed.

#[local] Program Instance ordered_range : MapRange := {|
  map_range m := map_to_list m
|}.
Next Obligation. done. Qed.

#[local] Instance eve_locations : Locations := {|
  IdentityDirname := "/config";
  PersistStatusDir := "/persist/status";
  DeviceCertName := "/config/device.cert.pem";
  DeviceKeyName := "/config/device.key.pem"
|}.

(** Sixteen registers in the SHA256 bank, one byte each to keep them
    short, register [i] holding the byte [i]. *)
Definition example_pcrs : gmap (Z * Z) bytes :=
  list_to_map
    (map (λ i, ((tpm2.AlgSHA256, i), [default x00 (Byte.of_N (Z.to_N i))]))
       (seqZ 0 16)).

(** A device on its first boot: a module with its storage root key, no key
    in NV, the device certificate in place, one module in sysfs with its
    measurement log, and a credential file of nine bytes. *)
Definition fresh_device : World := {|
  dev_present := true;
  persistent := {[ TpmSRKHdl ]};
  nv := ∅;
  pcr_bank := example_pcrs;
  objects := ∅;
  sessions := ∅;
  next_handle := 0x80000000;
  rng_pool := replicate 64 x07;
  fs := {[ "/config/device.cert.pem" := File [];
           "/config/tpm_credential" :=
             File [x31; x32; x33; x34; x35; x36; x37; x38; x39];
           "/hostfs/sys/kernel/security/tpm0/binary_bios_measurements" :=
             File [x01; x02] ]};
  sysfs_tpms := ["/hostfs/sys/kernel/security/tpm0"];
  pcrBank256Status := PCRBank256StatusUnknown
|}.

Definition k32 : bytes := replicate 32 x11.

(** The same device with the legacy key [k32] in NV. *)
Definition legacy_device : World :=
  set_nv (<[TpmDiskKeyHdl := NvEntry 32 (Some k32)]>) fresh_device.

(** A device whose module has no SHA256 bank. *)
Definition sha1_device : World :=
  mkWorld true {[ TpmSRKHdl ]} ∅ ∅ ∅ ∅ 0x80000000 (replicate 64 x07)
    (fs fresh_device) (sysfs_tpms fresh_device) PCRBank256StatusUnknown.

(** A device on which sysfs shows no module. *)
Definition no_sysfs_device : World :=
  mkWorld true {[ TpmSRKHdl ]} ∅ example_pcrs ∅ ∅ 0x80000000 (replicate 64 x07)
    (fs fresh_device) [] PCRBank256StatusUnknown.

(** The device after [k32] was sealed. *)
Definition sealed_device : World :=
  (SealDiskKey k32 DiskKeySealingPCRs fresh_device).2.

(** The sealed device after register 7 was extended. *)
Definition tampered_device : World :=
  mkWorld true (persistent sealed_device) (nv sealed_device)
    (<[(tpm2.AlgSHA256, 7) := [xff]]> (pcr_bank sealed_device))
    (objects sealed_device) (sessions sealed_device) (next_handle sealed_device)
    (rng_pool sealed_device) (fs sealed_device) (sysfs_tpms sealed_device)
    (pcrBank256Status sealed_device).

(** A device with both copies of the measurement log of module 0, and a
    directory in the place of the backup of the second. *)
Definition rotation_device : World :=
  set_fs (λ m,
    <["/persist/status/tpm_measurement_seal_success-tpm0" := File [x01]]>
      (<["/persist/status/tpm_measurement_unseal_fail-tpm0" := File [x02]]>
         (<["/persist/status/tpm_measurement_unseal_fail-tpm0-backup" := Dir]> m)))
    fresh_device.

(** * Properties *)

(** ** Running a computation, step by step *)

Lemma bind_run {A B} (c : M A) (k : A → M B) w :
  bind c k w = match c w with
               | (Ok a, w') => k a w'
               | (Err e, w') => (Err e, w')
               end.
Proof. reflexivity. Qed.

Lemma bind_ok {A B} (c : M A) (k : A → M B) w a w' :
  c w = (Ok a, w') → bind c k w = k a w'.
Proof. intros Hc. by rewrite bind_run, Hc. Qed.

Lemma bind_err {A B} (c : M A) (k : A → M B) w e w' :
  c w = (Err e, w') → bind c k w = (Err e, w').
Proof. intros Hc. by rewrite bind_run, Hc. Qed.

Lemma bind_ok_inv {A B} (c : M A) (k : A → M B) w b w' :
  bind c k w = (Ok b, w') → ∃ a w1, c w = (Ok a, w1) ∧ k a w1 = (Ok b, w').
Proof.
  rewrite bind_run. destruct (c w) as [[a|e] w1]; [eauto | discriminate].
Qed.

Lemma bind_inv {A B} (c : M A) (k : A → M B) w r w' :
  bind c k w = (r, w') →
  (∃ a w1, c w = (Ok a, w1) ∧ k a w1 = (r, w')) ∨
  (∃ e, c w = (Err e, w') ∧ r = Err e).
Proof.
  rewrite bind_run. destruct (c w) as [[a|e] w1]; [eauto | ].
  intros [= <- <-]. eauto.
Qed.

Lemma on_err_ok {A} (c : M A) f w a w' :
  c w = (Ok a, w') → on_err c f w = (Ok a, w').
Proof. unfold on_err. by intros ->. Qed.

Lemma on_err_err {A} (c : M A) f w e w' :
  c w = (Err e, w') → on_err c f w = (Err (f e), w').
Proof. unfold on_err. by intros ->. Qed.

Lemma on_err_ok_inv {A} (c : M A) f w a w' :
  on_err c f w = (Ok a, w') → c w = (Ok a, w').
Proof. unfold on_err. destruct (c w) as [[?|?] ?]; [done | discriminate]. Qed.

Lemma on_err_inv {A} (c : M A) f w r w' :
  on_err c f w = (r, w') →
  (∃ a, c w = (Ok a, w') ∧ r = Ok a) ∨ (∃ e, c w = (Err e, w') ∧ r = Err (f e)).
Proof.
  unfold on_err. destruct (c w) as [[a|e] w1]; intros [= <- <-]; eauto.
Qed.

Lemma attempt_run {A} (c : M A) w : attempt c w = (Ok (c w).1, (c w).2).
Proof. reflexivity. Qed.

Lemma ignore_run {A} (c : M A) w : ignore c w = (Ok tt, (c w).2).
Proof. reflexivity. Qed.

Lemma defer_run {A} (cleanup : M unit) (body : M A) w :
  defer cleanup body w = ((body w).1, (cleanup (body w).2).2).
Proof. unfold defer. by destruct (body w). Qed.

Lemma defer_Close {A} (body : M A) w : defer tpm2.Close body w = body w.
Proof. rewrite defer_run. by destruct (body w). Qed.

Lemma OpenTPM_ok path w : dev_present w = true → tpm2.OpenTPM path w = (Ok tt, w).
Proof. unfold tpm2.OpenTPM. by intros ->. Qed.

Lemma OpenTPM_ok_inv path w u w' :
  tpm2.OpenTPM path w = (Ok u, w') → dev_present w = true ∧ w' = w.
Proof. unfold tpm2.OpenTPM. destruct (dev_present w); by intros [= <-]. Qed.

Lemma OpenTPM_state path w : (tpm2.OpenTPM path w).2 = w.
Proof. unfold tpm2.OpenTPM. by destruct (dev_present w). Qed.

(** ** What a computation leaves alone *)

#[global] Instance same_preorder {X} (proj : World → X) : PreOrder (same proj).
Proof. split; [by intros w | intros w1 w2 w3; unfold same; congruence]. Qed.

#[global] Instance only_files_preorder touch : PreOrder (only_files touch).
Proof.
  split; [by intros w|]. intros w1 w2 w3 [Ha Hb] [Hc Hd]. split; [congruence|].
  intros p Hp. by rewrite Hd, Hb.
Qed.

Section respects.
Context (R : relation World) `{!PreOrder R}.

Lemma respects_ret {A} (a : A) : respects R (ret a).
Proof. by intros w. Qed.

Lemma respects_fail {A} e : respects R (@fail A e).
Proof. by intros w. Qed.

Lemma respects_gets {A} (f : World → A) : respects R (gets f).
Proof. by intros w. Qed.

Lemma respects_bind {A B} (c : M A) (k : A → M B) :
  respects R c → (∀ a, respects R (k a)) → respects R (bind c k).
Proof.
  intros Hc Hk w. rewrite bind_run. specialize (Hc w).
  destruct (c w) as [[a|e] w1]; [|done]. etrans; [exact Hc|apply Hk].
Qed.

Lemma respects_on_err {A} (c : M A) f : respects R c → respects R (on_err c f).
Proof. intros Hc w. specialize (Hc w). unfold on_err. by destruct (c w) as [[?|?] ?]. Qed.

Lemma respects_ignore {A} (c : M A) : respects R c → respects R (ignore c).
Proof. intros Hc w. apply Hc. Qed.

Lemma respects_attempt {A} (c : M A) : respects R c → respects R (attempt c).
Proof. intros Hc w. apply Hc. Qed.

Lemma respects_defer {A} cleanup (body : M A) :
  respects R cleanup → respects R body → respects R (defer cleanup body).
Proof. intros Hc Hb w. rewrite defer_run. etrans; [apply Hb|apply Hc]. Qed.

Lemma respects_defer_err {A} cleanup (body : M A) :
  (∀ e, respects R (cleanup e)) → respects R body → respects R (defer_err cleanup body).
Proof.
  intros Hc Hb w. unfold defer_err. specialize (Hb w).
  destruct (body w) as [r w1]. etrans; [exact Hb|apply Hc].
Qed.

Lemma respects_Close : respects R tpm2.Close.
Proof. by intros w. Qed.

Lemma respects_OpenTPM path : respects R (tpm2.OpenTPM path).
Proof. intros w. by rewrite OpenTPM_state. Qed.

Lemma respects_NVReadEx index : respects R (tpm2.NVReadEx index).
Proof. intros w. unfold tpm2.NVReadEx. by repeat case_match. Qed.

Lemma respects_ReadPCR pcr alg : respects R (tpm2.ReadPCR pcr alg).
Proof. intros w. unfold tpm2.ReadPCR. by repeat case_match. Qed.

Lemma respects_PolicyGetDigest s : respects R (tpm2.PolicyGetDigest s).
Proof. intros w. unfold tpm2.PolicyGetDigest. by repeat case_match. Qed.

Lemma respects_Seal parent policy sensitive : respects R (tpm2.Seal parent policy sensitive).
Proof. intros w. unfold tpm2.Seal. by repeat case_match. Qed.

Lemma respects_UnsealWithSession s i : respects R (tpm2.UnsealWithSession s i).
Proof. intros w. unfold tpm2.UnsealWithSession. by repeat case_match. Qed.

Lemma respects_ReadFile name : respects R (os.ReadFile name).
Proof. intros w. unfold os.ReadFile. by repeat case_match. Qed.

Lemma respects_FileExists name : respects R (fileutils.FileExists name).
Proof. by intros w. Qed.

Lemma respects_Glob : respects R filepath.Glob_syfsTpmDir.
Proof. by intros w. Qed.

End respects.

(** One step of a proof that a computation respects a relation: through
    the combinators, and by cases on what was returned so far. *)
(** Applies a lemma of the section above, and finds the preorder. *)
Ltac tc_apply lem := apply lem; try (solve [apply _]).

Ltac respects_step :=
  lazymatch goal with
  | |- respects _ (bind _ _) => tc_apply respects_bind; [|intros ?]
  | |- respects _ (on_err _ _) => tc_apply respects_on_err
  | |- respects _ (ignore _) => tc_apply respects_ignore
  | |- respects _ (attempt _) => tc_apply respects_attempt
  | |- respects _ (defer _ _) => tc_apply respects_defer
  | |- respects _ (defer_err _ _) => tc_apply respects_defer_err; [intros ?|]
  | |- respects _ (ret _) => tc_apply respects_ret
  | |- respects _ (fail _) => tc_apply respects_fail
  | |- respects _ (gets _) => tc_apply respects_gets
  | |- respects _ tpm2.Close => tc_apply respects_Close
  | |- respects _ (tpm2.OpenTPM _) => tc_apply respects_OpenTPM
  | |- respects _ (tpm2.NVReadEx _) => tc_apply respects_NVReadEx
  | |- respects _ (tpm2.ReadPCR _ _) => tc_apply respects_ReadPCR
  | |- respects _ (tpm2.PolicyGetDigest _) => tc_apply respects_PolicyGetDigest
  | |- respects _ (tpm2.Seal _ _ _) => tc_apply respects_Seal
  | |- respects _ (tpm2.UnsealWithSession _ _) => tc_apply respects_UnsealWithSession
  | |- respects _ (os.ReadFile _) => tc_apply respects_ReadFile
  | |- respects _ (fileutils.FileExists _) => tc_apply respects_FileExists
  | |- respects _ filepath.Glob_syfsTpmDir => tc_apply respects_Glob
  | |- respects _ (if ?x then _ else _) => destruct x
  | |- respects _ (match ?x with _ => _ end) => destruct x
  | |- respects _ (let _ := _ in _) => cbv zeta
  end.

Ltac respects_tac := repeat respects_step; eauto with respects.

Create HintDb respects discriminated.

Lemma string_app_assoc (s1 s2 s3 : string) :
  (s1 +:+ s2) +:+ s3 = s1 +:+ (s2 +:+ s3).
Proof.
  induction s1 as [|c s1 IH]; [done|].
  change (String c ((s1 +:+ s2) +:+ s3) = String c (s1 +:+ s2 +:+ s3)).
  by f_equal.
Qed.

Section Properties.
Context `{Hloc : !Locations, Hgob : !Gob, Hrange : !MapRange}.

(** ** What the commands do *)

Lemma set_nv_id w : set_nv (λ m, m) w = w.
Proof. by destruct w. Qed.

Lemma NVUndefineSpace_state index w :
  (tpm2.NVUndefineSpace index w).2 = set_nv (delete index) w.
Proof.
  unfold tpm2.NVUndefineSpace. destruct (nv w !! index) eqn:Hi; [done|].
  cbn [snd]. destruct w; unfold set_nv; cbn in *. f_equal.
  by rewrite delete_id.
Qed.

Lemma NVDefineSpace_ok index size w :
  nv w !! index = None →
  tpm2.NVDefineSpace index size w
  = (Ok tt, set_nv (<[index := NvEntry size None]>) w).
Proof. unfold tpm2.NVDefineSpace. by intros ->. Qed.

Lemma NVWrite_fresh index data w :
  nv w !! index = Some (NvEntry (uint16 (Z.of_nat (length data))) None) →
  (Z.of_nat (length data) < 65536 ∧
   tpm2.NVWrite index data w
   = (Ok tt, set_nv (<[index := NvEntry (Z.of_nat (length data)) (Some data)]>) w))
  ∨ (65536 ≤ Z.of_nat (length data) ∧
     tpm2.NVWrite index data w = (Err (VErr "TPM_RC_NV_RANGE"), w)).
Proof.
  intros Hi. unfold tpm2.NVWrite. rewrite Hi. cbn [nv_size nv_data default].
  unfold uint16. destruct (decide (Z.of_nat (length data) < 65536)) as [Hlt|Hge].
  - left. split; [done|]. rewrite Z.mod_small by lia.
    rewrite decide_True by lia. do 3 f_equal.
    rewrite drop_ge by (rewrite length_replicate; lia). by rewrite app_nil_r.
  - right. split; [lia|]. rewrite decide_False; [done|].
    pose proof (Z.mod_pos_bound (Z.of_nat (length data)) 65536). lia.
Qed.

Lemma NVReadEx_ok index w size data :
  nv w !! index = Some (NvEntry size (Some data)) →
  tpm2.NVReadEx index w = (Ok data, w).
Proof. unfold tpm2.NVReadEx. by intros ->. Qed.

Lemma NVReadEx_ok_inv index w data w' :
  tpm2.NVReadEx index w = (Ok data, w') →
  w' = w ∧ ∃ size, nv w !! index = Some (NvEntry size (Some data)).
Proof.
  unfold tpm2.NVReadEx. destruct (nv w !! index) as [[size [d|]]|]; [|done..].
  intros [= <- <-]. eauto.
Qed.

Lemma NVReadEx_state index w : (tpm2.NVReadEx index w).2 = w.
Proof. unfold tpm2.NVReadEx. by repeat case_match. Qed.

Lemma PolicyPCRSession_ok pcrSel w vs :
  tpm2.read_selection pcrSel w = Some vs →
  PolicyPCRSession pcrSel w
  = (Ok (next_handle w, concat vs), with_session (concat vs) w).
Proof.
  intros Hsel. unfold PolicyPCRSession.
  rewrite bind_run. unfold on_err at 1. cbn [tpm2.StartAuthSession].
  unfold defer_err. rewrite bind_run. unfold on_err at 1.
  unfold tpm2.PolicyPCR. cbn [sessions set_next_handle set_sessions].
  rewrite lookup_insert_eq.
  change (tpm2.read_selection pcrSel _) with (tpm2.read_selection pcrSel w).
  rewrite Hsel. rewrite bind_run. unfold on_err at 1.
  unfold tpm2.PolicyGetDigest. cbn [sessions set_sessions]. rewrite lookup_insert_eq.
  cbn [ret app]. rewrite decide_False by (intros [_ ?]; done).
  cbn [ret snd]. unfold with_session, set_sessions, set_next_handle. cbn.
  by rewrite insert_insert_eq.
Qed.

Lemma PolicyPCRSession_err pcrSel w :
  tpm2.read_selection pcrSel w = None →
  (PolicyPCRSession pcrSel w).1
  = Err (VFmt "PolicyPCR failed: %v" [VErr "TPM_RC_VALUE"]).
Proof.
  intros Hsel. unfold PolicyPCRSession.
  rewrite bind_run. unfold on_err at 1. cbn [tpm2.StartAuthSession].
  unfold defer_err. rewrite bind_run. unfold on_err at 1.
  unfold tpm2.PolicyPCR. cbn [sessions set_next_handle set_sessions].
  rewrite lookup_insert_eq.
  change (tpm2.read_selection pcrSel _) with (tpm2.read_selection pcrSel w).
  by rewrite Hsel.
Qed.

Lemma FlushContext_session handle w d :
  sessions w !! handle = Some d →
  tpm2.FlushContext handle w = (Ok tt, set_sessions (delete handle) w).
Proof. unfold tpm2.FlushContext. by intros ->. Qed.

Lemma Seal_run parent policy sensitive w :
  tpm2.Seal parent policy sensitive w
  = (if decide (parent ∈ persistent w) then
       if decide (Z.of_nat (length sensitive) ≤ tpm2.MaxSymData)
       then Ok (sensitive, policy) else Err (VErr "TPM_RC_SIZE")
     else Err (VErr "TPM_RC_HANDLE"), w).
Proof. unfold tpm2.Seal. by repeat case_decide. Qed.

(** *** The snapshot of the sealing registers *)

Lemma readDiskKeySealingPCRs_loop_state l readPCRs w :
  (readDiskKeySealingPCRs_loop l readPCRs w).2 = w.
Proof.
  revert readPCRs. induction l as [|v l IH]; intros readPCRs; [done|].
  cbn [readDiskKeySealingPCRs_loop]. rewrite bind_run. unfold tpm2.ReadPCR.
  destruct (pcr_bank w !! _); [apply IH|done].
Qed.

Lemma readDiskKeySealingPCRs_loop_ok_inv l readPCRs w m w' :
  readDiskKeySealingPCRs_loop l readPCRs w = (Ok m, w') →
  ∀ i, m !! i = if decide (i ∈ l) then pcr_bank w !! (Hash DiskKeySealingPCRs, i)
                else readPCRs !! i.
Proof.
  revert readPCRs. induction l as [|v l IH]; intros readPCRs.
  - intros [= <- <-] i. by rewrite decide_False by apply not_elem_of_nil.
  - cbn [readDiskKeySealingPCRs_loop]. rewrite bind_run. unfold tpm2.ReadPCR.
    destruct (pcr_bank w !! _) as [p|] eqn:Hp; [|done].
    intros Hloop i. rewrite (IH _ Hloop i).
    destruct (decide (i ∈ l)) as [Hin|Hnin].
    + by rewrite decide_True by by right.
    + destruct (decide (i = v)) as [->|Hne].
      * rewrite decide_True by by left. by rewrite lookup_insert_eq.
      * rewrite decide_False by (intros [?|?]%elem_of_cons; done).
        by rewrite lookup_insert_ne.
Qed.

Lemma readDiskKeySealingPCRs_loop_ok l readPCRs w :
  (∀ i, i ∈ l → is_Some (pcr_bank w !! (Hash DiskKeySealingPCRs, i))) →
  ∃ m, readDiskKeySealingPCRs_loop l readPCRs w = (Ok m, w).
Proof.
  revert readPCRs. induction l as [|v l IH]; intros readPCRs Hall; [by eexists|].
  cbn [readDiskKeySealingPCRs_loop]. rewrite bind_run. unfold tpm2.ReadPCR.
  destruct (Hall v) as [p ->]; [by left|]. apply IH.
  intros i Hi. apply Hall. by right.
Qed.

Lemma readDiskKeySealingPCRs_state w : (readDiskKeySealingPCRs w).2 = w.
Proof.
  unfold readDiskKeySealingPCRs. rewrite bind_run. unfold tpm2.OpenTPM.
  destruct (dev_present w); [|done]. rewrite defer_Close.
  apply readDiskKeySealingPCRs_loop_state.
Qed.

Lemma readDiskKeySealingPCRs_loop_ok_read l readPCRs w m w' :
  readDiskKeySealingPCRs_loop l readPCRs w = (Ok m, w') →
  ∀ i, i ∈ l → is_Some (pcr_bank w !! (Hash DiskKeySealingPCRs, i)).
Proof.
  revert readPCRs. induction l as [|v l IH]; intros readPCRs.
  - by intros _ i ?%elem_of_nil.
  - cbn [readDiskKeySealingPCRs_loop]. rewrite bind_run. unfold tpm2.ReadPCR.
    destruct (pcr_bank w !! _) as [p|] eqn:Hp; [|done].
    intros Hloop i [->|Hi]%elem_of_cons; [by eexists|]. by eapply IH.
Qed.

Lemma readDiskKeySealingPCRs_ok_inv w m w' :
  readDiskKeySealingPCRs w = (Ok m, w') →
  w' = w ∧ dev_present w = true ∧ sealing_registers w m.
Proof.
  intros Hrun. split.
  { by rewrite <-(readDiskKeySealingPCRs_state w), Hrun. }
  unfold readDiskKeySealingPCRs in Hrun.
  apply bind_ok_inv in Hrun as ([] & w1 & [Hdev ->]%OpenTPM_ok_inv & Hrun).
  rewrite defer_Close in Hrun. split; [done|]. split.
  - intros i. rewrite (readDiskKeySealingPCRs_loop_ok_inv _ _ _ _ _ Hrun i).
    by rewrite lookup_empty.
  - by eapply readDiskKeySealingPCRs_loop_ok_read.
Qed.

Lemma readDiskKeySealingPCRs_ok w :
  dev_present w = true →
  (∀ i, i ∈ PCRs DiskKeySealingPCRs → is_Some (pcr_bank w !! (tpm2.AlgSHA256, i))) →
  ∃ m, readDiskKeySealingPCRs w = (Ok m, w).
Proof.
  intros Hdev Hall. unfold readDiskKeySealingPCRs.
  rewrite bind_run, (OpenTPM_ok _ _ Hdev), defer_Close.
  by apply readDiskKeySealingPCRs_loop_ok.
Qed.

Lemma saveDiskKeySealingPCRs_ok_inv pcrsFile w w' :
  saveDiskKeySealingPCRs pcrsFile w = (Ok tt, w') →
  ∃ m, readDiskKeySealingPCRs w = (Ok m, w)
       ∧ w' = set_fs (<[pcrsFile := File (gob_encode m)]>) w.
Proof.
  unfold saveDiskKeySealingPCRs. intros Hrun.
  apply bind_ok_inv in Hrun as ([] & w1 & [_ ->]%OpenTPM_ok_inv & Hrun).
  rewrite defer_Close in Hrun.
  apply bind_ok_inv in Hrun as (m & w1 & Hread & Hrun).
  pose proof (readDiskKeySealingPCRs_ok_inv _ _ _ Hread) as [-> _].
  exists m. split; [done|]. unfold fileutils.WriteRename in Hrun.
  destruct (fs w !! pcrsFile) as [[|]|]; by inversion Hrun.
Qed.

(** *** The archivist touches nothing but its own files *)

Lemma only_files_set_fs (touch : string → Prop) f w :
  (∀ p, ¬ touch p → f (fs w) !! p = fs w !! p) →
  only_files touch w (set_fs f w).
Proof. intros Hf. split; [done|]. intros p Hp. cbn. by apply Hf. Qed.

Lemma respects_Rename (touch : string → Prop) a b :
  touch a → touch b → respects (only_files touch) (os.Rename a b).
Proof.
  intros Ha Hb w. unfold os.Rename.
  repeat case_match; try reflexivity; cbn [snd]; apply only_files_set_fs;
    intros p Hp; (rewrite lookup_insert_ne by congruence);
    by rewrite lookup_delete_ne by congruence.
Qed.

Lemma respects_Remove (touch : string → Prop) a :
  touch a → respects (only_files touch) (os.Remove a).
Proof.
  intros Ha w. unfold os.Remove.
  repeat case_match; try reflexivity; cbn [snd]; apply only_files_set_fs;
    intros p Hp; by rewrite lookup_delete_ne by congruence.
Qed.

Lemma respects_WriteRename (touch : string → Prop) a b :
  touch a → respects (only_files touch) (fileutils.WriteRename a b).
Proof.
  intros Ha w. unfold fileutils.WriteRename.
  repeat case_match; try reflexivity; cbn [snd]; apply only_files_set_fs;
    intros p Hp; by rewrite lookup_insert_ne by congruence.
Qed.

Lemma log_copy_seal_success i :
  log_copy (TpmEvtLogSavePattern MeasurementLogSealSuccess i).
Proof. exists i. auto. Qed.

Lemma log_copy_unseal_fail i :
  log_copy (TpmEvtLogSavePattern MeasurementLogUnsealFail i).
Proof. exists i. auto. Qed.

Lemma log_copy_seal_success_backup i :
  log_copy (TpmEvtLogCollectPattern (TpmEvtLogSavePattern MeasurementLogSealSuccess i)).
Proof. exists i. auto. Qed.

Lemma log_copy_unseal_fail_backup i :
  log_copy (TpmEvtLogCollectPattern (TpmEvtLogSavePattern MeasurementLogUnsealFail i)).
Proof. exists i. auto. Qed.

#[local] Hint Resolve respects_Rename respects_Remove respects_WriteRename
  log_copy_seal_success log_copy_unseal_fail log_copy_seal_success_backup
  log_copy_unseal_fail_backup : respects.

Lemma respects_getMappedTpmsPath R `{!PreOrder R} : respects R getMappedTpmsPath.
Proof. unfold getMappedTpmsPath. respects_tac. Qed.

Lemma respects_countMappedTpms R `{!PreOrder R} : respects R countMappedTpms.
Proof. unfold countMappedTpms. respects_tac. apply respects_getMappedTpmsPath, _. Qed.

Lemma respects_getMeasurementLogFiles_loop R `{!PreOrder R} paths enumerated :
  respects R (getMeasurementLogFiles_loop paths enumerated).
Proof.
  revert enumerated. induction paths as [|path paths IH]; intros enumerated;
    cbn [getMeasurementLogFiles_loop]; respects_tac.
Qed.

Lemma respects_getMeasurementLogFiles R `{!PreOrder R} : respects R getMeasurementLogFiles.
Proof.
  unfold getMeasurementLogFiles. respects_tac.
  - by apply respects_getMappedTpmsPath.
  - by apply respects_getMeasurementLogFiles_loop.
Qed.

Lemma respects_backupCopiedMeasurementLogs_loop n i leftToBackup :
  respects (only_files log_copy) (backupCopiedMeasurementLogs_loop n i leftToBackup).
Proof.
  revert i leftToBackup. induction n as [|n IH]; intros i leftToBackup;
    cbn [backupCopiedMeasurementLogs_loop]; respects_tac.
Qed.

Lemma respects_backupCopiedMeasurementLogs :
  respects (only_files log_copy) backupCopiedMeasurementLogs.
Proof.
  unfold backupCopiedMeasurementLogs. respects_tac.
  - apply respects_countMappedTpms, _.
  - apply respects_backupCopiedMeasurementLogs_loop.
Qed.

Lemma respects_removeCopiedMeasurementLogs_loop n i :
  respects (only_files log_copy) (removeCopiedMeasurementLogs_loop n i).
Proof.
  revert i. induction n as [|n IH]; intros i;
    cbn [removeCopiedMeasurementLogs_loop]; respects_tac.
Qed.

Lemma respects_removeCopiedMeasurementLogs :
  respects (only_files log_copy) removeCopiedMeasurementLogs.
Proof.
  unfold removeCopiedMeasurementLogs. respects_tac.
  - apply respects_countMappedTpms, _.
  - apply respects_removeCopiedMeasurementLogs_loop.
Qed.

Lemma respects_copyMeasurementLog_loop dstPath paths i leftToCopy :
  (∀ j, log_copy (TpmEvtLogSavePattern dstPath j)) →
  respects (only_files log_copy) (copyMeasurementLog_loop dstPath paths i leftToCopy).
Proof.
  intros Hdst. revert i leftToCopy. induction paths as [|path paths IH];
    intros i leftToCopy; cbn [copyMeasurementLog_loop]; respects_tac.
Qed.

Lemma respects_copyMeasurementLog dstPath :
  (∀ j, log_copy (TpmEvtLogSavePattern dstPath j)) →
  respects (only_files log_copy) (copyMeasurementLog dstPath).
Proof.
  intros Hdst. unfold copyMeasurementLog. respects_tac.
  - apply respects_getMeasurementLogFiles, _.
  - by apply respects_copyMeasurementLog_loop.
Qed.

Lemma snapshot_not_log_copy : ¬ log_copy TpmSavedDiskSealingPcrs.
Proof.
  unfold log_copy, TpmSavedDiskSealingPcrs, TpmEvtLogCollectPattern,
    TpmEvtLogSavePattern, MeasurementLogSealSuccess, MeasurementLogUnsealFail.
  intros [i Hi]. rewrite !string_app_assoc in Hi.
  destruct Hi as [Hi|[Hi|[Hi|Hi]]]; apply (inj (String.app _)) in Hi;
    discriminate Hi.
Qed.

(** *** Sealing *)

Lemma not_archival_error fmt args :
  fmt ≠ "collecting previous snapshot of TPM event log failed: %w" →
  fmt ≠ "removing old copies of TPM measurement log failed: %w" →
  fmt ≠ "copying current TPM measurement log failed: %w" →
  ¬ archival_error (VFmt fmt args).
Proof. intros ??? [e0 [?|[?|?]]]; congruence. Qed.

Lemma SealDiskKey_run key pcrSel w r w' :
  SealDiskKey key pcrSel w = (r, w') →
  (∃ e, r = Err e ∧ ¬ archival_error e)
  ∨ (∃ ws, stored key pcrSel w ws ∧ archive_seal_success ws = (r, w')).
Proof.
  unfold SealDiskKey. rewrite bind_run. unfold tpm2.OpenTPM at 1.
  destruct (dev_present w) eqn:Hdev.
  2:{ intros [= <- <-]. left. eexists. split; [done|]. by apply not_archival_error. }
  rewrite defer_Close.
  rewrite bind_run, ignore_run, NVUndefineSpace_state. cbn [fst snd].
  rewrite bind_run, ignore_run, NVUndefineSpace_state. cbn [fst snd].
  set (w1 := set_nv _ (set_nv _ w)).
  rewrite bind_run. unfold on_err at 1.
  destruct (tpm2.read_selection pcrSel w) as [vs|] eqn:Hsel.
  2:{ pose proof (PolicyPCRSession_err pcrSel w1 Hsel) as Herr.
      destruct (PolicyPCRSession pcrSel w1) as [r1 w2]. cbn in Herr. subst r1.
      intros [= <- <-]. left. eexists. split; [done|]. by apply not_archival_error. }
  rewrite (PolicyPCRSession_ok pcrSel w1 vs Hsel). cbn [fst snd].
rewrite bind_run. unfold on_err at 1.
  rewrite (FlushContext_session _ _ (concat vs))
    by (unfold with_session; cbn; apply lookup_insert_eq).
  set (w2 := set_sessions _ (with_session _ w1)).
  rewrite bind_run. unfold on_err at 1. rewrite Seal_run.
  change (persistent w2) with (persistent w).
  destruct (decide (TpmSRKHdl ∈ persistent w)) as [Hsrk|_].
  2:{ intros [= <- <-]. left. eexists. split; [done|]. by apply not_archival_error. }
  destruct (decide (Z.of_nat (length key) ≤ tpm2.MaxSymData)) as [Hlen|_].
  2:{ intros [= <- <-]. left. eexists. split; [done|]. by apply not_archival_error. }
  cbn [fst snd].
  rewrite bind_run. unfold on_err at 1.
  rewrite NVDefineSpace_ok by (cbn; apply lookup_delete_eq).
  set (w3 := set_nv _ w2).
  rewrite bind_run. unfold on_err at 1.
  destruct (NVWrite_fresh TpmSealedDiskPrivHdl key w3) as [[_ ->]|[_ ->]];
    [cbn; apply lookup_insert_eq| |].
  2:{ intros [= <- <-]. left. eexists. split; [done|]. by apply not_archival_error. }
  set (w4 := set_nv _ w3).
  rewrite bind_run. unfold on_err at 1.
  rewrite NVDefineSpace_ok.
  2:{ cbn. rewrite !lookup_insert_ne by done. rewrite lookup_delete_ne by done.
      apply lookup_delete_eq. }
  set (w5 := set_nv _ w4).
  rewrite bind_run. unfold on_err at 1.
  destruct (NVWrite_fresh TpmSealedDiskPubHdl (concat vs) w5) as [[_ ->]|[_ ->]];
    [cbn; apply lookup_insert_eq| |].
  2:{ intros [= <- <-]. left. eexists. split; [done|]. by apply not_archival_error. }
  set (w6 := set_nv _ w5).
  rewrite bind_run. unfold on_err at 1.
  destruct (saveDiskKeySealingPCRs TpmSavedDiskSealingPcrs w6) as [[[]|e] ws] eqn:Hsave.
  2:{ intros [= <- <-]. left. eexists. split; [done|]. by apply not_archival_error. }
  intros Harch. right. exists ws. split; [|exact Harch].
  apply saveDiskKeySealingPCRs_ok_inv in Hsave as (m & Hm & ->).
  apply readDiskKeySealingPCRs_ok_inv in Hm as (_ & _ & Hm).
  split; try done.
  - exists vs. split; [done|]. cbn. rewrite insert_insert_eq.
    by rewrite (insert_insert_eq _ TpmSealedDiskPrivHdl).
  - by exists m.
Qed.

Lemma respects_archive_seal_success :
  respects (only_files log_copy) archive_seal_success.
Proof.
  unfold archive_seal_success. respects_tac.
  - apply respects_backupCopiedMeasurementLogs.
  - apply respects_removeCopiedMeasurementLogs.
  - apply respects_copyMeasurementLog, log_copy_seal_success.
Qed.

Lemma SealDiskKey_stored key pcrSel w r w' :
  SealDiskKey key pcrSel w = (r, w') →
  r = Ok tt ∨ (∃ e, r = Err e ∧ archival_error e) →
  ∃ ws, stored key pcrSel w ws
        ∧ archive_seal_success ws = (r, w')
        ∧ only_files log_copy ws w'.
Proof.
  intros [(e & -> & Hne)|(ws & Hst & Harch)]%SealDiskKey_run Hr.
  - by destruct Hr as [?|(? & [= <-] & ?)].
  - exists ws. split_and!; [done..|].
    pose proof (respects_archive_seal_success ws) as Hfr. by rewrite Harch in Hfr.
Qed.

(** *** Unsealing *)

Lemma only_files_core touch w w' : only_files touch w w' → core w' = core w.
Proof.
  intros [Hno _]. unfold core.
  by rewrite (f_equal dev_present Hno : dev_present w' = dev_present w),
    (f_equal persistent Hno : persistent w' = persistent w),
    (f_equal nv Hno : nv w' = nv w),
    (f_equal pcr_bank Hno : pcr_bank w' = pcr_bank w).
Qed.

Lemma holds_sealed_core key pcrSel w w' :
  core w' = core w → holds_sealed key pcrSel w → holds_sealed key pcrSel w'.
Proof.
  unfold core, holds_sealed, tpm2.read_selection. intros [= -> -> -> ->]. done.
Qed.

Lemma stored_holds_sealed key pcrSel w ws :
  stored key pcrSel w ws → holds_sealed key pcrSel ws.
Proof.
  intros [Hdev Hsrk _ (vs & Hsel & Hnv) _ Hdev' Hper Hpcr _ _ _ _].
  split_and!; [congruence|by rewrite Hper|].
  exists vs, (Z.of_nat (length key)), (Z.of_nat (length (concat vs))). split_and!.
  - unfold tpm2.read_selection in *. by rewrite Hpcr.
  - rewrite Hnv. rewrite lookup_insert_ne by done. apply lookup_insert_eq.
  - rewrite Hnv. apply lookup_insert_eq.
Qed.

Lemma Load_ok parent pub priv w :
  parent ∈ persistent w →
  tpm2.Load parent pub priv w
  = (Ok (next_handle w),
     set_next_handle (next_handle w + 1)
       (set_objects (<[next_handle w := SealedObj pub priv]>) w)).
Proof. intros Hp. unfold tpm2.Load. by rewrite decide_True. Qed.

Lemma UnsealDiskKey_ok key pcrSel w :
  holds_sealed key pcrSel w →
  ∃ w', UnsealDiskKey pcrSel w = (Ok key, w').
Proof.
  intros (Hdev & Hsrk & vs & sp & sq & Hsel & Hpriv & Hpub).
  unfold UnsealDiskKey. rewrite bind_run, (OpenTPM_ok _ _ Hdev), defer_Close.
  rewrite bind_run. unfold on_err at 1. rewrite (NVReadEx_ok _ _ _ _ Hpriv).
  rewrite bind_run. unfold on_err at 1. rewrite (NVReadEx_ok _ _ _ _ Hpub).
  rewrite bind_run. unfold on_err at 1. rewrite (Load_ok _ _ _ _ Hsrk).
  set (w1 := set_next_handle _ _).
  rewrite defer_run, bind_run. unfold on_err at 1.
  rewrite (PolicyPCRSession_ok pcrSel w1 vs Hsel). cbn [fst snd].
  rewrite defer_run, bind_run, attempt_run.
  assert (Hun : tpm2.UnsealWithSession (next_handle w1) (next_handle w)
                  (with_session (concat vs) w1)
                = (Ok key, with_session (concat vs) w1)).
  { unfold tpm2.UnsealWithSession, with_session. cbn.
    rewrite lookup_insert_eq, lookup_insert_eq. cbn. by rewrite decide_True. }
  rewrite Hun. cbn [fst snd ret]. eauto.
Qed.

Lemma read_selection_ext pcrSel w w' :
  (∀ i, i ∈ PCRs pcrSel →
        pcr_bank w' !! (Hash pcrSel, i) = pcr_bank w !! (Hash pcrSel, i)) →
  tpm2.read_selection pcrSel w' = tpm2.read_selection pcrSel w.
Proof.
  unfold tpm2.read_selection. induction (PCRs pcrSel) as [|i l IH]; intros Hsame; [done|].
  cbn [mapM]. rewrite Hsame by by left. rewrite IH; [done|].
  intros j Hj. apply Hsame. by right.
Qed.

Lemma SealDiskKey_holds_sealed key pcrSel w r w' :
  SealDiskKey key pcrSel w = (r, w') →
  r = Ok tt ∨ (∃ e, r = Err e ∧ archival_error e) →
  holds_sealed key pcrSel w'.
Proof.
  intros Hrun Hr. destruct (SealDiskKey_stored _ _ _ _ _ Hrun Hr) as (ws & Hst & _ & Hfr).
  eapply holds_sealed_core; [by eapply only_files_core|].
  by eapply stored_holds_sealed.
Qed.

(** C1: when SealDiskKey returns without an error for a secret and the
    selection DiskKeySealingPCRs, and afterwards no register of the
    selection changes (nor the NV storage, the storage root key or the
    presence of the device), UnsealDiskKey returns exactly the secret; in
    particular for every 32-byte secret. *)
Theorem seal_unseal_round_trip (k : bytes) (w w1 w2 : World) :
  SealDiskKey k DiskKeySealingPCRs w = (Ok tt, w1) →
  (∀ i, i ∈ PCRs DiskKeySealingPCRs →
        pcr_bank w2 !! (Hash DiskKeySealingPCRs, i)
        = pcr_bank w1 !! (Hash DiskKeySealingPCRs, i)) →
  nv w2 = nv w1 → persistent w2 = persistent w1 → dev_present w2 = dev_present w1 →
  ∃ w3, UnsealDiskKey DiskKeySealingPCRs w2 = (Ok k, w3).
Proof.
  intros Hseal Hpcr Hnv Hper Hdev. apply UnsealDiskKey_ok.
  destruct (SealDiskKey_holds_sealed _ _ _ _ _ Hseal)
    as (Hd & Hsrk & vs & sp & sq & Hsel & Hpriv & Hpub); [by left|].
  split_and!; [congruence|by rewrite Hper|].
  exists vs, sp, sq. rewrite Hnv. split_and!; [|done..].
  by rewrite (read_selection_ext _ w1 w2).
Qed.

Lemma SealDiskKey_split key pcrSel w :
  SealDiskKey key pcrSel w
  = match seal_and_store key pcrSel w with
    | (Ok _, ws) => archive_seal_success ws
    | (Err e, ws) => (Err e, ws)
    end.
Proof.
  unfold SealDiskKey, seal_and_store, archive_seal_success.
  rewrite 2!bind_run. destruct (tpm2.OpenTPM TpmDevicePath w) as [[[]|?] w0]; [|done].
  rewrite defer_Close.
  do 9 (rewrite 2!bind_run;
        match goal with
        | |- context [match ?c ?w with _ => _ end] =>
            destruct (c w) as [[?|?] ?]
        end; cbn [fst snd]; [|reflexivity]).
  rewrite bind_run.
  by destruct (on_err (saveDiskKeySealingPCRs _) _ _) as [[[]|?] ?].
Qed.

Lemma seal_and_store_run key pcrSel w r ws :
  seal_and_store key pcrSel w = (r, ws) →
  (∃ e, r = Err e ∧ ¬ archival_error e)
  ∨ (r = Ok tt ∧ stored key pcrSel w ws).
Proof.
  unfold seal_and_store. rewrite bind_run. unfold tpm2.OpenTPM at 1.
  destruct (dev_present w) eqn:Hdev.
  2:{ intros [= <- <-]. left. eexists. split; [done|]. by apply not_archival_error. }
  rewrite bind_run, ignore_run, NVUndefineSpace_state. cbn [fst snd].
  rewrite bind_run, ignore_run, NVUndefineSpace_state. cbn [fst snd].
  set (w1 := set_nv _ (set_nv _ w)).
  rewrite bind_run. unfold on_err at 1.
  destruct (tpm2.read_selection pcrSel w) as [vs|] eqn:Hsel.
  2:{ pose proof (PolicyPCRSession_err pcrSel w1 Hsel) as Herr.
      destruct (PolicyPCRSession pcrSel w1) as [r1 w2]. cbn in Herr. subst r1.
      intros [= <- <-]. left. eexists. split; [done|]. by apply not_archival_error. }
  rewrite (PolicyPCRSession_ok pcrSel w1 vs Hsel). cbn [fst snd].
  rewrite bind_run. unfold on_err at 1.
  rewrite (FlushContext_session _ _ (concat vs))
    by (unfold with_session; cbn; apply lookup_insert_eq).
  set (w2 := set_sessions _ (with_session _ w1)).
  rewrite bind_run. unfold on_err at 1. rewrite Seal_run.
  change (persistent w2) with (persistent w).
  destruct (decide (TpmSRKHdl ∈ persistent w)) as [Hsrk|_].
  2:{ intros [= <- <-]. left. eexists. split; [done|]. by apply not_archival_error. }
  destruct (decide (Z.of_nat (length key) ≤ tpm2.MaxSymData)) as [Hlen|_].
  2:{ intros [= <- <-]. left. eexists. split; [done|]. by apply not_archival_error. }
  cbn [fst snd].
  rewrite bind_run. unfold on_err at 1.
  rewrite NVDefineSpace_ok by (cbn; apply lookup_delete_eq).
  set (w3 := set_nv _ w2).
  rewrite bind_run. unfold on_err at 1.
  destruct (NVWrite_fresh TpmSealedDiskPrivHdl key w3) as [[_ ->]|[_ ->]];
    [cbn; apply lookup_insert_eq| |].
  2:{ intros [= <- <-]. left. eexists. split; [done|]. by apply not_archival_error. }
  set (w4 := set_nv _ w3).
  rewrite bind_run. unfold on_err at 1.
  rewrite NVDefineSpace_ok.
  2:{ cbn. rewrite !lookup_insert_ne by done. rewrite lookup_delete_ne by done.
      apply lookup_delete_eq. }
  set (w5 := set_nv _ w4).
  rewrite bind_run. unfold on_err at 1.
  destruct (NVWrite_fresh TpmSealedDiskPubHdl (concat vs) w5) as [[_ ->]|[_ ->]];
    [cbn; apply lookup_insert_eq| |].
  2:{ intros [= <- <-]. left. eexists. split; [done|]. by apply not_archival_error. }
  set (w6 := set_nv _ w5).
  unfold on_err.
  destruct (saveDiskKeySealingPCRs TpmSavedDiskSealingPcrs w6) as [[[]|e] ws'] eqn:Hsave.
  2:{ intros [= <- <-]. left. eexists. split; [done|]. by apply not_archival_error. }
  intros [= <- <-]. right. split; [done|].
  apply saveDiskKeySealingPCRs_ok_inv in Hsave as (m & Hm & ->).
  apply readDiskKeySealingPCRs_ok_inv in Hm as (_ & _ & Hm).
  split; try done.
  - exists vs. split; [done|]. cbn. rewrite insert_insert_eq.
    by rewrite (insert_insert_eq _ TpmSealedDiskPrivHdl).
  - by exists m.
Qed.

Lemma archive_seal_success_error ws e w' :
  archive_seal_success ws = (Err e, w') → archival_error e.
Proof.
  unfold archive_seal_success, archival_error. rewrite bind_run. unfold on_err at 1.
  destruct (backupCopiedMeasurementLogs ws) as [[[]|e1] w1];
    [|intros [= <- _]; exists e1; by left].
  rewrite bind_run. unfold on_err at 1.
  destruct (removeCopiedMeasurementLogs w1) as [[[]|e2] w2];
    [|intros [= <- _]; exists e2; right; by left].
  rewrite bind_run. unfold on_err at 1.
  destruct (copyMeasurementLog MeasurementLogSealSuccess w2) as [[[]|e3] w3];
    [done|intros [= <- _]; exists e3; right; by right].
Qed.

(** C2, as the code has it: SealDiskKey returns without an error only when
    the rotation, the removal and the fresh copy of the measurement logs
    all succeeded. Once the secret is sealed, the two blobs are in NV and
    the snapshot is saved, a failure of one of the three is what
    SealDiskKey returns, as its own error and under the wrapper of that
    step, although the blobs stay in their NV indices, where UnsealDiskKey
    finds them and recovers the secret, and the snapshot stays saved; and
    SealDiskKey returns such an error in no other case. *)
Theorem SealDiskKey_archival_failure (key : bytes) (pcrSel : PCRSelection)
    (w : World) :
  (∀ w', SealDiskKey key pcrSel w = (Ok tt, w') →
     ∃ ws, seal_and_store key pcrSel w = (Ok tt, ws)
           ∧ stored key pcrSel w ws
           ∧ archive_seal_success ws = (Ok tt, w'))
  ∧ (∀ ws e w',
       seal_and_store key pcrSel w = (Ok tt, ws) →
       archive_seal_success ws = (Err e, w') →
       SealDiskKey key pcrSel w = (Err e, w')
       ∧ archival_error e
       ∧ stored key pcrSel w ws
       ∧ holds_sealed key pcrSel w'
       ∧ (∃ w'', UnsealDiskKey pcrSel w' = (Ok key, w''))
       ∧ (∃ m, sealing_registers w m
               ∧ fs w' !! TpmSavedDiskSealingPcrs = Some (File (gob_encode m))))
  ∧ (∀ e w', SealDiskKey key pcrSel w = (Err e, w') → archival_error e →
       ∃ ws, seal_and_store key pcrSel w = (Ok tt, ws)
             ∧ archive_seal_success ws = (Err e, w')).
Proof.
  pose proof (SealDiskKey_split key pcrSel w) as Hsplit.
  destruct (seal_and_store key pcrSel w) as [r ws0] eqn:Hfirst.
  pose proof (seal_and_store_run _ _ _ _ _ Hfirst) as Hcases.
  split_and!.
  - intros w' Hrun. rewrite Hrun in Hsplit.
    destruct Hcases as [(e & -> & _)|[-> Hst]]; [done|]. by exists ws0.
  - intros ws e w' [= -> <-] Harch.
    destruct Hcases as [(? & [=] & _)|[_ Hst]].
    rewrite Harch in Hsplit.
    pose proof (archive_seal_success_error _ _ _ Harch) as He.
    destruct (SealDiskKey_stored _ _ _ _ _ Hsplit) as (ws & Hst' & _ & Hfr); [eauto|].
    assert (Hh : holds_sealed key pcrSel w')
      by (eapply SealDiskKey_holds_sealed; eauto).
    split_and!; [done..|by apply UnsealDiskKey_ok|].
    destruct (stored_snapshot _ _ _ _ Hst') as (m & Hm & Hfs). exists m. split; [done|].
    destruct Hfr as [_ Hfiles]. rewrite Hfiles by apply snapshot_not_log_copy.
    rewrite Hfs. apply lookup_insert_eq.
  - intros e w' Hrun Harch. rewrite Hrun in Hsplit.
    destruct Hcases as [(e1 & -> & Hne)|[-> _]].
    + injection Hsplit as -> _. done.
    + by exists ws0.
Qed.

(** C5, as the code has it: whatever selection SealDiskKey is given, a
    successful seal leaves in the snapshot file the current values of the
    registers of DiskKeySealingPCRs, the fixed selection, and of no other
    register. *)
Theorem SealDiskKey_snapshot (key : bytes) (pcrSel : PCRSelection) (w w' : World) :
  SealDiskKey key pcrSel w = (Ok tt, w') →
  ∃ m, fs w' !! TpmSavedDiskSealingPcrs = Some (File (gob_encode m))
       ∧ dom m = list_to_set (PCRs DiskKeySealingPCRs)
       ∧ (∀ i, i ∈ PCRs DiskKeySealingPCRs →
               is_Some (m !! i) ∧ m !! i = pcr_bank w' !! (tpm2.AlgSHA256, i))
       ∧ pcr_bank w' = pcr_bank w.
Proof.
  intros Hrun.
  destruct (SealDiskKey_stored _ _ _ _ _ Hrun) as (ws & Hst & _ & Hfr); [by left|].
  destruct (stored_snapshot _ _ _ _ Hst) as (m & [Hm Hsome] & Hfs).
  assert (Hpcr : pcr_bank w' = pcr_bank w).
  { pose proof (only_files_core _ _ _ Hfr) as [= _ _ _ ->].
    apply (stored_pcr_bank _ _ _ _ Hst). }
  exists m. split_and!; [| | |done].
  - destruct Hfr as [_ Hfiles]. rewrite Hfiles by apply snapshot_not_log_copy.
    rewrite Hfs. apply lookup_insert_eq.
  - apply set_eq. intros i. rewrite elem_of_dom, elem_of_list_to_set, Hm.
    case_decide as Hi; [by split; [|auto]|].
    split; [by intros [? ?]|done].
  - intros i Hi. rewrite Hm, decide_True, Hpcr by done. auto.
Qed.

(** *** What the diagnoser and UnsealDiskKey leave alone *)

Lemma respects_readDiskKeySealingPCRs R `{!PreOrder R} :
  respects R readDiskKeySealingPCRs.
Proof. intros w. by rewrite readDiskKeySealingPCRs_state. Qed.

Lemma respects_findMismatchingPCRs_loop R `{!PreOrder R} entries readPCRs mismatch :
  respects R (findMismatchingPCRs_loop entries readPCRs mismatch).
Proof.
  revert mismatch. induction entries as [|[i s] entries IH]; intros mismatch;
    cbn [findMismatchingPCRs_loop]; respects_tac.
Qed.

Lemma respects_findMismatchingPCRs R `{!PreOrder R} savedPCRsFile :
  respects R (findMismatchingPCRs savedPCRsFile).
Proof.
  unfold findMismatchingPCRs. respects_tac.
  - by apply respects_readDiskKeySealingPCRs.
  - by apply respects_findMismatchingPCRs_loop.
Qed.

Lemma findMismatchingPCRs_state savedPCRsFile w :
  (findMismatchingPCRs savedPCRsFile w).2 = w.
Proof. symmetry. apply (respects_findMismatchingPCRs eq). Qed.

Lemma respects_only_files_same {A X} touch (proj : World → X) (c : M A) :
  (∀ w w', no_fs w' = no_fs w → proj w' = proj w) →
  respects (only_files touch) c → respects (same proj) c.
Proof. intros Hproj Hc w. destruct (Hc w) as [Hno _]. by apply Hproj. Qed.

Lemma no_fs_core w w' : no_fs w' = no_fs w → core w' = core w.
Proof. intros Hno. by apply (only_files_core (λ _, True)). Qed.

Lemma respects_core_StartAuthSession : respects (same core) tpm2.StartAuthSession.
Proof. by intros w. Qed.

Lemma respects_core_PolicyPCR session pcrSel :
  respects (same core) (tpm2.PolicyPCR session pcrSel).
Proof. intros w. unfold tpm2.PolicyPCR. by repeat case_match. Qed.

Lemma respects_core_FlushContext handle : respects (same core) (tpm2.FlushContext handle).
Proof. intros w. unfold tpm2.FlushContext. by repeat case_match. Qed.

Lemma respects_core_Load parent pub priv : respects (same core) (tpm2.Load parent pub priv).
Proof. intros w. unfold tpm2.Load. by repeat case_match. Qed.

Lemma respects_core_PolicyPCRSession pcrSel : respects (same core) (PolicyPCRSession pcrSel).
Proof.
  unfold PolicyPCRSession. respects_tac;
    auto using respects_core_StartAuthSession, respects_core_PolicyPCR,
      respects_core_FlushContext.
Qed.

Lemma respects_core_UnsealDiskKey pcrSel : respects (same core) (UnsealDiskKey pcrSel).
Proof.
  unfold UnsealDiskKey. respects_tac;
    auto using respects_core_Load, respects_core_FlushContext,
      respects_core_PolicyPCRSession.
  - eapply respects_only_files_same; [apply no_fs_core|].
    apply respects_copyMeasurementLog, log_copy_unseal_fail.
  - apply respects_findMismatchingPCRs, _.
Qed.

Lemma findMismatchingPCRs_sorted savedPCRsFile w mismatch w' :
  findMismatchingPCRs savedPCRsFile w = (Ok mismatch, w') → Sorted Z.le mismatch.
Proof.
  unfold findMismatchingPCRs. intros Hrun.
  apply bind_ok_inv in Hrun as (frw & w1 & _ & Hrun).
  destruct (gob_decode frw) as [savedPCRs|]; [|done].
  apply bind_ok_inv in Hrun as (readPCRs & w2 & _ & Hrun).
  apply bind_ok_inv in Hrun as (l & w3 & _ & [= <- _]).
  apply Sorted_merge_sort, _.
Qed.

(** C3: whatever the selection, when the unseal primitive fails inside
    UnsealDiskKey, the measurement log is copied first, with the tag of a
    failed unseal, and whether or not that copy succeeds the diagnoser is
    run next, against the saved snapshot; the one error that is returned
    carries the error of the module, the outcome of the copy, and the
    sorted list of the mismatching indices or else the failure of the
    diagnoser; no secret is returned. *)
Theorem UnsealDiskKey_failure_report (pcrSel : PCRSelection) (w w1 w2 w3 : World)
    (priv pub policy : bytes) (sealedObjHandle session : Z) (err : error) :
  dev_present w = true →
  tpm2.NVReadEx TpmSealedDiskPrivHdl w = (Ok priv, w) →
  tpm2.NVReadEx TpmSealedDiskPubHdl w = (Ok pub, w) →
  tpm2.Load TpmSRKHdl pub priv w = (Ok sealedObjHandle, w1) →
  PolicyPCRSession pcrSel w1 = (Ok (session, policy), w2) →
  tpm2.UnsealWithSession session sealedObjHandle w2 = (Err err, w3) →
  let copied := copyMeasurementLog MeasurementLogUnsealFail w3 in
  let diagnosed := findMismatchingPCRs TpmSavedDiskSealingPcrs copied.2 in
  let evtLogStat :=
    match copied.1 with
    | Ok _ => VStr "copied (failed unseal) TPM measurement log"
    | Err errEvtLog =>
        VFmt "copying (failed unseal) TPM measurement log failed: %v" [errEvtLog]
    end in
  (UnsealDiskKey pcrSel w).1
  = Err (match diagnosed.1 with
         | Err errPcrMiss =>
             VFmt "UnsealWithSession failed: %w, %s, finding mismatching PCR failed: %v"
               [err; evtLogStat; errPcrMiss]
         | Ok mismatch =>
             VFmt "UnsealWithSession failed: %w, %s, possibly mismatching PCR indexes: %v"
               [err; evtLogStat; VInts mismatch]
         end)
  ∧ (∀ mismatch, diagnosed.1 = Ok mismatch → Sorted Z.le mismatch)
  ∧ (UnsealDiskKey pcrSel w).2
    = (tpm2.FlushContext sealedObjHandle
         (tpm2.FlushContext session diagnosed.2).2).2.
Proof.
  intros Hdev Hpriv Hpub Hload Hsess Hunseal copied diagnosed evtLogStat.
  assert (Hrun : UnsealDiskKey pcrSel w
    = (Err (match diagnosed.1 with
            | Err errPcrMiss =>
                VFmt "UnsealWithSession failed: %w, %s, finding mismatching PCR failed: %v"
                  [err; evtLogStat; errPcrMiss]
            | Ok mismatch =>
                VFmt "UnsealWithSession failed: %w, %s, possibly mismatching PCR indexes: %v"
                  [err; evtLogStat; VInts mismatch]
            end),
       (tpm2.FlushContext sealedObjHandle
          (tpm2.FlushContext session diagnosed.2).2).2)).
  { unfold UnsealDiskKey. rewrite bind_run, (OpenTPM_ok _ _ Hdev), defer_Close.
    rewrite bind_run. unfold on_err at 1. rewrite Hpriv.
    rewrite bind_run. unfold on_err at 1. rewrite Hpub.
    rewrite bind_run. unfold on_err at 1. rewrite Hload.
    unfold defer at 1. rewrite bind_run. unfold on_err at 1. rewrite Hsess.
    cbn [fst snd]. unfold defer at 1.
    rewrite bind_run, attempt_run, Hunseal. cbn [fst snd].
    rewrite bind_run, attempt_run. fold copied.
    rewrite bind_run, attempt_run. fold diagnosed. fold evtLogStat.
    by destruct (diagnosed.1). }
  rewrite Hrun. split_and!; [done| |done].
  intros mismatch Hm.
  apply (findMismatchingPCRs_sorted TpmSavedDiskSealingPcrs copied.2 _ diagnosed.2).
  rewrite <-Hm. apply surjective_pairing.
Qed.

(** *** The life cycle of the vault key *)

Lemma respects_readDiskKey R `{!PreOrder R} : respects R readDiskKey.
Proof. unfold readDiskKey. respects_tac. Qed.

Lemma readDiskKey_state w : (readDiskKey w).2 = w.
Proof. symmetry. apply (respects_readDiskKey eq). Qed.

Lemma readDiskKey_run w : readDiskKey w = ((readDiskKey w).1, w).
Proof. rewrite <-(readDiskKey_state w) at 3. apply surjective_pairing. Qed.

Lemma isLegacyKeyPresent_run w :
  isLegacyKeyPresent w = (Ok (is_ok (readDiskKey w).1), w).
Proof.
  unfold isLegacyKeyPresent. rewrite bind_run, attempt_run.
  by rewrite readDiskKey_state.
Qed.

Lemma isSealedKeyPresent_run w : isSealedKeyPresent w = (Ok (sealed_present w), w).
Proof.
  unfold isSealedKeyPresent, sealed_present. rewrite bind_run, attempt_run.
  unfold tpm2.OpenTPM. destruct (dev_present w); cbn [fst snd andb]; [|done].
  rewrite defer_Close, bind_run, attempt_run. by rewrite NVReadEx_state.
Qed.

(** C9: with the SHA256 bank supported, whatever FetchSealedVaultKey
    returns without an error is what UnsealDiskKey returned, from the state
    in which the call found a sealed key, or from the state in which the
    call had just sealed a fresh or the legacy key: a successful return
    means that the sealed blob unseals under the current registers. *)
Theorem FetchSealedVaultKey_returns_unsealed (w w0 w' : World) (key : bytes) :
  PCRBankSHA256Enabled w = (Ok true, w0) →
  FetchSealedVaultKey w = (Ok key, w') →
  ∃ w1,
    UnsealDiskKey DiskKeySealingPCRs w1 = (Ok key, w')
    ∧ ((sealed_present w0 = true ∧ w1 = w0)
       ∨ (sealed_present w0 = false
          ∧ is_ok (readDiskKey w0).1 = false
          ∧ ∃ fresh wr,
              GetRandom vaultKeyLength w0 = (Ok fresh, wr)
              ∧ SealDiskKey fresh DiskKeySealingPCRs wr = (Ok tt, w1))
       ∨ (sealed_present w0 = false
          ∧ ∃ legacy,
              readDiskKey w0 = (Ok legacy, w0)
              ∧ SealDiskKey legacy DiskKeySealingPCRs w0 = (Ok tt, w1))).
Proof.
  intros Henabled. unfold FetchSealedVaultKey.
  rewrite bind_run, Henabled. cbn [negb].
  rewrite bind_run, isSealedKeyPresent_run.
  rewrite bind_run, isLegacyKeyPresent_run.
  destruct (sealed_present w0) eqn:Hsealed; cbn [negb andb].
  - rewrite !bind_run. cbn [ret]. intros Hun. exists w0. auto.
  - destruct (is_ok (readDiskKey w0).1) eqn:Hlegacy; cbn [negb andb].
    + rewrite bind_run. cbn [ret]. intros Hrun.
      apply bind_ok_inv in Hrun as ([] & w1 & Hseal & Hun).
      apply bind_ok_inv in Hseal as (legacy & w2 & Hread%on_err_ok_inv & Hseal%on_err_ok_inv).
      assert (w2 = w0) as -> by (by rewrite <-(readDiskKey_state w0), Hread).
      exists w1. split; [done|]. right. right. eauto.
    + intros Hrun.
      apply bind_ok_inv in Hrun as ([] & w1 & Hseal & Hun).
      apply bind_ok_inv in Hseal as (fresh & wr & Hrand%on_err_ok_inv & Hseal%on_err_ok_inv).
      rewrite bind_run in Hun. cbn [ret] in Hun.
      exists w1. split; [done|]. right. left. eauto 10.
Qed.

Lemma respects_IsTpmEnabled R `{!PreOrder R} : respects R IsTpmEnabled.
Proof. unfold IsTpmEnabled. respects_tac. Qed.

Lemma respects_pcrBankSHA256EnabledHelper R `{!PreOrder R} :
  respects R pcrBankSHA256EnabledHelper.
Proof.
  unfold pcrBankSHA256EnabledHelper. respects_tac. by apply respects_IsTpmEnabled.
Qed.

Lemma respects_PCRBankSHA256Enabled : respects (same no_status) PCRBankSHA256Enabled.
Proof.
  unfold PCRBankSHA256Enabled. respects_tac; try done.
  apply respects_pcrBankSHA256EnabledHelper, _.
Qed.

Lemma PCRBankSHA256Enabled_nv w b w0 :
  PCRBankSHA256Enabled w = (Ok b, w0) → nv w0 = nv w.
Proof.
  intros Hrun. pose proof (respects_PCRBankSHA256Enabled w) as Hsame.
  rewrite Hrun in Hsame. exact (f_equal nv Hsame).
Qed.

Lemma readDiskKey_ok_inv w key :
  (readDiskKey w).1 = Ok key →
  dev_present w = true ∧ ∃ size, nv w !! TpmDiskKeyHdl = Some (NvEntry size (Some key)).
Proof.
  unfold readDiskKey. rewrite bind_run. unfold tpm2.OpenTPM.
  destruct (dev_present w); [|done]. rewrite defer_Close, bind_run.
  unfold on_err. destruct (tpm2.NVReadEx _ w) as [[d|e] w1] eqn:Hread; [|done].
  intros [= ->]. split; [done|]. by apply NVReadEx_ok_inv in Hread as [_ ?].
Qed.

Lemma readDiskKey_ok w key size :
  dev_present w = true → nv w !! TpmDiskKeyHdl = Some (NvEntry size (Some key)) →
  readDiskKey w = (Ok key, w).
Proof.
  intros Hdev Hnv. unfold readDiskKey.
  rewrite bind_run, (OpenTPM_ok _ _ Hdev), defer_Close, bind_run.
  unfold on_err. by rewrite (NVReadEx_ok _ _ _ _ Hnv).
Qed.

Lemma writeDiskKey_ok_inv key w w' :
  writeDiskKey key w = (Ok tt, w') →
  Z.of_nat (length key) < 65536
  ∧ w' = set_nv (<[TpmDiskKeyHdl := NvEntry (Z.of_nat (length key)) (Some key)]>) w.
Proof.
  unfold writeDiskKey. rewrite bind_run. unfold tpm2.OpenTPM at 1.
  destruct (dev_present w); [|done]. rewrite defer_Close.
  rewrite bind_run, ignore_run, NVUndefineSpace_state. cbn [fst snd].
  rewrite bind_run. unfold on_err at 1.
  rewrite NVDefineSpace_ok by (cbn; apply lookup_delete_eq).
  rewrite bind_run. unfold on_err at 1.
  destruct (NVWrite_fresh TpmDiskKeyHdl key
              (set_nv (<[TpmDiskKeyHdl := NvEntry (uint16 (Z.of_nat (length key))) None]>)
                 (set_nv (delete TpmDiskKeyHdl) w))) as [[Hlt ->]|[_ ->]];
    [cbn; apply lookup_insert_eq| |done].
  intros [= <-]. split; [done|]. destruct w; unfold set_nv; cbn. f_equal.
  by rewrite insert_insert_eq, insert_delete_eq.
Qed.

Lemma GetRandom_ok_inv numBytes w key w' :
  GetRandom numBytes w = (Ok key, w') →
  key = take (Z.to_nat numBytes) (rng_pool w)
  ∧ (Z.to_nat numBytes ≤ length (rng_pool w))%nat
  ∧ w' = set_rng_pool (drop (Z.to_nat numBytes) (rng_pool w)) w.
Proof.
  unfold GetRandom. rewrite bind_run. unfold tpm2.OpenTPM.
  destruct (dev_present w); [|done]. rewrite defer_Close. unfold tpm2.GetRandom.
  case_decide; [|done]. by intros [= <- <-].
Qed.

Lemma respects_sealed_side_FetchVaultKey : respects (same sealed_side) FetchVaultKey.
Proof.
  unfold FetchVaultKey, GetRandom, writeDiskKey. respects_tac.
  - apply respects_readDiskKey, _.
  - intros w. unfold tpm2.GetRandom. by case_decide.
  - intros w. rewrite NVUndefineSpace_state. unfold same, sealed_side. cbn.
    by rewrite !lookup_delete_ne.
  - intros w. unfold tpm2.NVDefineSpace. case_match; [done|].
    unfold same, sealed_side. cbn. by rewrite !lookup_insert_ne.
  - intros w. unfold tpm2.NVWrite. repeat case_match; try done.
    unfold same, sealed_side. cbn. by rewrite !lookup_insert_ne.
Qed.

(** C7: without the SHA256 bank, FetchSealedVaultKey is FetchVaultKey: it
    returns the legacy key when that one can be read from NV; otherwise the
    32 bytes that the RNG of the module yields next, once written as the
    legacy NV blob; and, whatever it returns, it leaves the sealed NV
    indices, the loaded objects, the sessions and the files as they were:
    nothing is sealed or unsealed. *)
Theorem FetchSealedVaultKey_without_sha256 (w w0 : World) :
  PCRBankSHA256Enabled w = (Ok false, w0) →
  FetchSealedVaultKey w = FetchVaultKey w0
  ∧ (∀ key, (readDiskKey w0).1 = Ok key → FetchVaultKey w0 = (Ok key, w0))
  ∧ (∀ e key w1 w2,
       (readDiskKey w0).1 = Err e →
       GetRandom vaultKeyLength w0 = (Ok key, w1) →
       writeDiskKey key w1 = (Ok tt, w2) →
       FetchVaultKey w0 = (Ok key, w2)
       ∧ length key = 32%nat
       ∧ key = take 32 (rng_pool w0)
       ∧ nv w2 !! TpmDiskKeyHdl = Some (NvEntry 32 (Some key))
       ∧ readDiskKey w2 = (Ok key, w2))
  ∧ sealed_side (FetchVaultKey w0).2 = sealed_side w0.
Proof.
  intros Henabled. split_and!.
  - unfold FetchSealedVaultKey. by rewrite bind_run, Henabled.
  - intros key Hkey. unfold FetchVaultKey.
    by rewrite bind_run, attempt_run, readDiskKey_state, Hkey.
  - intros e key w1 w2 Hnone Hrand Hwrite.
    assert (Hrun : FetchVaultKey w0 = (Ok key, w2)).
    { unfold FetchVaultKey. rewrite bind_run, attempt_run, readDiskKey_state, Hnone.
      rewrite bind_run, (on_err_ok _ _ _ _ _ Hrand).
      by rewrite bind_run, (on_err_ok _ _ _ _ _ Hwrite). }
    apply GetRandom_ok_inv in Hrand as (Hkey & Hpool & ->).
    change (Z.to_nat vaultKeyLength) with 32%nat in *.
    assert (Hlen : length key = 32%nat) by (rewrite Hkey, length_take; lia).
    pose proof Hwrite as [_ ->]%writeDiskKey_ok_inv.
    assert (Hnv : nv (set_nv (<[TpmDiskKeyHdl :=
                       NvEntry (Z.of_nat (length key)) (Some key)]>)
                    (set_rng_pool (drop 32 (rng_pool w0)) w0)) !! TpmDiskKeyHdl
                  = Some (NvEntry 32 (Some key))).
    { cbn. rewrite lookup_insert_eq, Hlen. done. }
    split_and!; [done..|].
    eapply readDiskKey_ok; [|exact Hnv].
    unfold writeDiskKey in Hwrite. by apply bind_ok_inv in Hwrite
      as ([] & ? & [? ->]%OpenTPM_ok_inv & _).
  - apply respects_sealed_side_FetchVaultKey.
Qed.

(** C6: with the SHA256 bank supported, no sealed key and the legacy key
    [k] in NV, when sealing [k] goes through, the one call of
    FetchSealedVaultKey returns [k], having sealed these very bytes; the
    legacy NV blob is as it was; and CompareLegacyandSealedKey then answers
    SealedKeyTypeReused. *)
Theorem FetchSealedVaultKey_legacy_migration (w w0 w1 : World) (k : bytes) :
  PCRBankSHA256Enabled w = (Ok true, w0) →
  isSealedKeyPresent w0 = (Ok false, w0) →
  readDiskKey w0 = (Ok k, w0) →
  SealDiskKey k DiskKeySealingPCRs w0 = (Ok tt, w1) →
  ∃ w2 w3,
    FetchSealedVaultKey w = (Ok k, w2)
    ∧ holds_sealed k DiskKeySealingPCRs w2
    ∧ nv w2 !! TpmDiskKeyHdl = nv w !! TpmDiskKeyHdl
    ∧ readDiskKey w2 = (Ok k, w2)
    ∧ CompareLegacyandSealedKey w2 = (Ok SealedKeyTypeReused, w3).
Proof.
  intros Henabled Hsealed Hlegacy Hseal.
  rewrite isSealedKeyPresent_run in Hsealed. injection Hsealed as Hsealed.
  destruct (SealDiskKey_stored _ _ _ _ _ Hseal) as (ws & Hst & _ & Hfr); [by left|].
  apply only_files_core in Hfr.
  assert (Hh1 : holds_sealed k DiskKeySealingPCRs w1).
  { eapply holds_sealed_core; [done|]. by eapply stored_holds_sealed. }
  destruct (UnsealDiskKey_ok _ _ _ Hh1) as (w2 & Hun).
  pose proof (respects_core_UnsealDiskKey DiskKeySealingPCRs w1) as Hcore.
  rewrite Hun in Hcore. unfold same in Hcore. cbn [snd] in Hcore.
  assert (Hh2 : holds_sealed k DiskKeySealingPCRs w2) by by eapply holds_sealed_core.
  destruct (UnsealDiskKey_ok _ _ _ Hh2) as (w3 & Hun2).
  assert (Hkey0 : (readDiskKey w0).1 = Ok k) by by rewrite Hlegacy.
  destruct (readDiskKey_ok_inv _ _ Hkey0) as (Hdev0 & size & Hnv0).
  assert (Hnv2 : nv w2 !! TpmDiskKeyHdl = nv w0 !! TpmDiskKeyHdl).
  { injection Hcore as _ _ -> _. injection Hfr as _ _ -> _.
    destruct (stored_nv _ _ _ _ Hst) as (vs & _ & ->).
    rewrite !lookup_insert_ne by done. by rewrite !lookup_delete_ne. }
  assert (Hread2 : readDiskKey w2 = (Ok k, w2)).
  { eapply readDiskKey_ok; [by destruct Hh2|]. by rewrite Hnv2. }
  exists w2, w3. split_and!; [|done| |done|].
  - unfold FetchSealedVaultKey. rewrite bind_run, Henabled. cbn [negb].
    rewrite bind_run, isSealedKeyPresent_run, Hsealed.
    rewrite bind_run, isLegacyKeyPresent_run, Hkey0. cbn [is_ok negb andb].
    rewrite bind_run. cbn [ret].
    rewrite bind_run, bind_run, (on_err_ok _ _ _ _ _ Hlegacy).
    by rewrite (on_err_ok _ _ _ _ _ Hseal).
  - rewrite Hnv2. by rewrite (PCRBankSHA256Enabled_nv _ _ _ Henabled).
  - unfold CompareLegacyandSealedKey.
    rewrite bind_run, isSealedKeyPresent_run.
    assert (sealed_present w2 = true) as ->.
    { destruct Hh2 as (Hdev & _ & vs & sp & sq & _ & Hpriv & _).
      unfold sealed_present. by rewrite Hdev, (NVReadEx_ok _ _ _ _ Hpriv). }
    cbn [negb]. rewrite bind_run, attempt_run, Hread2. cbn [fst snd].
    rewrite bind_run, attempt_run, Hun2. cbn [fst snd].
    unfold bytes_Equal. by rewrite bool_decide_eq_true_2.
Qed.

(** *** The owner credential *)

(** C10: whatever the credential file holds, ReadOwnerCrdl returns at
    most MaxPasswdLength (7) bytes: contents longer than that are cut to
    their first 7 bytes, without an error, and shorter contents are
    returned as they are. *)
Theorem ReadOwnerCrdl_truncates (w : World) (content : bytes) :
  fs w !! TpmCredentialsFileName = Some (File content) →
  ∃ s, ReadOwnerCrdl w = (Ok s, w)
       ∧ (length s ≤ 7)%nat
       ∧ s = take 7 content
       ∧ ((length content ≤ 7)%nat → s = content).
Proof.
  intros Hf. unfold ReadOwnerCrdl, os.ReadFile, MaxPasswdLength.
  rewrite bind_run, Hf. cbn [ret].
  case_decide as Hlen.
  - eexists; split; [reflexivity|]. change (Z.to_nat 7) with 7%nat.
    rewrite length_take. split; [lia|]. split; [done|]. intros; lia.
  - eexists; split; [reflexivity|].
    assert (length content ≤ 7)%nat by lia.
    split; [done|]. split; [by rewrite take_ge | done].
Qed.

(** *** The mismatch diagnoser *)

Lemma findMismatchingPCRs_loop_ok entries readPCRs mismatch w :
  (∀ i s, (i, s) ∈ entries → is_Some (readPCRs !! i)) →
  findMismatchingPCRs_loop entries readPCRs mismatch w
  = (Ok (mismatch ++ differing entries readPCRs), w).
Proof.
  revert mismatch. induction entries as [|[i s] entries IH]; intros mismatch Hall.
  - unfold differing. simpl. by rewrite app_nil_r.
  - destruct (Hall i s) as [r Hr]; [left|]. cbn [findMismatchingPCRs_loop].
    rewrite Hr. unfold differing. rewrite filter_cons. cbn [fst snd].
    unfold bytes_Equal. rewrite Hr.
    assert (Hrest : ∀ i s, (i, s) ∈ entries → is_Some (readPCRs !! i))
      by (intros ???; eapply Hall; by right).
    case_bool_decide as Heq; cbn [negb].
    + subst. rewrite decide_False by (intros Hne; by apply Hne).
      by apply IH.
    + rewrite decide_True by congruence.
      rewrite IH by done. rewrite fmap_cons. cbn [fst].
      by rewrite <-app_assoc.
Qed.

Lemma findMismatchingPCRs_loop_missing entries readPCRs mismatch w i s :
  (i, s) ∈ entries → readPCRs !! i = None →
  ∃ j, readPCRs !! j = None
       ∧ findMismatchingPCRs_loop entries readPCRs mismatch w
         = (Err (VFmt "saved PCR index %d doesn't exist at run-time PCRs list %v"
                   [VInt j; VInts (PCRs DiskKeySealingPCRs)]), w).
Proof.
  revert mismatch.
  induction entries as [|[j t] entries IH]; intros mismatch Hin Hnone.
  - by apply elem_of_nil in Hin.
  - cbn [findMismatchingPCRs_loop].
    destruct (readPCRs !! j) as [r|] eqn:Hj.
    + apply elem_of_cons in Hin as [[= -> ->]|Hin]; [congruence|].
      destruct (negb _); by apply IH.
    + by exists j.
Qed.

Lemma differing_spec entries readPCRs i :
  i ∈ differing entries readPCRs ↔ ∃ s, (i, s) ∈ entries ∧ readPCRs !! i ≠ Some s.
Proof.
  unfold differing. rewrite list_elem_of_fmap. split.
  - intros [[j s] [-> Hin]]. apply list_elem_of_filter in Hin as [Hne Hin].
    by exists s.
  - intros [s [Hin Hne]]. exists (i, s). split; [done|].
    by apply list_elem_of_filter.
Qed.

Lemma differing_NoDup entries readPCRs :
  NoDup entries.*1 → NoDup (differing entries readPCRs).
Proof.
  intros Hnd. eapply sublist_NoDup; [exact Hnd|].
  unfold differing. apply fmap_sublist, sublist_filter.
Qed.

(** C4: with the snapshot decoded and the live registers read,
    findMismatchingPCRs fails, and returns no list, as soon as an index of
    the snapshot is not among the live registers; otherwise it returns the
    ascending list, without repetition, of exactly the snapshot indices
    whose live digest differs from the saved one, which is the empty list
    when every saved digest is the live one. *)
Theorem findMismatchingPCRs_spec (savedPCRsFile : string) (w w' : World)
    (content : bytes) (savedPCRs readPCRs : gmap Z bytes) :
  fs w !! savedPCRsFile = Some (File content) →
  gob_decode content = Some savedPCRs →
  readDiskKeySealingPCRs w = (Ok readPCRs, w') →
  ((∃ i, is_Some (savedPCRs !! i) ∧ readPCRs !! i = None) →
   ∃ e, findMismatchingPCRs savedPCRsFile w = (Err e, w'))
  ∧ ((∀ i, is_Some (savedPCRs !! i) → is_Some (readPCRs !! i)) →
     ∃ mismatch,
       findMismatchingPCRs savedPCRsFile w = (Ok mismatch, w')
       ∧ Sorted Z.le mismatch
       ∧ NoDup mismatch
       ∧ (∀ i, i ∈ mismatch ↔
               ∃ saved live, savedPCRs !! i = Some saved
                             ∧ readPCRs !! i = Some live ∧ live ≠ saved)
       ∧ ((∀ i saved, savedPCRs !! i = Some saved → readPCRs !! i = Some saved) →
          mismatch = [])).
Proof.
  intros Hfile Hdec Hread.
  assert (Hrun : findMismatchingPCRs savedPCRsFile w
    = (mismatch <- findMismatchingPCRs_loop (map_range savedPCRs) readPCRs [] ;;
       ret (sort_Ints mismatch)) w').
  { unfold findMismatchingPCRs, os.ReadFile.
    rewrite bind_run, Hfile, Hdec. by rewrite bind_run, Hread. }
  assert (Hentry : ∀ i s, (i, s) ∈ map_range savedPCRs ↔ savedPCRs !! i = Some s).
  { intros i s. rewrite map_range_perm. apply elem_of_map_to_list. }
  split.
  - intros (i & [s Hs] & Hnone).
    destruct (findMismatchingPCRs_loop_missing (map_range savedPCRs) readPCRs [] w' i s)
      as (j & _ & Hloop); [by apply Hentry | done |].
    rewrite Hrun, bind_run, Hloop. eauto.
  - intros Hall. exists (sort_Ints (differing (map_range savedPCRs) readPCRs)).
    assert (Hmem : ∀ i, i ∈ differing (map_range savedPCRs) readPCRs ↔
              ∃ saved live, savedPCRs !! i = Some saved
                            ∧ readPCRs !! i = Some live ∧ live ≠ saved).
    { intros i. rewrite differing_spec. split.
      - intros (s & Hin & Hne). apply Hentry in Hin.
        destruct (Hall i) as [r Hr]; [by eexists|].
        exists s, r. split_and!; [done..|congruence].
      - intros (s & r & Hs & Hr & Hne). exists s. split; [by apply Hentry|].
        congruence. }
    split_and!.
    + rewrite Hrun, bind_run, findMismatchingPCRs_loop_ok; [done|].
      intros i s Hin. apply Hall. exists s. by apply Hentry.
    + apply Sorted_merge_sort. apply _.
    + unfold sort_Ints. rewrite merge_sort_Permutation.
      apply differing_NoDup. rewrite map_range_perm.
      apply NoDup_fst_map_to_list.
    + intros i. unfold sort_Ints. rewrite merge_sort_Permutation. apply Hmem.
    + intros Hsame.
      assert (Hnil : differing (map_range savedPCRs) readPCRs = []).
      { apply elem_of_nil_inv. intros i Hi. apply Hmem in Hi
          as (s & r & Hs & Hr & Hne). apply Hsame in Hs. congruence. }
      by rewrite Hnil.
Qed.

(** *** The rotation of the measurement-log copies *)

Lemma backupCopiedMeasurementLogs_loop_step n i leftToBackup w :
  backupCopiedMeasurementLogs_loop (S n) i leftToBackup w
  = backupCopiedMeasurementLogs_loop n (i + 1)
      (if (rotate_index i w).1 then leftToBackup - 1 else leftToBackup)
      (rotate_index i w).2.
Proof.
  cbn [backupCopiedMeasurementLogs_loop]. unfold rotate_index.
  unfold fileutils.FileExists. rewrite !bind_run. cbn [gets].
  rewrite bind_run. cbn [gets].
  destruct (fs w !! TpmEvtLogSavePattern MeasurementLogSealSuccess i) as [a|] eqn:Ha;
    destruct (fs w !! TpmEvtLogSavePattern MeasurementLogUnsealFail i) as [b|] eqn:Hb.
  2-4: rewrite (bool_decide_eq_false_2 (_ ∧ _)) by (intros [[??] [??]]; congruence).
  2-4: rewrite ?bool_decide_eq_true_2, ?bool_decide_eq_false_2
         by (try (by eexists); by intros [??]); by cbn.
  rewrite !bool_decide_eq_true_2 by (try split; by eexists). cbn [andb].
  rewrite bind_run, attempt_run.
  destruct (os.Rename _ _ w) as [[[]|e1] w1] eqn:Hr1; cbn [fst snd]; [|done].
  rewrite bind_run, attempt_run.
  destruct (os.Rename _ _ w1) as [[[]|e2] w2] eqn:Hr2; cbn [fst snd]; [done|].
  by rewrite bind_run, ignore_run.
Qed.

Lemma backupCopiedMeasurementLogs_loop_spec n i leftToBackup w :
  backupCopiedMeasurementLogs_loop n i leftToBackup w
  = (Ok (leftToBackup - Z.of_nat n + Z.of_nat (length (rotate_all n i w).1)),
     (rotate_all n i w).2).
Proof.
  revert i leftToBackup w. induction n as [|n IH]; intros i leftToBackup w.
  - cbn [backupCopiedMeasurementLogs_loop rotate_all fst snd length]. unfold ret.
    do 2 f_equal. lia.
  - rewrite backupCopiedMeasurementLogs_loop_step, IH. cbn [rotate_all fst snd].
    destruct (rotate_index i w) as [[] w1]; cbn [fst snd length]; do 2 f_equal; lia.
Qed.

Lemma rotate_all_range n i w j :
  j ∈ (rotate_all n i w).1 → i ≤ j < i + Z.of_nat n.
Proof.
  revert i w. induction n as [|n IH]; intros i w; cbn [rotate_all fst].
  - by intros ?%elem_of_nil.
  - destruct (rotate_index i w) as [[] w1]; cbn [fst snd].
    + intros ?%IH. lia.
    + intros [->|?%IH]%elem_of_cons; lia.
Qed.

(** C8: once the devices are counted, each round of the rotation handles
    one device index: without a rename when one of the two copies is
    missing; with the first rename undone, and the index not counted as
    handled, when the second rename fails after the first went through;
    and the call fails exactly when some index failed, with the number of
    failed indices in the error. *)
Theorem backupCopiedMeasurementLogs_spec (w w0 : World) (counted : Z) :
  countMappedTpms w = (Ok counted, w0) →
  let failed := (rotate_all (Z.to_nat counted) 0 w0).1 in
  backupCopiedMeasurementLogs w
  = (if decide (failed = []) then Ok tt
     else Err (VFmt "failed to backup %d number of previously copied TPM measurement logs"
                 [VInt (Z.of_nat (length failed))]),
     (rotate_all (Z.to_nat counted) 0 w0).2)
  ∧ (∀ j, j ∈ failed → 0 ≤ j < counted)
  ∧ (∀ n i leftToBackup w1,
       let sealSuccessPath := TpmEvtLogSavePattern MeasurementLogSealSuccess i in
       let unsealFailPath := TpmEvtLogSavePattern MeasurementLogUnsealFail i in
       let sealSuccessBackupPath := TpmEvtLogCollectPattern sealSuccessPath in
       let unsealFailBackupPath := TpmEvtLogCollectPattern unsealFailPath in
       (fs w1 !! sealSuccessPath = None ∨ fs w1 !! unsealFailPath = None →
        backupCopiedMeasurementLogs_loop (S n) i leftToBackup w1
        = backupCopiedMeasurementLogs_loop n (i + 1) (leftToBackup - 1) w1)
       ∧ (∀ w2 w3 e,
            is_Some (fs w1 !! sealSuccessPath) → is_Some (fs w1 !! unsealFailPath) →
            os.Rename sealSuccessPath sealSuccessBackupPath w1 = (Ok tt, w2) →
            os.Rename unsealFailPath unsealFailBackupPath w2 = (Err e, w3) →
            backupCopiedMeasurementLogs_loop (S n) i leftToBackup w1
            = backupCopiedMeasurementLogs_loop n (i + 1) leftToBackup
                (os.Rename sealSuccessBackupPath sealSuccessPath w3).2)
       ∧ (∀ w2 e,
            is_Some (fs w1 !! sealSuccessPath) → is_Some (fs w1 !! unsealFailPath) →
            os.Rename sealSuccessPath sealSuccessBackupPath w1 = (Err e, w2) →
            backupCopiedMeasurementLogs_loop (S n) i leftToBackup w1
            = backupCopiedMeasurementLogs_loop n (i + 1) leftToBackup w2)
       ∧ (∀ w2 w3,
            is_Some (fs w1 !! sealSuccessPath) → is_Some (fs w1 !! unsealFailPath) →
            os.Rename sealSuccessPath sealSuccessBackupPath w1 = (Ok tt, w2) →
            os.Rename unsealFailPath unsealFailBackupPath w2 = (Ok tt, w3) →
            backupCopiedMeasurementLogs_loop (S n) i leftToBackup w1
            = backupCopiedMeasurementLogs_loop n (i + 1) (leftToBackup - 1) w3)).
Proof.
  intros Hcount failed. split; [|split].
  - unfold backupCopiedMeasurementLogs.
    rewrite bind_run, (on_err_ok _ _ _ _ _ Hcount).
    rewrite bind_run, backupCopiedMeasurementLogs_loop_spec.
    fold failed.
    assert (0 ≤ counted).
    { unfold countMappedTpms in Hcount. apply bind_ok_inv in Hcount
        as (paths & ? & _ & [= <- _]). lia. }
    replace (counted - Z.of_nat (Z.to_nat counted) + Z.of_nat (length failed))
      with (Z.of_nat (length failed)) by lia.
    destruct failed as [|j failed']; [done|].
    rewrite decide_True by (cbn [length]; lia).
    by rewrite decide_False by done.
  - intros j Hj. apply rotate_all_range in Hj.
    unfold countMappedTpms in Hcount. apply bind_ok_inv in Hcount
      as (paths & ? & _ & [= <- _]). lia.
  - intros n i leftToBackup w1 a b a' b'.
    rewrite backupCopiedMeasurementLogs_loop_step. unfold rotate_index.
    fold a b a' b'. split_and!.
    + intros Hmiss. rewrite bool_decide_eq_false_2; [done|].
      intros [[? Ha] [? Hb]]. destruct Hmiss; congruence.
    + intros w2 w3 e Ha Hb Hr1 Hr2. rewrite bool_decide_eq_true_2 by done.
      by rewrite Hr1, Hr2.
    + intros w2 e Ha Hb Hr1. rewrite bool_decide_eq_true_2 by done. by rewrite Hr1.
    + intros w2 w3 Ha Hb Hr1 Hr2. rewrite bool_decide_eq_true_2 by done.
      by rewrite Hr1, Hr2.
Qed.

(** *** The probe of the SHA256 bank and its cache *)

Lemma PCRBankSHA256Enabled_cached w :
  pcrBank256Status w ≠ PCRBank256StatusUnknown →
  PCRBankSHA256Enabled w
  = (Ok (bool_decide (pcrBank256Status w = PCRBank256StatusSupported)), w).
Proof.
  intros Hknown. unfold PCRBankSHA256Enabled.
  rewrite bind_run. cbn [gets]. rewrite decide_False by done.
  by rewrite !bind_run.
Qed.

Lemma pcrBankSHA256EnabledHelper_run w :
  pcrBankSHA256EnabledHelper w
  = (Ok (bool_decide (is_Some (fs w !! DeviceCertName))
         && negb (bool_decide (is_Some (fs w !! DeviceKeyName)))
         && dev_present w
         && bool_decide (is_Some (pcr_bank w !! (tpm2.AlgSHA256, 0)))), w).
Proof.
  unfold pcrBankSHA256EnabledHelper, IsTpmEnabled, fileutils.FileExists.
  rewrite !bind_run. cbn [gets]. rewrite !bind_run. cbn [gets ret].
  destruct (bool_decide (is_Some (fs w !! DeviceCertName)));
    destruct (bool_decide (is_Some (fs w !! DeviceKeyName))); cbn [andb negb];
    try done.
  rewrite bind_run, attempt_run. unfold tpm2.OpenTPM.
  destruct (dev_present w); cbn [fst snd andb]; [|done].
  rewrite defer_Close, bind_run, attempt_run. unfold tpm2.ReadPCR.
  destruct (pcr_bank w !! (tpm2.AlgSHA256, 0)) as [d|] eqn:Hpcr; cbn [fst snd ret is_ok].
  - by rewrite bool_decide_eq_true_2 by by eexists.
  - rewrite bool_decide_eq_false_2; [done|]. by intros [? ?].
Qed.

Lemma PCRBankSHA256Enabled_first w :
  pcrBank256Status w = PCRBank256StatusUnknown →
  let probe := bool_decide (is_Some (fs w !! DeviceCertName))
               && negb (bool_decide (is_Some (fs w !! DeviceKeyName)))
               && dev_present w
               && bool_decide (is_Some (pcr_bank w !! (tpm2.AlgSHA256, 0))) in
  PCRBankSHA256Enabled w
  = (Ok probe,
     set_pcrBank256Status
       (if probe then PCRBank256StatusSupported else PCRBank256StatusNotSupported) w).
Proof.
  intros Hunknown probe. unfold PCRBankSHA256Enabled.
  rewrite bind_run. cbn [gets]. rewrite decide_True by done.
  rewrite bind_run, bind_run, pcrBankSHA256EnabledHelper_run. fold probe.
  destruct probe; unfold modify; by rewrite bind_run.
Qed.

(** The answer of PCRBankSHA256Enabled is kept in pcrBank256Status: once
    the function has answered, it gives the same answer in every state
    with that status, whatever has become of the device and of the files,
    and leaves that state as it is. *)
Theorem PCRBankSHA256Enabled_memoized (w w0 w1 : World) (b : bool) :
  PCRBankSHA256Enabled w = (Ok b, w0) →
  pcrBank256Status w1 = pcrBank256Status w0 →
  pcrBank256Status w0 ≠ PCRBank256StatusUnknown
  ∧ PCRBankSHA256Enabled w1 = (Ok b, w1).
Proof.
  intros Hrun Hstatus.
  assert (Hdecided : pcrBank256Status w0 ≠ PCRBank256StatusUnknown
                     ∧ b = bool_decide (pcrBank256Status w0 = PCRBank256StatusSupported)).
  { destruct (decide (pcrBank256Status w = PCRBank256StatusUnknown)) as [Hu|Hk].
    - rewrite (PCRBankSHA256Enabled_first w Hu) in Hrun. injection Hrun as <- <-.
      by destruct (_ && _ && _ && _).
    - rewrite (PCRBankSHA256Enabled_cached w Hk) in Hrun. by injection Hrun as <- <-. }
  destruct Hdecided as [Hknown ->]. split; [done|].
  rewrite PCRBankSHA256Enabled_cached by congruence. by rewrite Hstatus.
Qed.

(** The first time it is asked, with pcrBank256Status still unknown,
    PCRBankSHA256Enabled answers yes exactly when the device certificate
    exists, the device key file does not, the module can be opened and
    register 0 of the SHA256 bank can be read; it records the answer and
    changes nothing else. *)
Theorem PCRBankSHA256Enabled_first_probe (w : World) :
  pcrBank256Status w = PCRBank256StatusUnknown →
  ∃ b : bool,
    PCRBankSHA256Enabled w
    = (Ok b, set_pcrBank256Status
               (if b then PCRBank256StatusSupported else PCRBank256StatusNotSupported) w)
    ∧ (b = true ↔
       is_Some (fs w !! DeviceCertName) ∧ fs w !! DeviceKeyName = None
       ∧ dev_present w = true ∧ is_Some (pcr_bank w !! (tpm2.AlgSHA256, 0))).
Proof.
  intros Hunknown. eexists. split; [by apply PCRBankSHA256Enabled_first|].
  rewrite !andb_true_iff, negb_true_iff, !bool_decide_eq_true, bool_decide_eq_false.
  rewrite <-eq_None_not_Some. tauto.
Qed.

(** *** The legacy key *)

Lemma writeDiskKey_ok key w :
  dev_present w = true → Z.of_nat (length key) < 65536 →
  writeDiskKey key w
  = (Ok tt, set_nv (<[TpmDiskKeyHdl := NvEntry (Z.of_nat (length key)) (Some key)]>) w).
Proof.
  intros Hdev Hlen. unfold writeDiskKey.
  rewrite bind_run, (OpenTPM_ok _ _ Hdev), defer_Close.
  rewrite bind_run, ignore_run, NVUndefineSpace_state. cbn [fst snd].
  rewrite bind_run. unfold on_err at 1.
  rewrite NVDefineSpace_ok by (cbn; apply lookup_delete_eq).
  rewrite bind_run. unfold on_err at 1.
  destruct (NVWrite_fresh TpmDiskKeyHdl key
              (set_nv (<[TpmDiskKeyHdl := NvEntry (uint16 (Z.of_nat (length key))) None]>)
                 (set_nv (delete TpmDiskKeyHdl) w))) as [[_ ->]|[? _]];
    [cbn; apply lookup_insert_eq| |lia].
  unfold ret. f_equal. destruct w; unfold set_nv; cbn. f_equal.
  by rewrite insert_insert_eq, insert_delete_eq.
Qed.

Lemma readDiskKey_ext w w' :
  dev_present w' = dev_present w →
  nv w' !! TpmDiskKeyHdl = nv w !! TpmDiskKeyHdl →
  (readDiskKey w').1 = (readDiskKey w).1.
Proof.
  intros Hdev Hnv. unfold readDiskKey. rewrite !bind_run. unfold tpm2.OpenTPM.
  rewrite Hdev. destruct (dev_present w); [|done]. rewrite !defer_Close, !bind_run.
  unfold on_err, tpm2.NVReadEx. rewrite Hnv.
  by destruct (nv w !! TpmDiskKeyHdl) as [[? [?|]]|].
Qed.

(** When writeDiskKey returns without an error, the key that it was given
    is the key that readDiskKey returns afterwards, whatever the legacy
    index held before, and every other NV index is left as it was. *)
Theorem writeDiskKey_readDiskKey (key : bytes) (w w' : World) :
  writeDiskKey key w = (Ok tt, w') →
  readDiskKey w' = (Ok key, w')
  ∧ (∀ index, index ≠ TpmDiskKeyHdl → nv w' !! index = nv w !! index).
Proof.
  intros Hwrite. pose proof Hwrite as [_ ->]%writeDiskKey_ok_inv. split.
  - eapply readDiskKey_ok; [|cbn; apply lookup_insert_eq].
    unfold writeDiskKey in Hwrite. by apply bind_ok_inv in Hwrite
      as ([] & ? & [? ->]%OpenTPM_ok_inv & _).
  - intros index Hne. cbn. by rewrite lookup_insert_ne.
Qed.


Lemma FetchVaultKey_stable_run w key w' :
  FetchVaultKey w = (Ok key, w') → readDiskKey w' = (Ok key, w').
Proof.
  unfold FetchVaultKey. rewrite bind_run, attempt_run, readDiskKey_state.
  destruct (readDiskKey w).1 as [k|e] eqn:Hread.
  - intros [= <- <-]. by rewrite (readDiskKey_run w), Hread.
  - intros Hrun. apply bind_ok_inv in Hrun as (k & w1 & Hrand%on_err_ok_inv & Hrun).
    apply bind_ok_inv in Hrun as ([] & w2 & Hwrite%on_err_ok_inv & [= <- <-]).
    pose proof Hwrite as [_ ->]%writeDiskKey_ok_inv.
    eapply readDiskKey_ok; [|cbn; apply lookup_insert_eq].
    unfold writeDiskKey in Hwrite. by apply bind_ok_inv in Hwrite
      as ([] & ? & [? ->]%OpenTPM_ok_inv & _).
Qed.

Lemma FetchVaultKey_again w key :
  readDiskKey w = (Ok key, w) → FetchVaultKey w = (Ok key, w).
Proof.
  intros Hread. unfold FetchVaultKey.
  by rewrite bind_run, attempt_run, Hread.
Qed.

(** The key that FetchVaultKey returns is the legacy key from then on: a
    further call returns the same key and changes nothing, so that no
    second key is ever generated over the first. *)
Theorem FetchVaultKey_stable (w w' : World) (key : bytes) :
  FetchVaultKey w = (Ok key, w') → FetchVaultKey w' = (Ok key, w').
Proof. intros Hrun. by apply FetchVaultKey_again, (FetchVaultKey_stable_run w). Qed.

(** When the legacy key cannot be read on a working module, for whatever
    reason, FetchVaultKey returns the next 32 bytes of the RNG of the
    module and stores them as the legacy key, over what the index held;
    a later read gives them back. *)
Theorem FetchVaultKey_generates (w : World) (e : error) :
  dev_present w = true →
  (readDiskKey w).1 = Err e →
  (32 ≤ length (rng_pool w))%nat →
  let key := take 32 (rng_pool w) in
  let w' := set_nv (<[TpmDiskKeyHdl := NvEntry 32 (Some key)]>)
              (set_rng_pool (drop 32 (rng_pool w)) w) in
  FetchVaultKey w = (Ok key, w')
  ∧ length key = 32%nat
  ∧ readDiskKey w' = (Ok key, w').
Proof.
  intros Hdev Hread Hpool key w'.
  assert (Hlen : length key = 32%nat) by (unfold key; rewrite length_take; lia).
  assert (Hrand : GetRandom vaultKeyLength w
                  = (Ok key, set_rng_pool (drop 32 (rng_pool w)) w)).
  { unfold GetRandom. rewrite bind_run, (OpenTPM_ok _ _ Hdev), defer_Close.
    unfold tpm2.GetRandom. change (Z.to_nat vaultKeyLength) with 32%nat.
    by rewrite decide_True by done. }
  split_and!; [|done|].
  - unfold FetchVaultKey. rewrite bind_run, attempt_run, readDiskKey_state, Hread.
    rewrite bind_run, (on_err_ok _ _ _ _ _ Hrand).
    rewrite bind_run. unfold on_err at 1.
    rewrite writeDiskKey_ok by (rewrite ?Hlen; done || lia).
    by rewrite Hlen.
  - by eapply readDiskKey_ok; [|cbn; apply lookup_insert_eq].
Qed.

(** *** Wiping the sealed key *)

Lemma sealed_present_false_None w :
  nv w !! TpmSealedDiskPrivHdl = None → sealed_present w = false.
Proof.
  intros Hnone. unfold sealed_present, tpm2.NVReadEx. rewrite Hnone.
  apply andb_false_r.
Qed.

(** With the module there, WipeOutStaleSealedKeyIfAny returns without an
    error whether or not a sealed key exists; afterwards both sealed NV
    indices are undefined and every other index is as before, so that
    isSealedKeyPresent is false, UnsealDiskKey fails, the legacy key reads
    as it did, and CompareLegacyandSealedKey answers
    SealedKeyTypeUnprotected. *)
Theorem WipeOutStaleSealedKeyIfAny_wipes (w : World) (pcrSel : PCRSelection) :
  dev_present w = true →
  let w' := set_nv (λ m, delete TpmSealedDiskPrivHdl (delete TpmSealedDiskPubHdl m)) w in
  WipeOutStaleSealedKeyIfAny w = (Ok tt, w')
  ∧ isSealedKeyPresent w' = (Ok false, w')
  ∧ (UnsealDiskKey pcrSel w').1
    = Err (VFmt "NVReadEx %v failed: %v" [VInt TpmSealedDiskPrivHdl; VErr "TPM_RC_HANDLE"])
  ∧ (readDiskKey w').1 = (readDiskKey w).1
  ∧ CompareLegacyandSealedKey w' = (Ok SealedKeyTypeUnprotected, w').
Proof.
  intros Hdev w'.
  assert (Hpriv : nv w' !! TpmSealedDiskPrivHdl = None) by (cbn; apply lookup_delete_eq).
  assert (Hsealed : isSealedKeyPresent w' = (Ok false, w')).
  { by rewrite isSealedKeyPresent_run, sealed_present_false_None. }
  split_and!.
  - unfold WipeOutStaleSealedKeyIfAny.
    rewrite bind_run, (OpenTPM_ok _ _ Hdev), defer_Close.
    rewrite bind_run, ignore_run, NVUndefineSpace_state. cbn [fst snd].
    rewrite bind_run, ignore_run, NVUndefineSpace_state. cbn [fst snd].
    by destruct w.
  - done.
  - unfold UnsealDiskKey. rewrite bind_run, OpenTPM_ok by done.
    rewrite defer_Close, bind_run. unfold on_err, tpm2.NVReadEx. by rewrite Hpriv.
  - apply readDiskKey_ext; [done|]. cbn. by rewrite !lookup_delete_ne.
  - unfold CompareLegacyandSealedKey. by rewrite bind_run, Hsealed.
Qed.

(** *** What a successful unseal tells *)

Lemma defer_ok_inv {A} (cleanup : M unit) (body : M A) w a w' :
  defer cleanup body w = (Ok a, w') →
  ∃ w1, body w = (Ok a, w1) ∧ w' = (cleanup w1).2.
Proof.
  rewrite defer_run. destruct (body w) as [r w1]. cbn. intros [= -> <-]. eauto.
Qed.

Lemma UnsealDiskKey_ok_inv key pcrSel w w' :
  UnsealDiskKey pcrSel w = (Ok key, w') → holds_sealed key pcrSel w.
Proof.
  unfold UnsealDiskKey. intros Hrun.
  apply bind_ok_inv in Hrun as ([] & w0 & [Hdev ->]%OpenTPM_ok_inv & Hrun).
  rewrite defer_Close in Hrun.
  apply bind_ok_inv in Hrun as (priv & w0 & Hpriv%on_err_ok_inv & Hrun).
  apply NVReadEx_ok_inv in Hpriv as [-> [sp Hpriv]].
  apply bind_ok_inv in Hrun as (pub & w0 & Hpub%on_err_ok_inv & Hrun).
  apply NVReadEx_ok_inv in Hpub as [-> [sq Hpub]].
  apply bind_ok_inv in Hrun as (h & w1 & Hload%on_err_ok_inv & Hrun).
  unfold tpm2.Load in Hload.
  destruct (decide (TpmSRKHdl ∈ persistent w)) as [Hsrk|]; [|done].
  injection Hload as <- <-.
  apply defer_ok_inv in Hrun as (w2 & Hrun & _).
  apply bind_ok_inv in Hrun as (sp' & w3 & Hsess%on_err_ok_inv & Hrun).
  apply defer_ok_inv in Hrun as (w4 & Hrun & _).
  set (w1 := set_next_handle _ _) in *.
  destruct (tpm2.read_selection pcrSel w) as [vs|] eqn:Hsel.
  2:{ pose proof (PolicyPCRSession_err pcrSel w1 Hsel) as Herr.
      by rewrite Hsess in Herr. }
  rewrite (PolicyPCRSession_ok pcrSel w1 vs Hsel) in Hsess.
  injection Hsess as <- <-. cbn [fst] in Hrun.
  rewrite bind_run, attempt_run in Hrun.
  unfold tpm2.UnsealWithSession, with_session in Hrun. cbn in Hrun.
  rewrite lookup_insert_eq, lookup_insert_eq in Hrun. cbn in Hrun.
  destruct (decide (concat vs = pub)) as [<-|]; cbn in Hrun.
  - injection Hrun as <- _. split_and!; [done..|]. by exists vs, sp, sq.
  - by destruct (findMismatchingPCRs _ _).1.
Qed.

(** *** The package variable is only written by the probe *)



(** *** What sealing and unsealing leave alone *)

Lemma respects_only_files_blind {A X} touch (proj : World → X) (c : M A) :
  (∀ w, proj (no_fs w) = proj w) →
  respects (only_files touch) c → respects (same proj) c.
Proof.
  intros Hblind Hc w. destruct (Hc w) as [Hno _]. unfold same.
  by rewrite <-(Hblind (c w).2), Hno, Hblind.
Qed.

(** A command, unfolded, leaves a projection of the state alone. *)
Ltac same_command :=
  intros w;
  unfold tpm2.NVUndefineSpace, tpm2.NVDefineSpace, tpm2.NVWrite, tpm2.StartAuthSession,
    tpm2.PolicyPCR, tpm2.FlushContext, tpm2.Load, tpm2.GetRandom,
    fileutils.WriteRename;
  repeat case_match; try reflexivity;
  unfold same, beside_seal, beside_unseal; cbn;
  rewrite ?lookup_insert_ne, ?lookup_delete_ne by done; reflexivity.

Lemma respects_beside_seal_PolicyPCRSession pcrSel :
  respects (same beside_seal) (PolicyPCRSession pcrSel).
Proof. unfold PolicyPCRSession. respects_tac; same_command. Qed.

Lemma respects_beside_seal_archivist (c : M unit) :
  respects (only_files log_copy) c → respects (same beside_seal) c.
Proof. by apply respects_only_files_blind. Qed.

Lemma respects_beside_seal_SealDiskKey key pcrSel :
  respects (same beside_seal) (SealDiskKey key pcrSel).
Proof.
  unfold SealDiskKey, saveDiskKeySealingPCRs. respects_tac;
    try (apply respects_beside_seal_PolicyPCRSession);
    try (apply respects_readDiskKeySealingPCRs, _);
    try same_command.
  - apply respects_beside_seal_archivist, respects_backupCopiedMeasurementLogs.
  - apply respects_beside_seal_archivist, respects_removeCopiedMeasurementLogs.
  - apply respects_beside_seal_archivist, respects_copyMeasurementLog,
      log_copy_seal_success.
Qed.

Lemma respects_beside_unseal_PolicyPCRSession pcrSel :
  respects (same beside_unseal) (PolicyPCRSession pcrSel).
Proof. unfold PolicyPCRSession. respects_tac; same_command. Qed.

Lemma respects_beside_unseal_UnsealDiskKey pcrSel :
  respects (same beside_unseal) (UnsealDiskKey pcrSel).
Proof.
  unfold UnsealDiskKey. respects_tac;
    try (apply respects_beside_unseal_PolicyPCRSession);
    try (apply respects_findMismatchingPCRs, _);
    try same_command.
  eapply respects_only_files_blind; [done|].
  apply respects_copyMeasurementLog, log_copy_unseal_fail.
Qed.

(** Whatever they return, SealDiskKey leaves the legacy key index, the
    registers, the persistent keys and the RNG as they were, and
    UnsealDiskKey leaves all of NV, the registers, the persistent
    keys and the RNG as they were: sealing clones the legacy key and never
    replaces it, and unsealing only reads. *)
Theorem seal_unseal_leave_alone (key : bytes) (pcrSel : PCRSelection) (w : World) :
  beside_seal (SealDiskKey key pcrSel w).2 = beside_seal w
  ∧ beside_unseal (UnsealDiskKey pcrSel w).2 = beside_unseal w.
Proof.
  split; [apply respects_beside_seal_SealDiskKey|apply respects_beside_unseal_UnsealDiskKey].
Qed.

(** *** The key is the same from one call to the next *)

Lemma PCRBankSHA256Enabled_total w :
  ∃ w0, PCRBankSHA256Enabled w
        = (Ok (bool_decide (pcrBank256Status w0 = PCRBank256StatusSupported)), w0)
        ∧ pcrBank256Status w0 ≠ PCRBank256StatusUnknown.
Proof.
  destruct (decide (pcrBank256Status w = PCRBank256StatusUnknown)) as [Hu|Hk].
  - rewrite (PCRBankSHA256Enabled_first w Hu).
    destruct (_ && _ && _ && _).
    + by exists (set_pcrBank256Status PCRBank256StatusSupported w).
    + by exists (set_pcrBank256Status PCRBank256StatusNotSupported w).
  - exists w. by rewrite (PCRBankSHA256Enabled_cached w Hk).
Qed.

Lemma respects_status_FetchVaultKey : respects (same pcrBank256Status) FetchVaultKey.
Proof.
  unfold FetchVaultKey, GetRandom, writeDiskKey. respects_tac;
    try (apply respects_readDiskKey, _); same_command.
Qed.

Lemma respects_status_GetRandom numBytes :
  respects (same pcrBank256Status) (GetRandom numBytes).
Proof. unfold GetRandom. respects_tac. same_command. Qed.

Lemma SealDiskKey_status key pcrSel w :
  pcrBank256Status (SealDiskKey key pcrSel w).2 = pcrBank256Status w.
Proof.
  pose proof (respects_beside_seal_SealDiskKey key pcrSel w) as Hsame.
  by injection Hsame.
Qed.

Lemma UnsealDiskKey_status pcrSel w :
  pcrBank256Status (UnsealDiskKey pcrSel w).2 = pcrBank256Status w.
Proof.
  pose proof (respects_beside_unseal_UnsealDiskKey pcrSel w) as Hsame.
  by injection Hsame.
Qed.

Lemma FetchSealedVaultKey_ok_inv w w0 key w' :
  PCRBankSHA256Enabled w = (Ok true, w0) →
  FetchSealedVaultKey w = (Ok key, w') →
  ∃ w1, UnsealDiskKey DiskKeySealingPCRs w1 = (Ok key, w')
        ∧ pcrBank256Status w1 = pcrBank256Status w0.
Proof.
  intros Henabled. unfold FetchSealedVaultKey.
  rewrite bind_run, Henabled. cbn [negb].
  rewrite bind_run, isSealedKeyPresent_run.
  rewrite bind_run, isLegacyKeyPresent_run.
  destruct (sealed_present w0) eqn:Hsealed; cbn [negb andb].
  - rewrite !bind_run. cbn [ret]. intros Hun. by exists w0.
  - destruct (is_ok (readDiskKey w0).1) eqn:Hlegacy; cbn [negb andb].
    + rewrite bind_run. cbn [ret]. intros Hrun.
      apply bind_ok_inv in Hrun as ([] & w1 & Hseal & Hun).
      apply bind_ok_inv in Hseal as (legacy & w2 & Hread%on_err_ok_inv & Hseal%on_err_ok_inv).
      assert (w2 = w0) as -> by (by rewrite <-(readDiskKey_state w0), Hread).
      exists w1. split; [done|].
      by rewrite <-(SealDiskKey_status legacy DiskKeySealingPCRs w0), Hseal.
    + intros Hrun.
      apply bind_ok_inv in Hrun as ([] & w1 & Hseal & Hun).
      apply bind_ok_inv in Hseal as (fresh & wr & Hrand%on_err_ok_inv & Hseal%on_err_ok_inv).
      rewrite bind_run in Hun. cbn [ret] in Hun.
      exists w1. split; [done|].
      pose proof (SealDiskKey_status fresh DiskKeySealingPCRs wr) as Hs.
      rewrite Hseal in Hs. cbn [snd] in Hs. rewrite Hs.
      pose proof (respects_status_GetRandom vaultKeyLength w0) as Hsame.
      by rewrite Hrand in Hsame.
Qed.

Lemma holds_sealed_present key pcrSel w :
  holds_sealed key pcrSel w → sealed_present w = true.
Proof.
  intros (Hdev & _ & vs & sp & sq & _ & Hpriv & _).
  unfold sealed_present. by rewrite Hdev, (NVReadEx_ok _ _ _ _ Hpriv).
Qed.

Lemma FetchSealedVaultKey_sealed key w :
  pcrBank256Status w = PCRBank256StatusSupported →
  holds_sealed key DiskKeySealingPCRs w →
  FetchSealedVaultKey w = UnsealDiskKey DiskKeySealingPCRs w.
Proof.
  intros Hstatus Hheld. unfold FetchSealedVaultKey.
  rewrite bind_run, PCRBankSHA256Enabled_cached by congruence.
  rewrite Hstatus, bool_decide_eq_true_2 by done. cbn [negb].
  rewrite bind_run, isSealedKeyPresent_run, (holds_sealed_present _ _ _ Hheld).
  rewrite bind_run, isLegacyKeyPresent_run. cbn [negb andb].
  by rewrite !bind_run.
Qed.

(** The key that FetchSealedVaultKey returns is the vault key from then
    on: called again in the state it left, it returns the same key, be it
    the legacy key (no SHA256 bank) or the key it unseals. *)
Theorem FetchSealedVaultKey_stable (w w' : World) (key : bytes) :
  FetchSealedVaultKey w = (Ok key, w') →
  ∃ w'', FetchSealedVaultKey w' = (Ok key, w'').
Proof.
  intros Hrun. destruct (PCRBankSHA256Enabled_total w) as (w0 & Henabled & Hknown).
  destruct (decide (pcrBank256Status w0 = PCRBank256StatusSupported)) as [Hsup|Hnot].
  - rewrite bool_decide_eq_true_2 in Henabled by done.
    destruct (FetchSealedVaultKey_ok_inv _ _ _ _ Henabled Hrun) as (w1 & Hun & Hstatus).
    assert (Hheld : holds_sealed key DiskKeySealingPCRs w').
    { eapply holds_sealed_core; [|by eapply UnsealDiskKey_ok_inv].
      pose proof (respects_core_UnsealDiskKey DiskKeySealingPCRs w1) as Hcore.
      by rewrite Hun in Hcore. }
    assert (Hstatus' : pcrBank256Status w' = PCRBank256StatusSupported).
    { rewrite <-Hsup, <-Hstatus, <-(UnsealDiskKey_status DiskKeySealingPCRs w1).
      by rewrite Hun. }
    rewrite (FetchSealedVaultKey_sealed key) by done.
    by apply UnsealDiskKey_ok.
  - rewrite bool_decide_eq_false_2 in Henabled by done.
    assert (Hlegacy : FetchVaultKey w0 = (Ok key, w')).
    { rewrite <-Hrun. unfold FetchSealedVaultKey. by rewrite bind_run, Henabled. }
    assert (Hstatus' : pcrBank256Status w' = pcrBank256Status w0).
    { pose proof (respects_status_FetchVaultKey w0) as Hsame.
      by rewrite Hlegacy in Hsame. }
    exists w'. unfold FetchSealedVaultKey.
    rewrite bind_run, PCRBankSHA256Enabled_cached by congruence.
    rewrite Hstatus', bool_decide_eq_false_2 by done. cbn [negb].
    by apply FetchVaultKey_again, (FetchVaultKey_stable_run w0).
Qed.

(** On a fresh install, with the SHA256 bank supported and neither key in
    NV, when sealing goes through, FetchSealedVaultKey returns the 32
    bytes that the RNG of the module yields next; it creates no legacy
    key; and CompareLegacyandSealedKey then answers SealedKeyTypeNew,
    without an unseal. *)
Theorem FetchSealedVaultKey_fresh_install (w w0 wr w1 : World) (key : bytes) :
  PCRBankSHA256Enabled w = (Ok true, w0) →
  isSealedKeyPresent w0 = (Ok false, w0) →
  isLegacyKeyPresent w0 = (Ok false, w0) →
  GetRandom vaultKeyLength w0 = (Ok key, wr) →
  SealDiskKey key DiskKeySealingPCRs wr = (Ok tt, w1) →
  ∃ w2,
    FetchSealedVaultKey w = (Ok key, w2)
    ∧ length key = 32%nat
    ∧ key = take 32 (rng_pool w)
    ∧ isLegacyKeyPresent w2 = (Ok false, w2)
    ∧ CompareLegacyandSealedKey w2 = (Ok SealedKeyTypeNew, w2).
Proof.
  intros Henabled Hsealed Hlegacy Hrand Hseal.
  rewrite isSealedKeyPresent_run in Hsealed. injection Hsealed as Hsealed.
  rewrite isLegacyKeyPresent_run in Hlegacy. injection Hlegacy as Hlegacy.
  assert (Hheld : holds_sealed key DiskKeySealingPCRs w1).
  { eapply SealDiskKey_holds_sealed; [exact Hseal|by left]. }
  destruct (UnsealDiskKey_ok _ _ _ Hheld) as (w2 & Hun).
  assert (Hheld2 : holds_sealed key DiskKeySealingPCRs w2).
  { eapply holds_sealed_core; [|exact Hheld].
    pose proof (respects_core_UnsealDiskKey DiskKeySealingPCRs w1) as Hcore.
    by rewrite Hun in Hcore. }
  pose proof Hrand as (Hkey & Hpool & ->)%GetRandom_ok_inv.
  change (Z.to_nat vaultKeyLength) with 32%nat in *.
  assert (Hread2 : (readDiskKey w2).1 = (readDiskKey w0).1).
  { pose proof (respects_beside_unseal_UnsealDiskKey DiskKeySealingPCRs w1) as Hu.
    rewrite Hun in Hu. injection Hu as Hnv _ _ Hdev _ _ _.
    pose proof (respects_beside_seal_SealDiskKey key DiskKeySealingPCRs
                  (set_rng_pool (drop 32 (rng_pool w0)) w0)) as Hs.
    rewrite Hseal in Hs. injection Hs as Hnv1 _ _ Hdev1 _ _ _.
    cbn [snd] in *. apply readDiskKey_ext; [congruence|]. by rewrite Hnv, Hnv1. }
  exists w2. split_and!.
  - unfold FetchSealedVaultKey. rewrite bind_run, Henabled. cbn [negb].
    rewrite bind_run, isSealedKeyPresent_run, Hsealed.
    rewrite bind_run, isLegacyKeyPresent_run, Hlegacy. cbn [negb andb].
    rewrite bind_run, bind_run, (on_err_ok _ _ _ _ _ Hrand).
    rewrite (on_err_ok _ _ _ _ _ Hseal). by rewrite bind_run.
  - rewrite Hkey, length_take. lia.
  - rewrite Hkey. f_equal.
    pose proof (respects_PCRBankSHA256Enabled w) as Hsame.
    rewrite Henabled in Hsame. exact (f_equal rng_pool Hsame).
  - by rewrite isLegacyKeyPresent_run, Hread2, Hlegacy.
  - unfold CompareLegacyandSealedKey.
    rewrite bind_run, isSealedKeyPresent_run, (holds_sealed_present _ _ _ Hheld2).
    cbn [negb]. rewrite bind_run, attempt_run, readDiskKey_state.
    destruct (readDiskKey w2).1 eqn:Hr; [|done].
    by rewrite <-Hread2 in Hlegacy.
Qed.

(** *** The diagnosis against the snapshot of the last seal *)

Lemma findMismatchingPCRs_against m w0 w :
  sealing_registers w0 m →
  fs w !! TpmSavedDiskSealingPcrs = Some (File (gob_encode m)) →
  dev_present w = true →
  (∀ i, i ∈ PCRs DiskKeySealingPCRs → is_Some (pcr_bank w !! (tpm2.AlgSHA256, i))) →
  ∃ mismatch,
    findMismatchingPCRs TpmSavedDiskSealingPcrs w = (Ok mismatch, w)
    ∧ Sorted Z.le mismatch
    ∧ NoDup mismatch
    ∧ (∀ i, i ∈ mismatch ↔
            i ∈ PCRs DiskKeySealingPCRs
            ∧ pcr_bank w !! (tpm2.AlgSHA256, i) ≠ pcr_bank w0 !! (tpm2.AlgSHA256, i)).
Proof.
  intros [Hm Hsome] Hfile Hdev Hlive.
  destruct (readDiskKeySealingPCRs_ok w Hdev Hlive) as (live & Hread).
  destruct (readDiskKeySealingPCRs_ok_inv _ _ _ Hread) as (_ & _ & [Hl _]).
  assert (Hentry : ∀ i s, (i, s) ∈ map_range m ↔ m !! i = Some s).
  { intros i s. rewrite map_range_perm. apply elem_of_map_to_list. }
  exists (sort_Ints (differing (map_range m) live)). split_and!.
  - unfold findMismatchingPCRs, os.ReadFile.
    rewrite bind_run, Hfile, gob_decode_encode, bind_run, Hread.
    rewrite bind_run, findMismatchingPCRs_loop_ok; [done|].
    intros i s Hin%Hentry. rewrite Hl. rewrite Hm in Hin.
    case_decide; [by apply Hlive|done].
  - apply Sorted_merge_sort, _.
  - unfold sort_Ints. rewrite merge_sort_Permutation.
    apply differing_NoDup. rewrite map_range_perm. apply NoDup_fst_map_to_list.
  - intros i. unfold sort_Ints. rewrite merge_sort_Permutation, differing_spec.
    split.
    + intros (s & Hin%Hentry & Hne). rewrite Hm in Hin. rewrite Hl in Hne.
      case_decide; [|done]. split; [done|]. congruence.
    + intros [Hi Hne]. destruct (Hsome i Hi) as [s Hs]. exists s. split.
      * apply Hentry. by rewrite Hm, decide_True.
      * rewrite Hl, decide_True by done. congruence.
Qed.

(** After a seal that went through, under whatever selection, the
    diagnoser finds exactly the registers of DiskKeySealingPCRs that have
    changed since: run in a state that still has the snapshot file and
    where the module reads all these registers, findMismatchingPCRs returns
    the ascending list of those whose value is no longer the one at the
    seal, and the empty list when none has changed. *)
Theorem findMismatchingPCRs_after_seal (key : bytes) (pcrSel : PCRSelection)
    (w w1 w2 : World) :
  SealDiskKey key pcrSel w = (Ok tt, w1) →
  fs w2 !! TpmSavedDiskSealingPcrs = fs w1 !! TpmSavedDiskSealingPcrs →
  dev_present w2 = true →
  (∀ i, i ∈ PCRs DiskKeySealingPCRs → is_Some (pcr_bank w2 !! (tpm2.AlgSHA256, i))) →
  ∃ mismatch,
    findMismatchingPCRs TpmSavedDiskSealingPcrs w2 = (Ok mismatch, w2)
    ∧ Sorted Z.le mismatch
    ∧ NoDup mismatch
    ∧ (∀ i, i ∈ mismatch ↔
            i ∈ PCRs DiskKeySealingPCRs
            ∧ pcr_bank w2 !! (tpm2.AlgSHA256, i) ≠ pcr_bank w !! (tpm2.AlgSHA256, i))
    ∧ ((∀ i, i ∈ PCRs DiskKeySealingPCRs →
             pcr_bank w2 !! (tpm2.AlgSHA256, i) = pcr_bank w !! (tpm2.AlgSHA256, i)) →
       mismatch = []).
Proof.
  intros Hseal Hfile Hdev Hlive.
  destruct (SealDiskKey_stored _ _ _ _ _ Hseal) as (ws & Hst & _ & Hfr); [by left|].
  destruct (stored_snapshot _ _ _ _ Hst) as (m & Hm & Hfs).
  assert (Hsnap : fs w2 !! TpmSavedDiskSealingPcrs = Some (File (gob_encode m))).
  { rewrite Hfile. destruct Hfr as [_ Hfiles].
    rewrite Hfiles by apply snapshot_not_log_copy. rewrite Hfs. apply lookup_insert_eq. }
  destruct (findMismatchingPCRs_against m w w2 Hm Hsnap Hdev Hlive)
    as (mismatch & Hrun & Hsorted & Hnodup & Hmem).
  exists mismatch. split_and!; [done..|].
  intros Hsame. apply elem_of_nil_inv. intros i [Hi Hne]%Hmem. by apply Hne, Hsame.
Qed.

(** *** UnsealDiskKey, from the blobs to its answer *)

Lemma UnsealDiskKey_loaded pcrSel w priv pub sp sq vs :
  dev_present w = true →
  nv w !! TpmSealedDiskPrivHdl = Some (NvEntry sp (Some priv)) →
  nv w !! TpmSealedDiskPubHdl = Some (NvEntry sq (Some pub)) →
  TpmSRKHdl ∈ persistent w →
  tpm2.read_selection pcrSel w = Some vs →
  let w2 := with_session (concat vs) (with_object pub priv w) in
  let copied := copyMeasurementLog MeasurementLogUnsealFail w2 in
  let diagnosed := findMismatchingPCRs TpmSavedDiskSealingPcrs copied.2 in
  let evtLogStat :=
    match copied.1 with
    | Ok _ => VStr "copied (failed unseal) TPM measurement log"
    | Err errEvtLog =>
        VFmt "copying (failed unseal) TPM measurement log failed: %v" [errEvtLog]
    end in
  UnsealDiskKey pcrSel w
  = if decide (concat vs = pub) then (Ok priv, released (next_handle w) w2)
    else (Err (match diagnosed.1 with
               | Err errPcrMiss =>
                   VFmt "UnsealWithSession failed: %w, %s, finding mismatching PCR failed: %v"
                     [VErr "TPM_RC_POLICY_FAIL"; evtLogStat; errPcrMiss]
               | Ok mismatch =>
                   VFmt "UnsealWithSession failed: %w, %s, possibly mismatching PCR indexes: %v"
                     [VErr "TPM_RC_POLICY_FAIL"; evtLogStat; VInts mismatch]
               end),
          released (next_handle w) diagnosed.2).
Proof.
  intros Hdev Hpriv Hpub Hsrk Hsel w2 copied diagnosed evtLogStat.
  unfold UnsealDiskKey. rewrite bind_run, (OpenTPM_ok _ _ Hdev), defer_Close.
  rewrite bind_run. unfold on_err at 1. rewrite (NVReadEx_ok _ _ _ _ Hpriv).
  rewrite bind_run. unfold on_err at 1. rewrite (NVReadEx_ok _ _ _ _ Hpub).
  rewrite bind_run. unfold on_err at 1. rewrite (Load_ok _ _ _ _ Hsrk).
  fold (with_object pub priv w).
  unfold defer at 1. rewrite bind_run. unfold on_err at 1.
  rewrite (PolicyPCRSession_ok pcrSel (with_object pub priv w) vs Hsel).
  cbn [fst snd]. unfold defer at 1. rewrite bind_run, attempt_run.
  fold w2.
  assert (Hun : tpm2.UnsealWithSession (next_handle (with_object pub priv w))
                  (next_handle w) w2
                = (if decide (concat vs = pub) then Ok priv
                   else Err (VErr "TPM_RC_POLICY_FAIL"), w2)).
  { unfold tpm2.UnsealWithSession, w2, with_session, with_object. cbn.
    rewrite lookup_insert_eq, lookup_insert_eq. cbn. by case_decide. }
  rewrite Hun. cbn [fst snd]. unfold released.
  change (next_handle (with_object pub priv w)) with (next_handle w + 1).
  case_decide; [done|].
  rewrite bind_run, attempt_run. fold copied.
  rewrite bind_run, attempt_run. fold diagnosed. fold evtLogStat.
  by destruct (diagnosed.1).
Qed.

Lemma concat_inj_length {A} (n : nat) (l1 l2 : list (list A)) :
  Forall (λ v, length v = n) l1 → Forall (λ v, length v = n) l2 →
  length l1 = length l2 → concat l1 = concat l2 → l1 = l2.
Proof.
  intros H1. revert l2. induction H1 as [|v1 l1 Hv1 _ IH]; intros l2 H2 Hlen Hcat.
  - by destruct l2.
  - destruct H2 as [|v2 l2 Hv2 H2]; [done|]. cbn in Hcat, Hlen.
    apply app_inj_1 in Hcat as [-> Hcat]; [|congruence].
    f_equal. apply IH; [done|lia|done].
Qed.

Lemma read_selection_lookup pcrSel w vs :
  tpm2.read_selection pcrSel w = Some vs →
  Forall2 (λ i v, pcr_bank w !! (Hash pcrSel, i) = Some v) (PCRs pcrSel) vs.
Proof. unfold tpm2.read_selection. by rewrite mapM_Some. Qed.

Lemma read_selection_lengths pcrSel w vs (n : nat) :
  tpm2.read_selection pcrSel w = Some vs →
  (∀ i d, i ∈ PCRs pcrSel → pcr_bank w !! (Hash pcrSel, i) = Some d → length d = n) →
  Forall (λ v, length v = n) vs.
Proof.
  intros Hsel%read_selection_lookup. induction Hsel as [|i v l vs' Hi _ IH]; intros Hlen.
  - constructor.
  - constructor; [by eapply Hlen; [left|]|]. apply IH. intros j d Hj. apply Hlen. by right.
Qed.

Lemma read_selection_all pcrSel w :
  (∀ i, i ∈ PCRs pcrSel → is_Some (pcr_bank w !! (Hash pcrSel, i))) →
  is_Some (tpm2.read_selection pcrSel w).
Proof.
  intros Hall. unfold tpm2.read_selection. apply mapM_is_Some, Forall_forall.
  intros i Hi. by apply Hall.
Qed.

(** Tamper detection. After [key] was sealed under DiskKeySealingPCRs,
    in a state with the same NV storage, storage root key and snapshot
    file in which one of these registers has another value (every register
    holding a digest of the one length [n]), UnsealDiskKey returns no key
    but the failure of the policy, together with the ascending list of
    exactly the registers that have changed. *)
Theorem UnsealDiskKey_detects_tampering (key : bytes) (w w1 w2 : World) (n : nat) :
  SealDiskKey key DiskKeySealingPCRs w = (Ok tt, w1) →
  nv w2 = nv w1 → persistent w2 = persistent w1 → dev_present w2 = dev_present w1 →
  fs w2 !! TpmSavedDiskSealingPcrs = fs w1 !! TpmSavedDiskSealingPcrs →
  (∀ i, i ∈ PCRs DiskKeySealingPCRs →
        ∃ d d', pcr_bank w !! (tpm2.AlgSHA256, i) = Some d ∧ length d = n
                ∧ pcr_bank w2 !! (tpm2.AlgSHA256, i) = Some d' ∧ length d' = n) →
  (∃ i, i ∈ PCRs DiskKeySealingPCRs
        ∧ pcr_bank w2 !! (tpm2.AlgSHA256, i) ≠ pcr_bank w !! (tpm2.AlgSHA256, i)) →
  ∃ evtLogStat mismatch,
    (UnsealDiskKey DiskKeySealingPCRs w2).1
    = Err (VFmt "UnsealWithSession failed: %w, %s, possibly mismatching PCR indexes: %v"
             [VErr "TPM_RC_POLICY_FAIL"; evtLogStat; VInts mismatch])
    ∧ mismatch ≠ []
    ∧ Sorted Z.le mismatch
    ∧ (∀ i, i ∈ mismatch ↔
            i ∈ PCRs DiskKeySealingPCRs
            ∧ pcr_bank w2 !! (tpm2.AlgSHA256, i) ≠ pcr_bank w !! (tpm2.AlgSHA256, i)).
Proof.
  intros Hseal Hnv Hper Hdev Hfile Hregs (j & Hj & Hchanged).
  destruct (SealDiskKey_stored _ _ _ _ _ Hseal) as (ws & Hst & _ & Hfr); [by left|].
  pose proof (only_files_core _ _ _ Hfr) as Hcore.
  destruct (stored_holds_sealed _ _ _ _ Hst)
    as (Hdevs & Hsrks & vs & sp & sq & Hsels & Hprivs & Hpubs).
  injection Hcore as Hcdev Hcper Hcnv Hcpcr.
  assert (Hsel : tpm2.read_selection DiskKeySealingPCRs w = Some vs).
  { rewrite <-Hsels. symmetry. apply read_selection_ext. intros i _.
    by rewrite (stored_pcr_bank _ _ _ _ Hst). }
  destruct (read_selection_all DiskKeySealingPCRs w2) as [vs2 Hsel2].
  { intros i Hi. change (Hash DiskKeySealingPCRs) with tpm2.AlgSHA256.
    destruct (Hregs i Hi) as (d & d' & _ & _ & -> & _). by eexists. }
  assert (Hne : concat vs2 ≠ concat vs).
  { intros Hcat.
    assert (Hlen2 : Forall (λ v, length v = n) vs2).
    { apply (read_selection_lengths _ _ _ _ Hsel2). intros i d Hi.
      change (Hash DiskKeySealingPCRs) with tpm2.AlgSHA256.
      destruct (Hregs i Hi) as (? & d' & _ & _ & Hd' & Hlen). congruence. }
    assert (Hlen1 : Forall (λ v, length v = n) vs).
    { apply (read_selection_lengths _ _ _ _ Hsel). intros i d Hi.
      change (Hash DiskKeySealingPCRs) with tpm2.AlgSHA256.
      destruct (Hregs i Hi) as (d0 & ? & Hd & Hlen & _). congruence. }
    apply read_selection_lookup in Hsel, Hsel2.
    assert (vs2 = vs) as ->.
    { apply (concat_inj_length n); [done..| |done].
      by rewrite <-(Forall2_length _ _ _ Hsel), <-(Forall2_length _ _ _ Hsel2). }
    apply Hchanged. apply list_elem_of_lookup in Hj as [k Hk].
    destruct (Forall2_lookup_l _ _ _ _ _ Hsel Hk) as (v & Hv & Hpv).
    destruct (Forall2_lookup_l _ _ _ _ _ Hsel2 Hk) as (v' & Hv' & Hpv').
    change (Hash DiskKeySealingPCRs) with tpm2.AlgSHA256 in Hpv, Hpv'. congruence. }
  pose proof (UnsealDiskKey_loaded DiskKeySealingPCRs w2 key (concat vs) sp sq vs2) as Hrun.
  cbv zeta in Hrun. rewrite decide_False in Hrun by done.
  rewrite Hrun; [|congruence|by rewrite Hnv, Hcnv..|by rewrite Hper, Hcper|done].
  cbn [fst].
  set (w3 := with_session _ _).
  pose proof (respects_copyMeasurementLog MeasurementLogUnsealFail
                log_copy_unseal_fail w3) as [Hno Hfiles].
  set (wc := (copyMeasurementLog MeasurementLogUnsealFail w3).2) in *.
  destruct (stored_snapshot _ _ _ _ Hst) as (m & Hm & Hfs).
  destruct (findMismatchingPCRs_against m w wc Hm) as (mismatch & Hdiag & Hsorted & _ & Hmem).
  - rewrite Hfiles by apply snapshot_not_log_copy.
    change (fs w3) with (fs w2). rewrite Hfile.
    destruct Hfr as [_ Hfiles']. rewrite Hfiles' by apply snapshot_not_log_copy.
    rewrite Hfs. apply lookup_insert_eq.
  - rewrite (f_equal dev_present Hno : dev_present wc = dev_present w3).
    change (dev_present w3) with (dev_present w2). congruence.
  - intros i Hi. rewrite (f_equal pcr_bank Hno : pcr_bank wc = pcr_bank w3).
    change (pcr_bank w3) with (pcr_bank w2).
    destruct (Hregs i Hi) as (d & d' & _ & _ & -> & _). by eexists.
  - rewrite Hdiag. cbn [fst].
    assert (Hpcr : pcr_bank wc = pcr_bank w2)
      by exact (f_equal pcr_bank Hno : pcr_bank wc = pcr_bank w3).
    eexists _, mismatch. split_and!; [done| |done|].
    + intros ->. eapply not_elem_of_nil, Hmem. rewrite Hpcr. eauto.
    + intros i. rewrite Hmem, Hpcr. done.
Qed.

(** *** The handles that UnsealDiskKey takes are given back *)

Lemma released_handles h x (s : gmap Z bytes) (o : gmap Z sealed_obj) d obj :
  sessions x = <[h + 1 := d]> s → objects x = <[h := obj]> o →
  s !! h = None → s !! (h + 1) = None → o !! h = None →
  sessions (released h x) = s ∧ objects (released h x) = o.
Proof.
  intros Hs Ho Hsh Hsh1 Hoh. unfold released.
  rewrite (FlushContext_session (h + 1) x d) by (rewrite Hs; apply lookup_insert_eq).
  cbn [snd]. unfold tpm2.FlushContext. cbn [sessions objects set_sessions].
  rewrite Hs, delete_insert_id, Hsh, Ho, lookup_insert_eq by done. cbn.
  by rewrite Hs, Ho, !delete_insert_id.
Qed.

Lemma PolicyPCRSession_err_state pcrSel w :
  tpm2.read_selection pcrSel w = None → next_handle w ≠ tpm2.HandleNull →
  (PolicyPCRSession pcrSel w).2
  = set_sessions (delete (next_handle w)) (with_session [] w).
Proof.
  intros Hsel Hnull. unfold PolicyPCRSession.
  rewrite bind_run. unfold on_err at 1. cbn [tpm2.StartAuthSession].
  unfold defer_err. rewrite bind_run. unfold on_err at 1.
  unfold tpm2.PolicyPCR. cbn [sessions set_next_handle set_sessions].
  rewrite lookup_insert_eq.
  change (tpm2.read_selection pcrSel _) with (tpm2.read_selection pcrSel w).
  rewrite Hsel. cbn [snd]. rewrite decide_True by done.
  rewrite ignore_run. cbn [snd].
  by rewrite (FlushContext_session _ _ []) by (cbn; apply lookup_insert_eq).
Qed.

(** On every way out, with or without a key, UnsealDiskKey has flushed the
    object it loaded and the policy session it opened: the sessions and the
    loaded objects of the module are those from before the call. (The two
    handles that the module hands out next are taken to be free, and not
    the null handle.) *)
Theorem UnsealDiskKey_releases_handles (pcrSel : PCRSelection) (w : World) :
  sessions w !! next_handle w = None →
  sessions w !! (next_handle w + 1) = None →
  objects w !! next_handle w = None →
  next_handle w + 1 ≠ tpm2.HandleNull →
  sessions (UnsealDiskKey pcrSel w).2 = sessions w
  ∧ objects (UnsealDiskKey pcrSel w).2 = objects w.
Proof.
  intros Hsh Hsh1 Hoh Hnull.
  assert (Hearly : ∀ e, UnsealDiskKey pcrSel w = (Err e, w) →
            sessions (UnsealDiskKey pcrSel w).2 = sessions w
            ∧ objects (UnsealDiskKey pcrSel w).2 = objects w)
    by (by intros e ->).
  destruct (dev_present w) eqn:Hdev.
  2:{ eapply Hearly. unfold UnsealDiskKey. rewrite bind_run. unfold tpm2.OpenTPM.
      by rewrite Hdev. }
  destruct (tpm2.NVReadEx TpmSealedDiskPrivHdl w) as [[priv|e] wr] eqn:Hpriv.
  2:{ eapply Hearly. unfold UnsealDiskKey.
      rewrite bind_run, (OpenTPM_ok _ _ Hdev), defer_Close.
      rewrite bind_run. unfold on_err at 1.
      rewrite <-(NVReadEx_state TpmSealedDiskPrivHdl w) at 2. by rewrite Hpriv. }
  apply NVReadEx_ok_inv in Hpriv as [-> [sp Hpriv]].
  destruct (tpm2.NVReadEx TpmSealedDiskPubHdl w) as [[pub|e] wr] eqn:Hpub.
  2:{ eapply Hearly. unfold UnsealDiskKey.
      rewrite bind_run, (OpenTPM_ok _ _ Hdev), defer_Close.
      rewrite bind_run. unfold on_err at 1. rewrite (NVReadEx_ok _ _ _ _ Hpriv).
      rewrite bind_run. unfold on_err at 1.
      rewrite <-(NVReadEx_state TpmSealedDiskPubHdl w) at 2. by rewrite Hpub. }
  apply NVReadEx_ok_inv in Hpub as [-> [sq Hpub]].
  destruct (decide (TpmSRKHdl ∈ persistent w)) as [Hsrk|Hsrk].
  2:{ eapply Hearly. unfold UnsealDiskKey.
      rewrite bind_run, (OpenTPM_ok _ _ Hdev), defer_Close.
      rewrite bind_run. unfold on_err at 1. rewrite (NVReadEx_ok _ _ _ _ Hpriv).
      rewrite bind_run. unfold on_err at 1. rewrite (NVReadEx_ok _ _ _ _ Hpub).
      rewrite bind_run. unfold on_err, tpm2.Load. by rewrite decide_False. }
  destruct (tpm2.read_selection pcrSel w) as [vs|] eqn:Hsel.
  - pose proof (UnsealDiskKey_loaded pcrSel w priv pub sp sq vs Hdev Hpriv Hpub Hsrk Hsel)
      as Hrun. cbv zeta in Hrun. rewrite Hrun.
    set (w2 := with_session (concat vs) (with_object pub priv w)).
    case_decide; cbn [snd].
    + by apply (released_handles _ _ _ _ (concat vs) (SealedObj pub priv)).
    + rewrite findMismatchingPCRs_state.
      pose proof (respects_copyMeasurementLog MeasurementLogUnsealFail
                    log_copy_unseal_fail w2) as [Hno _].
      apply (released_handles _ _ _ _ (concat vs) (SealedObj pub priv)); [| |done..].
      * exact (f_equal sessions Hno).
      * exact (f_equal objects Hno).
  - pose proof (PolicyPCRSession_err pcrSel (with_object pub priv w) Hsel) as Herr.
    pose proof (PolicyPCRSession_err_state pcrSel (with_object pub priv w) Hsel Hnull)
      as Hstate.
    assert (Hrun : UnsealDiskKey pcrSel w
      = (Err (VFmt "PolicyPCRSession failed: %v"
                [VFmt "PolicyPCR failed: %v" [VErr "TPM_RC_VALUE"]]),
         (tpm2.FlushContext (next_handle w)
            (set_sessions (delete (next_handle w + 1))
               (with_session [] (with_object pub priv w)))).2)).
    { unfold UnsealDiskKey. rewrite bind_run, (OpenTPM_ok _ _ Hdev), defer_Close.
      rewrite bind_run. unfold on_err at 1. rewrite (NVReadEx_ok _ _ _ _ Hpriv).
      rewrite bind_run. unfold on_err at 1. rewrite (NVReadEx_ok _ _ _ _ Hpub).
      rewrite bind_run. unfold on_err at 1. rewrite (Load_ok _ _ _ _ Hsrk).
      fold (with_object pub priv w). unfold defer at 1.
      rewrite bind_run. unfold on_err at 1.
      destruct (PolicyPCRSession pcrSel (with_object pub priv w)) as [r wp].
      cbn [fst snd] in Herr, Hstate. by subst r wp. }
    rewrite Hrun. cbn [snd].
    unfold tpm2.FlushContext, with_session, with_object. cbn.
    rewrite delete_insert_id by done. rewrite Hsh, lookup_insert_eq. cbn.
    by rewrite !delete_insert_id.
Qed.

(** *** Copying and removing the measurement logs *)

Lemma TpmEvtLogSavePattern_inj s i j :
  TpmEvtLogSavePattern s i = TpmEvtLogSavePattern s j → i = j.
Proof.
  unfold TpmEvtLogSavePattern. intros Heq%(inj (String.app s)).
  apply (inj (String.app "-tpm")) in Heq. by apply (inj pretty) in Heq.
Qed.

Lemma not_copyable_nonneg dstPath w i paths : 0 ≤ not_copyable dstPath w i paths.
Proof.
  revert i. induction paths as [|path paths IH]; intros i; cbn [not_copyable]; [done|].
  specialize (IH (i + 1)). by destruct (copyable _ _ _ _); lia.
Qed.

Lemma copyMeasurementLog_loop_spec dstPath paths i leftToCopy w0 w :
  (∀ p j, p ∈ paths → p ≠ TpmEvtLogSavePattern dstPath j) →
  (∀ p, p ∈ paths → fs w !! p = fs w0 !! p) →
  (∀ j, i ≤ j → fs w !! TpmEvtLogSavePattern dstPath j
                = fs w0 !! TpmEvtLogSavePattern dstPath j) →
  ∃ w',
    copyMeasurementLog_loop dstPath paths i leftToCopy w
    = (Ok (leftToCopy - Z.of_nat (length paths) + not_copyable dstPath w0 i paths), w')
    ∧ no_fs w' = no_fs w
    ∧ (∀ p, (∀ k, (k < length paths)%nat →
                  p ≠ TpmEvtLogSavePattern dstPath (i + Z.of_nat k)) →
            fs w' !! p = fs w !! p)
    ∧ (∀ k path, paths !! k = Some path →
         copyable dstPath w0 (i + Z.of_nat k) path = true →
         fs w' !! TpmEvtLogSavePattern dstPath (i + Z.of_nat k) = fs w0 !! path).
Proof.
  revert i leftToCopy w. induction paths as [|path paths IH];
    intros i leftToCopy w Hsrc Hsame Hdst.
  - exists w. cbn [copyMeasurementLog_loop not_copyable length]. unfold ret.
    split_and!; [do 2 f_equal; lia|done|done|]. intros k path Hk. by rewrite lookup_nil in Hk.
  - cbn [copyMeasurementLog_loop not_copyable].
    rewrite bind_run, attempt_run. unfold os.ReadFile at 1 2.
    assert (Hpath : fs w !! path = fs w0 !! path) by (apply Hsame; by left).
    assert (Hcopy : fs w !! TpmEvtLogSavePattern dstPath i
                    = fs w0 !! TpmEvtLogSavePattern dstPath i) by (apply Hdst; lia).
    unfold copyable at 1. rewrite <-Hpath, <-Hcopy.
    assert (Hskip : ∀ left',
      left' = leftToCopy →
      ∃ w',
        copyMeasurementLog_loop dstPath paths (i + 1) left' w
        = (Ok (leftToCopy - Z.of_nat (length (path :: paths))
               + (1 + not_copyable dstPath w0 (i + 1) paths)), w')
        ∧ no_fs w' = no_fs w
        ∧ (∀ p, (∀ k, (k < length (path :: paths))%nat →
                      p ≠ TpmEvtLogSavePattern dstPath (i + Z.of_nat k)) →
                fs w' !! p = fs w !! p)
        ∧ (∀ k path', paths !! k = Some path' →
             copyable dstPath w0 (i + 1 + Z.of_nat k) path' = true →
             fs w' !! TpmEvtLogSavePattern dstPath (i + 1 + Z.of_nat k) = fs w0 !! path')).
    { intros left' ->.
      destruct (IH (i + 1) leftToCopy w) as (w' & Hrun & Hno & Hother & Hgood).
      - intros p j Hp. apply Hsrc. by right.
      - intros p Hp. apply Hsame. by right.
      - intros j Hj. apply Hdst. lia.
      - exists w'. split_and!; [|done| |done].
        + rewrite Hrun. do 2 f_equal. cbn [length]. lia.
        + intros p Hp. apply Hother. intros k Hk.
          replace (i + 1 + Z.of_nat k) with (i + Z.of_nat (S k)) by lia.
          apply Hp. cbn [length]. lia. }
    destruct (fs w !! path) as [[content|]|] eqn:Hsrcfile; cbn [fst snd].
    2,3: destruct (Hskip leftToCopy eq_refl) as (w' & Hrun & Hno & Hother & Hgood);
      exists w'; (split_and!; [done..|]); intros [|k] path' Hk Hc;
      [injection Hk as <-; unfold copyable in Hc; rewrite Z.add_0_r in Hc;
       by rewrite <-Hpath in Hc
      |replace (i + Z.of_nat (S k)) with (i + 1 + Z.of_nat k) in * by lia;
       by apply Hgood].
    rewrite bind_run, attempt_run. unfold fileutils.WriteRename at 1 2.
    destruct (fs w !! TpmEvtLogSavePattern dstPath i) as [[c|]|] eqn:Hdstfile;
      cbn [fst snd].
    2:{ destruct (Hskip leftToCopy eq_refl) as (w' & Hrun & Hno & Hother & Hgood).
        exists w'. split_and!; [done..|]. intros [|k] path' Hk Hc.
        - injection Hk as <-. unfold copyable in Hc. rewrite Z.add_0_r in Hc.
          by rewrite <-Hpath, <-Hcopy in Hc.
        - replace (i + Z.of_nat (S k)) with (i + 1 + Z.of_nat k) in * by lia.
          by apply Hgood. }
    all: set (w1 := set_fs (<[TpmEvtLogSavePattern dstPath i := File content]>) w).
    all: destruct (IH (i + 1) (leftToCopy - 1) w1) as (w' & Hrun & Hno & Hother & Hgood);
      [intros p j Hp; apply Hsrc; by right
      |intros p Hp; cbn; rewrite lookup_insert_ne
          by (intros Heq; by eapply (Hsrc p i); [right|]);
        apply Hsame; by right
      |intros j Hj; cbn; rewrite lookup_insert_ne
          by (intros Heq%TpmEvtLogSavePattern_inj; lia);
        apply Hdst; lia
      |].
    all: exists w'; split_and!;
      [rewrite Hrun; do 2 f_equal; cbn [length]; lia
      |by rewrite Hno
      |intros p Hp; rewrite Hother;
        [cbn; apply lookup_insert_ne; intros Heq;
         apply (Hp 0%nat); [cbn [length]; lia|by rewrite Z.add_0_r]
        |intros k Hk; replace (i + 1 + Z.of_nat k) with (i + Z.of_nat (S k)) by lia;
         apply Hp; cbn [length]; lia]
      |intros [|k] path' Hk Hc;
        [injection Hk as <-; rewrite Z.add_0_r; rewrite Hother;
          [cbn; by rewrite lookup_insert_eq
          |intros k Hk Heq%TpmEvtLogSavePattern_inj; lia]
        |replace (i + Z.of_nat (S k)) with (i + 1 + Z.of_nat k) in * by lia;
         by apply Hgood]].
Qed.

Lemma getMeasurementLogFiles_loop_run paths enumerated w :
  getMeasurementLogFiles_loop paths enumerated w
  = (Ok (enumerated
         ++ filter (λ p, is_Some (fs w !! p))
              ((λ dir, filepath.Join dir measurementLogFile) <$> paths)), w).
Proof.
  revert enumerated. induction paths as [|path paths IH]; intros enumerated.
  - cbn. by rewrite app_nil_r.
  - cbn [getMeasurementLogFiles_loop]. rewrite bind_run.
    unfold fileutils.FileExists. cbn [gets]. rewrite fmap_cons, filter_cons.
    case_bool_decide as Hex.
    + rewrite decide_True by done. rewrite IH. by rewrite <-app_assoc.
    + rewrite decide_False by done. by rewrite IH.
Qed.

Lemma getMappedTpmsPath_run w :
  getMappedTpmsPath w
  = (if decide (length (sysfs_tpms w) = 0%nat)
     then Err (VFmt "found no TPM in sysfs" []) else Ok (sysfs_tpms w), w).
Proof.
  unfold getMappedTpmsPath. rewrite bind_run. unfold on_err, filepath.Glob_syfsTpmDir.
  by case_decide.
Qed.

Lemma countMappedTpms_run w :
  countMappedTpms w
  = (if decide (length (sysfs_tpms w) = 0%nat)
     then Err (VFmt "getMappedTpmsPath failed: %w" [VFmt "found no TPM in sysfs" []])
     else Ok (Z.of_nat (length (sysfs_tpms w))), w).
Proof.
  unfold countMappedTpms. rewrite bind_run. unfold on_err at 1.
  rewrite getMappedTpmsPath_run. by case_decide.
Qed.

Lemma getMeasurementLogFiles_ok_inv w paths w' :
  getMeasurementLogFiles w = (Ok paths, w') →
  w' = w
  ∧ sysfs_tpms w ≠ []
  ∧ paths = filter (λ p, is_Some (fs w !! p))
              ((λ dir, filepath.Join dir measurementLogFile) <$> sysfs_tpms w).
Proof.
  unfold getMeasurementLogFiles. rewrite bind_run. unfold on_err at 1.
  rewrite getMappedTpmsPath_run. case_decide as Hlen; [done|].
  rewrite getMeasurementLogFiles_loop_run. intros [= <- <-].
  split_and!; [done| |done]. by destruct (sysfs_tpms w).
Qed.

(** copyMeasurementLog copies the logs that exist under the modules of
    sysfs, numbered in the order in which they are found (a module without
    a log takes no number): the copy number [k] gets the content of the
    [k]-th log, wherever that log is a file and no directory stands in the
    place of the copy, also when other copies fail; nothing else changes;
    and the call fails exactly when some log could not be copied, with
    their number in the error. (No log is itself the place of a copy.) *)
Theorem copyMeasurementLog_spec (dstPath : string) (w w0 : World) (paths : list string) :
  getMeasurementLogFiles w = (Ok paths, w0) →
  (∀ p j, p ∈ paths → p ≠ TpmEvtLogSavePattern dstPath j) →
  paths = filter (λ p, is_Some (fs w !! p))
            ((λ dir, filepath.Join dir measurementLogFile) <$> sysfs_tpms w)
  ∧ ∃ w',
      copyMeasurementLog dstPath w
      = (if decide (not_copyable dstPath w 0 paths = 0) then Ok tt
         else Err (VFmt "failed to copy %d number of stored measurement log files"
                     [VInt (not_copyable dstPath w 0 paths)]), w')
      ∧ no_fs w' = no_fs w
      ∧ (∀ p, (∀ k, (k < length paths)%nat →
                    p ≠ TpmEvtLogSavePattern dstPath (Z.of_nat k)) →
              fs w' !! p = fs w !! p)
      ∧ (∀ k path, paths !! k = Some path →
           copyable dstPath w (Z.of_nat k) path = true →
           fs w' !! TpmEvtLogSavePattern dstPath (Z.of_nat k) = fs w !! path).
Proof.
  intros Henum Hsrc.
  destruct (getMeasurementLogFiles_ok_inv _ _ _ Henum) as (-> & _ & Hpaths).
  split; [done|].
  destruct (copyMeasurementLog_loop_spec dstPath paths 0 (Z.of_nat (length paths)) w w)
    as (w' & Hrun & Hno & Hother & Hgood); [done..|].
  exists w'. split_and!; [|done|done|].
  - unfold copyMeasurementLog. rewrite bind_run, (on_err_ok _ _ _ _ _ Henum).
    rewrite bind_run, Hrun.
    replace (Z.of_nat (length paths) - Z.of_nat (length paths)
             + not_copyable dstPath w 0 paths)
      with (not_copyable dstPath w 0 paths) by lia.
    by repeat case_decide.
  - intros k path Hk Hc. by apply (Hgood k path).
Qed.

Lemma Remove_spec name w :
  no_fs (os.Remove name w).2 = no_fs w
  ∧ (∀ p, p ≠ name → fs (os.Remove name w).2 !! p = fs w !! p)
  ∧ (fs w !! name ≠ Some Dir → fs (os.Remove name w).2 !! name = None)
  ∧ (∀ p, fs (os.Remove name w).2 !! p = None
          ∨ fs (os.Remove name w).2 !! p = fs w !! p).
Proof.
  unfold os.Remove.
  destruct (fs w !! name) as [[content|]|] eqn:Hname;
    [|destruct (os.holds_entries name (fs w))|]; cbn [snd].
  - split_and!; [done|by intros; cbn; rewrite lookup_delete_ne|
                 by intros; cbn; rewrite lookup_delete_eq|].
    intros p. cbn. destruct (decide (p = name)) as [->|Hne];
      [left; apply lookup_delete_eq|right; by rewrite lookup_delete_ne].
  - split_and!; [done..| |by right]. by rewrite Hname.
  - split_and!; [done|by intros; cbn; rewrite lookup_delete_ne|
                 by intros; cbn; rewrite lookup_delete_eq|].
    intros p. cbn. destruct (decide (p = name)) as [->|Hne];
      [left; apply lookup_delete_eq|right; by rewrite lookup_delete_ne].
  - split_and!; [done..| |by right]. by rewrite Hname.
Qed.

Lemma removeCopiedMeasurementLogs_loop_spec n i w :
  ∃ w',
    removeCopiedMeasurementLogs_loop n i w = (Ok tt, w')
    ∧ no_fs w' = no_fs w
    ∧ (∀ p, fs w' !! p = None ∨ fs w' !! p = fs w !! p)
    ∧ (∀ j p, i ≤ j < i + Z.of_nat n →
         p = TpmEvtLogSavePattern MeasurementLogSealSuccess j
         ∨ p = TpmEvtLogSavePattern MeasurementLogUnsealFail j →
         fs w !! p ≠ Some Dir → fs w' !! p = None)
    ∧ (∀ p, (∀ j, i ≤ j < i + Z.of_nat n →
                  p ≠ TpmEvtLogSavePattern MeasurementLogSealSuccess j
                  ∧ p ≠ TpmEvtLogSavePattern MeasurementLogUnsealFail j) →
            fs w' !! p = fs w !! p).
Proof.
  revert i w. induction n as [|n IH]; intros i w.
  - exists w. split_and!; [done|done|by right|intros; lia|done].
  - cbn [removeCopiedMeasurementLogs_loop].
    rewrite bind_run, ignore_run. cbn [fst snd].
    destruct (Remove_spec (TpmEvtLogSavePattern MeasurementLogSealSuccess i) w)
      as (Hno1 & Hother1 & Hgone1 & Hless1).
    set (w1 := (os.Remove (TpmEvtLogSavePattern MeasurementLogSealSuccess i) w).2) in *.
    rewrite bind_run, ignore_run. cbn [fst snd].
    destruct (Remove_spec (TpmEvtLogSavePattern MeasurementLogUnsealFail i) w1)
      as (Hno2 & Hother2 & Hgone2 & Hless2).
    set (w2 := (os.Remove (TpmEvtLogSavePattern MeasurementLogUnsealFail i) w1).2) in *.
    destruct (IH (i + 1) w2) as (w' & Hrun & Hno & Hless & Habsent & Hother).
    assert (Hless12 : ∀ p, fs w2 !! p = None ∨ fs w2 !! p = fs w !! p).
    { intros p. destruct (Hless2 p) as [?|Heq2]; [by left|].
      rewrite Heq2. apply Hless1. }
    exists w'. split_and!; [done|by rewrite Hno, Hno2| | |].
    + intros p. destruct (Hless p) as [?|Heq]; [by left|].
      rewrite Heq. apply Hless12.
    + intros j p Hj Hp Hdir.
      assert (Hw2 : fs w2 !! p = None → fs w' !! p = None).
      { intros Hnone. destruct (Hless p) as [?|Heq]; [done|]. by rewrite Heq. }
      destruct (decide (j = i)) as [->|Hne].
      * apply Hw2. destruct Hp as [->| ->].
        -- destruct (Hless2 (TpmEvtLogSavePattern MeasurementLogSealSuccess i))
             as [?|Heq]; [done|]. rewrite Heq. by apply Hgone1.
        -- apply Hgone2.
           destruct (Hless1 (TpmEvtLogSavePattern MeasurementLogUnsealFail i))
             as [Heq|Heq]; rewrite Heq; done.
      * apply (Habsent j p); [lia|done|].
        destruct (Hless12 p) as [Heq|Heq]; rewrite Heq; done.
    + intros p Hp. rewrite Hother by (intros j Hj; apply Hp; lia).
      destruct (Hp i) as [Hp1 Hp2]; [lia|].
      by rewrite Hother2, Hother1.
Qed.

(** Once the modules are counted, removeCopiedMeasurementLogs never fails,
    whether the copies exist or not: afterwards no copy of a counted module
    is left that was a file (a directory in the place of a copy is not
    promised to go: where it holds something os.Remove fails, and that is
    ignored); nothing is created or altered; and every other path, the
    backups among them, is as before. *)
Theorem removeCopiedMeasurementLogs_spec (w w0 : World) (counted : Z) :
  countMappedTpms w = (Ok counted, w0) →
  ∃ w',
    removeCopiedMeasurementLogs w = (Ok tt, w')
    ∧ no_fs w' = no_fs w
    ∧ (∀ j p, 0 ≤ j < counted →
         p = TpmEvtLogSavePattern MeasurementLogSealSuccess j
         ∨ p = TpmEvtLogSavePattern MeasurementLogUnsealFail j →
         fs w !! p ≠ Some Dir → fs w' !! p = None)
    ∧ (∀ p, fs w' !! p = None ∨ fs w' !! p = fs w !! p)
    ∧ (∀ p, (∀ j, 0 ≤ j < counted →
                  p ≠ TpmEvtLogSavePattern MeasurementLogSealSuccess j
                  ∧ p ≠ TpmEvtLogSavePattern MeasurementLogUnsealFail j) →
            fs w' !! p = fs w !! p).
Proof.
  intros Hcount.
  assert (w0 = w ∧ 0 ≤ counted) as [-> Hpos].
  { rewrite countMappedTpms_run in Hcount. case_decide; [done|].
    injection Hcount as <- <-. split; [done|lia]. }
  destruct (removeCopiedMeasurementLogs_loop_spec (Z.to_nat counted) 0 w)
    as (w' & Hrun & Hno & Hless & Habsent & Hother).
  exists w'. split_and!; [|done| |done|].
  - unfold removeCopiedMeasurementLogs.
    rewrite bind_run, (on_err_ok _ _ _ _ _ Hcount).
    by rewrite bind_run, Hrun.
  - intros j p Hj. apply Habsent. lia.
  - intros p Hp. apply Hother. intros j Hj. apply Hp. lia.
Qed.

(** With no module under sysfs, the archivist fails before it touches a
    file, and so does every seal: SealDiskKey returns an error on such a
    system whatever it is given, even where the module itself works. *)
Theorem no_module_in_sysfs (w : World) (key : bytes) (pcrSel : PCRSelection)
    (dstPath : string) :
  sysfs_tpms w = [] →
  backupCopiedMeasurementLogs w
  = (Err (VFmt "countMappedTPMs failed: %w"
            [VFmt "getMappedTpmsPath failed: %w" [VFmt "found no TPM in sysfs" []]]), w)
  ∧ removeCopiedMeasurementLogs w
    = (Err (VFmt "countMappedTPMs failed: %w"
              [VFmt "getMappedTpmsPath failed: %w" [VFmt "found no TPM in sysfs" []]]), w)
  ∧ copyMeasurementLog dstPath w
    = (Err (VFmt "enumSourceEventLogFiles failed: %w"
              [VFmt "getMappedTpmsPath failed: %w" [VFmt "found no TPM in sysfs" []]]), w)
  ∧ is_ok (SealDiskKey key pcrSel w).1 = false.
Proof.
  intros Hnone.
  assert (Hcount : ∀ w1, sysfs_tpms w1 = [] →
    countMappedTpms w1
    = (Err (VFmt "getMappedTpmsPath failed: %w" [VFmt "found no TPM in sysfs" []]), w1)).
  { intros w1 Hw1. by rewrite countMappedTpms_run, Hw1. }
  assert (Hbackup : ∀ w1, sysfs_tpms w1 = [] →
    backupCopiedMeasurementLogs w1
    = (Err (VFmt "countMappedTPMs failed: %w"
              [VFmt "getMappedTpmsPath failed: %w" [VFmt "found no TPM in sysfs" []]]), w1)).
  { intros w1 Hw1. unfold backupCopiedMeasurementLogs.
    by rewrite bind_run, (on_err_err _ _ _ _ _ (Hcount w1 Hw1)). }
  split_and!.
  - by apply Hbackup.
  - unfold removeCopiedMeasurementLogs.
    by rewrite bind_run, (on_err_err _ _ _ _ _ (Hcount w Hnone)).
  - unfold copyMeasurementLog, getMeasurementLogFiles.
    rewrite bind_run. unfold on_err at 1. rewrite bind_run. unfold on_err at 1.
    by rewrite getMappedTpmsPath_run, Hnone.
  - destruct (SealDiskKey key pcrSel w) as [[[]|e] w'] eqn:Hrun; [|done].
    destruct (SealDiskKey_stored _ _ _ _ _ Hrun) as (ws & Hst & Harch & _); [by left|].
    assert (Hws : sysfs_tpms ws = []) by (by rewrite (stored_sysfs_tpms _ _ _ _ Hst)).
    unfold archive_seal_success in Harch.
    by rewrite bind_run, (on_err_err _ _ _ _ _ (Hbackup ws Hws)) in Harch.
Qed.

(** *** The model name and the firmware version *)

Lemma byte_of_uint8_val c :
  0 ≤ c < 256 → Z.of_N (Byte.to_N (byte_of_uint8 c)) = c.
Proof.
  intros Hc. unfold byte_of_uint8.
  destruct (Byte.of_N (Z.to_N c)) as [b|] eqn:Hb; cbn.
  - apply Byte.to_of_N in Hb. lia.
  - apply Byte.of_N_None_iff in Hb. lia.
Qed.

Lemma get8_val v i :
  0 ≤ i ≤ 3 → get8 v i = (v / 2 ^ (8 * (3 - i))) mod 256.
Proof.
  intros Hi. unfold get8, uint8.
  change 255 with (Z.ones 8). rewrite Z.land_ones by lia.
  assert (i = 0 ∨ i = 1 ∨ i = 2 ∨ i = 3) as [-> | [-> | [-> | ->]]] by lia;
    match goal with
    | |- context [uint32 ?x] =>
        let y := eval vm_compute in (uint32 x) in change (uint32 x) with y
    end;
    rewrite Z.shiftr_div_pow2 by lia; cbn [Z.mul Z.sub Z.add Z.opp Z.pos_sub Pos.mul Pos.add];
    rewrite Z.mod_mod by lia; reflexivity.
Qed.

Lemma uintToByteArr_run v :
  uintToByteArr v = [get8 v 0; get8 v 1; get8 v 2; get8 v 3].
Proof. reflexivity. Qed.

Lemma get16_val v i :
  0 ≤ i ≤ 1 → get16 v i = (v / 2 ^ (16 * (1 - i))) mod 65536.
Proof.
  intros Hi. unfold get16, uint16.
  change 65535 with (Z.ones 16). rewrite Z.land_ones by lia.
  assert (i = 0 ∨ i = 1) as [-> | ->] by lia;
    match goal with
    | |- context [uint32 ?x] =>
        let y := eval vm_compute in (uint32 x) in change (uint32 x) with y
    end;
    rewrite Z.shiftr_div_pow2 by lia; cbn [Z.mul Z.sub Z.add Z.opp Z.pos_sub Pos.mul Pos.add];
    rewrite Z.mod_mod by lia; reflexivity.
Qed.

Lemma app_String c a x : String c a +:+ x = String c (a +:+ x).
Proof. reflexivity. Qed.

Lemma app_Empty x : "" +:+ x = x.
Proof. reflexivity. Qed.

Lemma pretty_N_go_dotless x s : dotless s = true → dotless (pretty_N_go x s) = true.
Proof.
  revert s. induction (N.lt_wf_0 x) as [x _ IH]; intros s Hs.
  assert (x = 0 ∨ 0 < x)%N as [->|Hx] by lia.
  - by rewrite pretty_N_go_0.
  - rewrite pretty_N_go_step by done. apply IH; [by apply N.div_lt|].
    cbn [dotless]. rewrite Hs, andb_true_r.
    unfold pretty_N_char. by repeat case_match.
Qed.

Lemma pretty_dotless (z : Z) : 0 ≤ z → dotless (pretty z) = true.
Proof.
  intros Hz. destruct z as [|p|p]; [done| |lia].
  unfold pretty, pretty_Z, pretty, pretty_positive, pretty, pretty_N.
  case_decide; [done|]. by apply pretty_N_go_dotless.
Qed.

Lemma dotless_split a a' r r' :
  dotless a = true → dotless a' = true →
  a +:+ "." +:+ r = a' +:+ "." +:+ r' → a = a' ∧ r = r'.
Proof.
  revert a'. induction a as [|c a IH]; intros [|c' a'] Ha Ha'.
  - change (String "." r = String "." r' → "" = "" ∧ r = r'). by intros [= ->].
  - change (String "." r = String c' (a' +:+ "." +:+ r') → "" = String c' a' ∧ r = r').
    intros [= <- _]. cbn in Ha'. by rewrite bool_decide_true in Ha'.
  - change (String c (a +:+ "." +:+ r) = String "." r' → String c a = "" ∧ r = r').
    intros [= -> _]. cbn in Ha. by rewrite bool_decide_true in Ha.
  - change (String c (a +:+ "." +:+ r) = String c' (a' +:+ "." +:+ r')
            → String c a = String c' a' ∧ r = r').
    intros [= -> Hrest].
    cbn [dotless] in Ha, Ha'. apply andb_true_iff in Ha as [_ Ha].
    apply andb_true_iff in Ha' as [_ Ha'].
    destruct (IH a' Ha Ha' Hrest) as [-> ->]. done.
Qed.

(** The model name is eight bytes: the two values one after the other, each
    with its most significant byte first. So the two values can be read
    back from the name, and two different pairs never give the same name. *)
Theorem GetModelName_big_endian (vendorValue1 vendorValue2 : Z) :
  0 ≤ vendorValue1 < 2 ^ 32 → 0 ≤ vendorValue2 < 2 ^ 32 →
  let model := String.list_byte_of_string (GetModelName vendorValue1 vendorValue2) in
  length model = 8%nat
  ∧ big_endian (take 4 model) = vendorValue1
  ∧ big_endian (drop 4 model) = vendorValue2.
Proof.
  intros H1 H2. unfold GetModelName.
  rewrite String.list_byte_of_string_of_list_byte, app_nil_l, !uintToByteArr_run.
  cbn [fmap list_fmap app length take drop big_endian foldl].
  split; [done|].
  rewrite !byte_of_uint8_val by (rewrite get8_val by lia; apply Z.mod_pos_bound; lia).
  rewrite !get8_val by lia.
  change (8 * (3 - 0)) with 24. change (8 * (3 - 1)) with 16.
  change (8 * (3 - 2)) with 8. change (8 * (3 - 3)) with 0.
  change (2 ^ 24) with 16777216. change (2 ^ 16) with 65536.
  change (2 ^ 8) with 256. change (2 ^ 0) with 1. change (2 ^ 32) with 4294967296 in *.
  split; Z.div_mod_to_equations; lia.
Qed.

(** The firmware version is the four 16-bit halves of the two values, in
    decimal and from the most significant one, with dots between them; two
    different pairs of values never print as the same version. *)
Theorem GetFirmwareVersion_spec (v1 v2 : Z) :
  0 ≤ v1 < 2 ^ 32 → 0 ≤ v2 < 2 ^ 32 →
  GetFirmwareVersion v1 v2
  = pretty (v1 / 65536) +:+ "." +:+ pretty (v1 mod 65536) +:+ "." +:+
    pretty (v2 / 65536) +:+ "." +:+ pretty (v2 mod 65536)
  ∧ ∀ v1' v2', 0 ≤ v1' < 2 ^ 32 → 0 ≤ v2' < 2 ^ 32 →
      GetFirmwareVersion v1 v2 = GetFirmwareVersion v1' v2' →
      v1 = v1' ∧ v2 = v2'.
Proof.
  intros H1 H2.
  assert (Hform : ∀ a b, 0 ≤ a < 2 ^ 32 → 0 ≤ b < 2 ^ 32 →
    GetFirmwareVersion a b
    = pretty (a / 65536) +:+ "." +:+ pretty (a mod 65536) +:+ "." +:+
      pretty (b / 65536) +:+ "." +:+ pretty (b mod 65536)).
  { intros a b Ha Hb. unfold GetFirmwareVersion. rewrite !get16_val by lia.
    change (16 * (1 - 0)) with 16. change (16 * (1 - 1)) with 0.
    change (2 ^ 16) with 65536. change (2 ^ 0) with 1.
    change (2 ^ 32) with 4294967296 in *.
    rewrite !Z.div_1_r.
    rewrite (Z.mod_small (a / 65536)) by (Z.div_mod_to_equations; lia).
    by rewrite (Z.mod_small (b / 65536)) by (Z.div_mod_to_equations; lia). }
  split; [by apply Hform|].
  intros v1' v2' H1' H2'. rewrite !Hform by done.
  change (2 ^ 32) with 4294967296 in *.
  intros [Ha Hrest]%dotless_split;
    [|apply pretty_dotless; Z.div_mod_to_equations; lia..].
  apply dotless_split in Hrest as [Hb Hrest];
    [|apply pretty_dotless; Z.div_mod_to_equations; lia..].
  apply dotless_split in Hrest as [Hc Hd];
    [|apply pretty_dotless; Z.div_mod_to_equations; lia..].
  apply (inj pretty) in Ha, Hb, Hc, Hd.
  split; Z.div_mod_to_equations; lia.
Qed.

End Properties.

(** * The code at work on a concrete device *)

(** ** The theorems at these devices *)

Lemma ReadOwnerCrdl_truncates_witness :
  (ReadOwnerCrdl fresh_device).1 = Ok [x31; x32; x33; x34; x35; x36; x37].
Proof.
  destruct (ReadOwnerCrdl_truncates fresh_device
              [x31; x32; x33; x34; x35; x36; x37; x38; x39])
    as (s & Hrun & _ & Hs & _); [reflexivity|].
  rewrite Hrun, Hs. reflexivity.
Defined.

Lemma seal_unseal_round_trip_witness :
  ∃ w3, UnsealDiskKey DiskKeySealingPCRs sealed_device = (Ok k32, w3).
Proof.
  apply (seal_unseal_round_trip k32 fresh_device sealed_device sealed_device);
    [vm_compute; reflexivity | reflexivity..].
Defined.

Lemma SealDiskKey_archival_failure_witness :
  ∃ w',
    SealDiskKey k32 DiskKeySealingPCRs no_sysfs_device
    = (Err (VFmt "collecting previous snapshot of TPM event log failed: %w"
              [VFmt "countMappedTPMs failed: %w"
                 [VFmt "getMappedTpmsPath failed: %w"
                    [VFmt "found no TPM in sysfs" []]]]), w')
    ∧ ∃ w'', UnsealDiskKey DiskKeySealingPCRs w' = (Ok k32, w'').
Proof.
  pose (ws := (seal_and_store k32 DiskKeySealingPCRs no_sysfs_device).2).
  destruct (SealDiskKey_archival_failure k32 DiskKeySealingPCRs no_sysfs_device)
    as (_ & Hfail & _).
  destruct (Hfail ws
              (VFmt "collecting previous snapshot of TPM event log failed: %w"
                 [VFmt "countMappedTPMs failed: %w"
                    [VFmt "getMappedTpmsPath failed: %w"
                       [VFmt "found no TPM in sysfs" []]]])
              (archive_seal_success ws).2)
    as (Hrun & _ & _ & _ & Hunseal & _); [vm_compute; reflexivity..|].
  eexists. split; [exact Hrun|exact Hunseal].
Defined.

(** C2, as it is stated, fails on this device: the secret is sealed, the
    blobs are in NV and unseal to the secret, and yet SealDiskKey returns
    an error, the one of the rotation that found no module in sysfs. *)
Lemma SealDiskKey_archival_counterexample :
  let out := SealDiskKey k32 DiskKeySealingPCRs no_sysfs_device in
  out.1 = Err (VFmt "collecting previous snapshot of TPM event log failed: %w"
                 [VFmt "countMappedTPMs failed: %w"
                    [VFmt "getMappedTpmsPath failed: %w"
                       [VFmt "found no TPM in sysfs" []]]])
  ∧ (tpm2.NVReadEx TpmSealedDiskPrivHdl out.2).1 = Ok k32
  ∧ is_ok (tpm2.NVReadEx TpmSealedDiskPubHdl out.2).1 = true
  ∧ (UnsealDiskKey DiskKeySealingPCRs out.2).1 = Ok k32.
Proof. vm_compute. repeat split. Qed.

Lemma SealDiskKey_snapshot_witness :
  ∃ m, fs (SealDiskKey k32 (mkPCRSelection tpm2.AlgSHA256 [15]) fresh_device).2
         !! TpmSavedDiskSealingPcrs = Some (File (gob_encode m))
       ∧ dom m = list_to_set (PCRs DiskKeySealingPCRs).
Proof.
  destruct (SealDiskKey_snapshot k32 (mkPCRSelection tpm2.AlgSHA256 [15]) fresh_device
              (SealDiskKey k32 (mkPCRSelection tpm2.AlgSHA256 [15]) fresh_device).2)
    as (m & Hfile & Hdom & _); [vm_compute; reflexivity|].
  exists m. split; [exact Hfile|exact Hdom].
Defined.

(** C5, as it is stated, fails on this device: sealed under register 15
    alone, the snapshot has no entry for register 15, and has one for
    register 0. *)
Lemma SealDiskKey_snapshot_counterexample :
  let pcrSel := mkPCRSelection tpm2.AlgSHA256 [15] in
  let out := SealDiskKey k32 pcrSel fresh_device in
  out.1 = Ok tt
  ∧ (saved_snapshot out.2 ≫= lookup 15) = None
  ∧ (saved_snapshot out.2 ≫= lookup 0) = Some [x00]
  ∧ (tpm2.ReadPCR 15 tpm2.AlgSHA256 out.2).1 = Ok [x0f].
Proof. vm_compute. repeat split. Qed.

Lemma UnsealDiskKey_failure_report_witness :
  (UnsealDiskKey DiskKeySealingPCRs tampered_device).1
  = Err (VFmt "UnsealWithSession failed: %w, %s, possibly mismatching PCR indexes: %v"
           [VErr "TPM_RC_POLICY_FAIL";
            VStr "copied (failed unseal) TPM measurement log";
            VInts [7]]).
Proof.
  pose (w1 := (tpm2.Load TpmSRKHdl
                 [x00; x01; x02; x03; x04; x06; x07; x08; x09; x0d; x0e] k32
                 tampered_device).2).
  pose (w2 := (PolicyPCRSession DiskKeySealingPCRs w1).2).
  destruct (UnsealDiskKey_failure_report DiskKeySealingPCRs tampered_device w1 w2 w2
              k32 [x00; x01; x02; x03; x04; x06; x07; x08; x09; x0d; x0e]
              [x00; x01; x02; x03; x04; x06; xff; x08; x09; x0d; x0e]
              (next_handle tampered_device) (next_handle tampered_device + 1)
              (VErr "TPM_RC_POLICY_FAIL"))
    as [Hrun _]; [vm_compute; reflexivity..|].
  rewrite Hrun. vm_compute. reflexivity.
Defined.

Lemma findMismatchingPCRs_spec_witness :
  ∃ mismatch,
    findMismatchingPCRs TpmSavedDiskSealingPcrs tampered_device
    = (Ok mismatch, tampered_device)
    ∧ Sorted Z.le mismatch
    ∧ NoDup mismatch.
Proof.
  pose (saved := default ∅ (saved_snapshot tampered_device)).
  pose (live := <[7 := [xff]]> saved).
  destruct (findMismatchingPCRs_spec TpmSavedDiskSealingPcrs tampered_device
              tampered_device (gob_encode saved) saved live)
    as [_ Hok]; [vm_compute; reflexivity | apply gob_decode_encode
                 | vm_compute; reflexivity |].
  destruct Hok as (mismatch & Hrun & Hsorted & Hnodup & _).
  - intros i [s Hs]. destruct (decide (i = 7)) as [->|Hne].
    + exists [xff]. reflexivity.
    + exists s. unfold live. rewrite lookup_insert_ne by done. exact Hs.
  - exists mismatch. split; [exact Hrun|]. split; [exact Hsorted|exact Hnodup].
Defined.

Lemma backupCopiedMeasurementLogs_spec_witness :
  (backupCopiedMeasurementLogs rotation_device).1
  = Err (VFmt "failed to backup %d number of previously copied TPM measurement logs"
           [VInt 1]).
Proof.
  destruct (backupCopiedMeasurementLogs_spec rotation_device rotation_device 1)
    as [Hrun _]; [vm_compute; reflexivity|].
  rewrite Hrun. vm_compute. reflexivity.
Defined.

Lemma FetchSealedVaultKey_returns_unsealed_witness :
  ∃ w1, UnsealDiskKey DiskKeySealingPCRs w1
        = (Ok (replicate 32 x07), (FetchSealedVaultKey fresh_device).2).
Proof.
  destruct (FetchSealedVaultKey_returns_unsealed fresh_device
              (PCRBankSHA256Enabled fresh_device).2
              (FetchSealedVaultKey fresh_device).2 (replicate 32 x07))
    as (w1 & Hun & _); [vm_compute; reflexivity..|].
  exists w1. exact Hun.
Defined.

Lemma FetchSealedVaultKey_without_sha256_witness :
  FetchSealedVaultKey sha1_device = FetchVaultKey (PCRBankSHA256Enabled sha1_device).2
  ∧ (FetchSealedVaultKey sha1_device).1 = Ok (replicate 32 x07).
Proof.
  destruct (FetchSealedVaultKey_without_sha256 sha1_device
              (PCRBankSHA256Enabled sha1_device).2)
    as [Hrun _]; [vm_compute; reflexivity|].
  split; [exact Hrun|]. rewrite Hrun. vm_compute. reflexivity.
Defined.

Lemma FetchSealedVaultKey_legacy_migration_witness :
  ∃ w2 w3,
    FetchSealedVaultKey legacy_device = (Ok k32, w2)
    ∧ nv w2 !! TpmDiskKeyHdl = nv legacy_device !! TpmDiskKeyHdl
    ∧ CompareLegacyandSealedKey w2 = (Ok SealedKeyTypeReused, w3).
Proof.
  pose (w0 := (PCRBankSHA256Enabled legacy_device).2).
  destruct (FetchSealedVaultKey_legacy_migration legacy_device w0
              (SealDiskKey k32 DiskKeySealingPCRs w0).2 k32)
    as (w2 & w3 & Hrun & _ & Hnv & _ & Hcmp); [vm_compute; reflexivity..|].
  exists w2, w3. split; [exact Hrun|]. split; [exact Hnv|exact Hcmp].
Defined.

(** ** Further properties at these devices *)

Lemma PCRBankSHA256Enabled_memoized_witness :
  let w0 := (PCRBankSHA256Enabled fresh_device).2 in
  pcrBank256Status w0 ≠ PCRBank256StatusUnknown
  ∧ PCRBankSHA256Enabled w0 = (Ok true, w0).
Proof.
  apply (PCRBankSHA256Enabled_memoized fresh_device
           (PCRBankSHA256Enabled fresh_device).2
           (PCRBankSHA256Enabled fresh_device).2 true);
    [vm_compute; reflexivity | reflexivity].
Defined.

Lemma PCRBankSHA256Enabled_first_probe_witness :
  ∃ b : bool,
    PCRBankSHA256Enabled fresh_device
    = (Ok b, set_pcrBank256Status
               (if b then PCRBank256StatusSupported else PCRBank256StatusNotSupported)
               fresh_device)
    ∧ (b = true ↔
       is_Some (fs fresh_device !! DeviceCertName)
       ∧ fs fresh_device !! DeviceKeyName = None
       ∧ dev_present fresh_device = true
       ∧ is_Some (pcr_bank fresh_device !! (tpm2.AlgSHA256, 0))).
Proof. apply (PCRBankSHA256Enabled_first_probe fresh_device). reflexivity. Defined.

Lemma writeDiskKey_readDiskKey_witness :
  readDiskKey (writeDiskKey k32 fresh_device).2
  = (Ok k32, (writeDiskKey k32 fresh_device).2).
Proof.
  apply (writeDiskKey_readDiskKey k32 fresh_device). vm_compute. reflexivity.
Defined.


Lemma FetchVaultKey_stable_witness :
  FetchVaultKey (FetchVaultKey fresh_device).2
  = (Ok (replicate 32 x07), (FetchVaultKey fresh_device).2).
Proof.
  apply (FetchVaultKey_stable fresh_device). vm_compute. reflexivity.
Defined.

Lemma WipeOutStaleSealedKeyIfAny_wipes_witness :
  let w' := set_nv (λ m, delete TpmSealedDiskPrivHdl (delete TpmSealedDiskPubHdl m))
              sealed_device in
  WipeOutStaleSealedKeyIfAny sealed_device = (Ok tt, w')
  ∧ isSealedKeyPresent w' = (Ok false, w')
  ∧ (UnsealDiskKey DiskKeySealingPCRs w').1
    = Err (VFmt "NVReadEx %v failed: %v" [VInt TpmSealedDiskPrivHdl; VErr "TPM_RC_HANDLE"])
  ∧ (readDiskKey w').1 = (readDiskKey sealed_device).1
  ∧ CompareLegacyandSealedKey w' = (Ok SealedKeyTypeUnprotected, w').
Proof.
  apply (WipeOutStaleSealedKeyIfAny_wipes sealed_device DiskKeySealingPCRs).
  vm_compute. reflexivity.
Defined.

Lemma FetchSealedVaultKey_stable_witness :
  ∃ w'', FetchSealedVaultKey (FetchSealedVaultKey fresh_device).2
         = (Ok (replicate 32 x07), w'').
Proof.
  apply (FetchSealedVaultKey_stable fresh_device). vm_compute. reflexivity.
Defined.

Lemma FetchSealedVaultKey_fresh_install_witness :
  ∃ w2,
    FetchSealedVaultKey fresh_device = (Ok (replicate 32 x07), w2)
    ∧ isLegacyKeyPresent w2 = (Ok false, w2)
    ∧ CompareLegacyandSealedKey w2 = (Ok SealedKeyTypeNew, w2).
Proof.
  pose (w0 := (PCRBankSHA256Enabled fresh_device).2).
  pose (wr := (GetRandom vaultKeyLength w0).2).
  destruct (FetchSealedVaultKey_fresh_install fresh_device w0 wr
              (SealDiskKey (replicate 32 x07) DiskKeySealingPCRs wr).2
              (replicate 32 x07))
    as (w2 & Hrun & _ & _ & Hlegacy & Hcmp); [vm_compute; reflexivity..|].
  exists w2. split; [exact Hrun|]. split; [exact Hlegacy|exact Hcmp].
Defined.

Lemma findMismatchingPCRs_after_seal_witness :
  ∃ mismatch,
    findMismatchingPCRs TpmSavedDiskSealingPcrs tampered_device
    = (Ok mismatch, tampered_device)
    ∧ (∀ i, i ∈ mismatch ↔
            i ∈ PCRs DiskKeySealingPCRs
            ∧ pcr_bank tampered_device !! (tpm2.AlgSHA256, i)
              ≠ pcr_bank fresh_device !! (tpm2.AlgSHA256, i)).
Proof.
  destruct (findMismatchingPCRs_after_seal k32 DiskKeySealingPCRs fresh_device
              sealed_device tampered_device)
    as (mismatch & Hrun & _ & _ & Hspec & _);
    [vm_compute; reflexivity | reflexivity | reflexivity | |].
  - apply Forall_forall.
    repeat (constructor; [eexists; vm_compute; reflexivity|]). constructor.
  - exists mismatch. split; [exact Hrun|exact Hspec].
Defined.

Lemma UnsealDiskKey_detects_tampering_witness :
  ∃ evtLogStat mismatch,
    (UnsealDiskKey DiskKeySealingPCRs tampered_device).1
    = Err (VFmt "UnsealWithSession failed: %w, %s, possibly mismatching PCR indexes: %v"
             [VErr "TPM_RC_POLICY_FAIL"; evtLogStat; VInts mismatch])
    ∧ mismatch ≠ [].
Proof.
  destruct (UnsealDiskKey_detects_tampering k32 fresh_device sealed_device
              tampered_device 1)
    as (evtLogStat & mismatch & Hrun & Hne & _);
    [vm_compute; reflexivity | reflexivity | reflexivity | vm_compute; reflexivity
    | reflexivity | | |].
  - apply Forall_forall.
    repeat (constructor; [do 2 eexists; split_and!; vm_compute; reflexivity|]).
    constructor.
  - exists 7. split; [apply (bool_decide_unpack _); vm_compute; exact I|].
    vm_compute. discriminate.
  - exists evtLogStat, mismatch. split; [exact Hrun|exact Hne].
Defined.

Lemma UnsealDiskKey_releases_handles_witness :
  sessions (UnsealDiskKey DiskKeySealingPCRs tampered_device).2
  = sessions tampered_device
  ∧ objects (UnsealDiskKey DiskKeySealingPCRs tampered_device).2
    = objects tampered_device.
Proof.
  apply (UnsealDiskKey_releases_handles DiskKeySealingPCRs tampered_device);
    [vm_compute; reflexivity.. | vm_compute; discriminate].
Defined.

Lemma copyMeasurementLog_spec_witness :
  ∃ w',
    copyMeasurementLog MeasurementLogSealSuccess fresh_device = (Ok tt, w')
    ∧ fs w' !! TpmEvtLogSavePattern MeasurementLogSealSuccess 0
      = Some (File [x01; x02]).
Proof.
  destruct (copyMeasurementLog_spec MeasurementLogSealSuccess fresh_device fresh_device
              ["/hostfs/sys/kernel/security/tpm0/binary_bios_measurements"])
    as (_ & w' & Hrun & _ & _ & Hcopy); [vm_compute; reflexivity | |].
  - intros p j ->%list_elem_of_singleton Heq.
    apply (f_equal (λ s, match s with
                         | String _ (String c _) => c
                         | _ => "/"%char
                         end)) in Heq.
    vm_compute in Heq. discriminate Heq.
  - exists w'. split; [exact Hrun|].
    apply (Hcopy 0%nat "/hostfs/sys/kernel/security/tpm0/binary_bios_measurements");
      [reflexivity | vm_compute; reflexivity].
Defined.

Lemma removeCopiedMeasurementLogs_spec_witness :
  ∃ w',
    removeCopiedMeasurementLogs rotation_device = (Ok tt, w')
    ∧ fs w' !! TpmEvtLogSavePattern MeasurementLogSealSuccess 0 = None
    ∧ fs w' !! TpmEvtLogSavePattern MeasurementLogUnsealFail 0 = None.
Proof.
  destruct (removeCopiedMeasurementLogs_spec rotation_device rotation_device 1)
    as (w' & Hrun & _ & Habsent & _); [vm_compute; reflexivity|].
  exists w'. split; [exact Hrun|].
  split; (apply (Habsent 0); [lia | auto | vm_compute; discriminate]).
Defined.

Lemma no_module_in_sysfs_witness :
  is_ok (SealDiskKey k32 DiskKeySealingPCRs no_sysfs_device).1 = false.
Proof.
  apply (no_module_in_sysfs no_sysfs_device k32 DiskKeySealingPCRs
           MeasurementLogSealSuccess).
  reflexivity.
Defined.

Lemma GetModelName_big_endian_witness :
  let model := String.list_byte_of_string (GetModelName 0x534C4239 0x36373000) in
  length model = 8%nat
  ∧ big_endian (take 4 model) = 0x534C4239
  ∧ big_endian (drop 4 model) = 0x36373000.
Proof. apply (GetModelName_big_endian 0x534C4239 0x36373000); lia. Defined.

Lemma GetFirmwareVersion_spec_witness :
  GetFirmwareVersion 0x0007003E 0x00100200 = "7.62.16.512".
Proof.
  destruct (GetFirmwareVersion_spec 0x0007003E 0x00100200) as [Hrun _]; [lia..|].
  rewrite Hrun. vm_compute. reflexivity.
Defined.

Lemma FetchVaultKey_generates_witness :
  (FetchVaultKey fresh_device).1 = Ok (replicate 32 x07)
  ∧ (nv (FetchVaultKey fresh_device).2 !! TpmDiskKeyHdl)
    = Some (NvEntry 32 (Some (replicate 32 x07))).
Proof.
  destruct (FetchVaultKey_generates fresh_device
              (VFmt "NVReadEx failed: %v" [VErr "TPM_RC_HANDLE"]))
    as (Hrun & _ & _); [reflexivity | vm_compute; reflexivity | vm_compute; lia |].
  rewrite Hrun. vm_compute. split; reflexivity.
Defined.
